(** * AI-ChatBot: the streaming relay, the chat session and their text filters

    A shallow embedding of
      - [server/server.js]          (sanitizeErrorText, buildActionPrompt, POST /api/ai),
      - [client/utils/aiPrompts.ts] (the prompt builders, sanitizePromptInput,
                                     validateModel, prepareAIRequest),
      - [src/clientCalls.tsx]       (fetchAI),
      - [src/ui/Chat.tsx]           (stripThinkBlocks, send, abortIfStreaming),
      - [client/utils/textActions.ts] (the text utilities),
      - [client/utils/aiGeneration.ts] (validateGenerationParams, handleAIError),
      - [src/ui/Editor.tsx]         (callAI),
    followed by the properties proved about them. *)

From Stdlib Require Import List NArith Bool Lia Ascii String DecimalString.
Import ListNotations.

Set Warnings "-register-all".

(* ================================================================== *)
(** ** JavaScript strings and the built-ins the sources call *)

Module Js.

(** A string is its sequence of UTF-16 code units. *)
Definition char := N.
Definition str := list char.

(** A literal of the sources, written in ASCII. *)
Definition lit (s : String.string) : str :=
  map N_of_ascii (list_ascii_of_string s).

Local Open Scope N_scope.

Definition LF : char := 10%N.
Definition SP : char := 32%N.
Definition LT : char := 60%N.   (* < *)
Definition GT : char := 62%N.   (* > *)
Definition QUOTE : char := 34%N.

Definition str_eqb (a b : str) : bool :=
  if list_eq_dec N.eq_dec a b then true else false.

(** Truthiness of a string: [!s] is true exactly for the empty string. *)
Definition nonempty (s : str) : bool :=
  match s with [] => false | _ :: _ => true end.

(** The class [\s] of regular expressions, which is also what [trim]
    strips: WhiteSpace and LineTerminator of ECMAScript. *)
Definition is_space (c : char) : bool :=
  ((9 <=? c) && (c <=? 13)) || (c =? 32) || (c =? 160) || (c =? 5760)
  || ((8192 <=? c) && (c <=? 8202)) || (c =? 8232) || (c =? 8233)
  || (c =? 8239) || (c =? 8287) || (c =? 12288) || (c =? 65279).

Fixpoint trimStart (s : str) : str :=
  match s with
  | [] => []
  | c :: r => if is_space c then trimStart r else s
  end.

Definition trimEnd (s : str) : str := rev (trimStart (rev s)).

(** [s.trim()] *)
Definition trim (s : str) : str := trimEnd (trimStart s).

(** [s.slice(0, n)] and [s.slice(n)] for a non-negative [n]. *)
Definition slice_to (n : nat) (s : str) : str := firstn n s.
Definition slice_from (n : nat) (s : str) : str := skipn n s.

(** [s.startsWith(p)] *)
Fixpoint startsWith (p s : str) : bool :=
  match p, s with
  | [], _ => true
  | _ :: _, [] => false
  | a :: p', b :: s' => (a =? b) && startsWith p' s'
  end.

(** [s.endsWith(p)] *)
Definition endsWith (p s : str) : bool := startsWith (rev p) (rev s).

(** [s.split(sep)] for a one-character separator: never empty, one more
    piece than there are separators. *)
Fixpoint split (sep : char) (s : str) : list str :=
  match s with
  | [] => [[]]
  | c :: r =>
      if c =? sep then [] :: split sep r
      else match split sep r with
           | l :: ls => (c :: l) :: ls
           | [] => [[c]]
           end
  end.

(** Number::toString of a non-negative integer (an HTTP status). *)
Definition dec (n : N) : str := lit (NilEmpty.string_of_uint (N.to_uint n)).

(** *** The values a handler can meet *)

(** What [JSON.parse] and [express.json] produce.  A number is kept as
    what the code observes of it: whether it is non-zero (its
    truthiness) and the text [String] gives for it. *)
Inductive Json :=
| JNull
| JBool (b : bool)
| JNum (nonzero : bool) (text : str)
| JStr (s : str)
| JArr (items : list Json)
| JObj (fields : list (str * Json)).

(** Any value: [undefined], a JSON value, or some other object, of which
    only the outcome of its conversion to a string matters ([None] when
    the conversion throws). *)
Inductive Value :=
| Undefined
| OfJson (j : Json)
| Host (conv : option str).

(** ToBoolean *)
Definition truthy (j : Json) : bool :=
  match j with
  | JNull => false
  | JBool b => b
  | JNum nz _ => nz
  | JStr s => nonempty s
  | JArr _ | JObj _ => true
  end.

Definition truthy_opt (v : option Json) : bool :=
  match v with None => false | Some j => truthy j end.

Definition truthy_value (v : Value) : bool :=
  match v with
  | Undefined => false
  | OfJson j => truthy j
  | Host _ => true
  end.

Fixpoint lookup (k : str) (fields : list (str * Json)) : option Json :=
  match fields with
  | [] => None
  | (k', v) :: r => if str_eqb k k' then Some v else lookup k r
  end.

(** [String(j)], which is also what a template literal interpolates;
    [None] when it throws a TypeError.  An array joins the texts of
    its items with commas, a [null] item giving nothing.  An object
    is converted by its [toString]: a parsed object that has a key of
    that name holds there a value that cannot be called, and the
    conversion throws; any other parsed object inherits the method
    that gives [[object Object]]. *)
Fixpoint toString (j : Json) : option str :=
  match j with
  | JNull => Some (lit "null")
  | JBool true => Some (lit "true")
  | JBool false => Some (lit "false")
  | JNum _ t => Some t
  | JStr s => Some s
  | JArr items =>
      (fix join (l : list Json) : option str :=
         match l with
         | [] => Some []
         | x :: r =>
             match match x with JNull => Some [] | _ => toString x end with
             | None => None
             | Some first =>
                 match r with
                 | [] => Some first
                 | _ :: _ =>
                     match join r with
                     | None => None
                     | Some rest => Some (first ++ lit "," ++ rest)
                     end
                 end
             end
         end) items
  | JObj fields =>
      match lookup (lit "toString") fields with
      | Some _ => None
      | None => Some (lit "[object Object]")
      end
  end.

(** The message of the TypeError of a conversion that throws. *)
Definition conversion_error_message : str :=
  lit "Cannot convert object to primitive value".

(** [String(v)]; [None] when it throws. *)
Definition String_ (v : Value) : option str :=
  match v with
  | Undefined => Some (lit "undefined")
  | OfJson j => toString j
  | Host conv => conv
  end.

(** [`${v || ''}`] and [String(v || '')] for a field of a request body
    that may be absent; [None] when the conversion throws. *)
Definition or_empty (v : option Json) : option str :=
  match v with
  | Some j => if truthy j then toString j else Some []
  | None => Some []
  end.

(** [j.k] for a parsed value [j]: reading a property of [null] throws
    (outer [None]); an object gives the property or [undefined] (inner
    [None]); a primitive or an array has no property of the names the
    sources read. *)
Definition get (j : Json) (k : str) : option (option Json) :=
  match j with
  | JNull => None
  | JObj fields => Some (lookup k fields)
  | _ => Some None
  end.

End Js.

(* ================================================================== *)
(** ** server/server.js *)

Module Server.
Import Js.
Local Open Scope N_scope.

(** [s.replace(/<[^>]*>/g, ' ')]: scanning left to right, a [<] that
    has a [>] somewhere after it opens a match that runs to the first
    such [>]; the match becomes one space.  A [<] with no [>] after
    it cannot match and is copied. *)
Definition has_gt (s : str) : bool := existsb (N.eqb GT) s.

Fixpoint replace_tags (in_tag : bool) (s : str) : str :=
  match s with
  | [] => []
  | c :: r =>
      if in_tag then
        if c =? GT then SP :: replace_tags false r else replace_tags true r
      else if (c =? LT) && has_gt r then replace_tags true r
      else c :: replace_tags false r
  end.

(** [s.replace(/\s+/g, ' ')]: every maximal run of white space becomes
    one space.  [after_space] tells that the previous character
    belonged to the run being replaced. *)
Fixpoint collapse_spaces (after_space : bool) (s : str) : str :=
  match s with
  | [] => []
  | c :: r =>
      if is_space c then
        if after_space then collapse_spaces true r
        else SP :: collapse_spaces true r
      else c :: collapse_spaces false r
  end.

(** [sanitizeErrorText(text)]; the [catch] arm is reached when
    [String(text)] throws. *)
Definition sanitizeErrorText (text : Value) : str :=
  if negb (truthy_value text) then lit "Connection error occurred"
  else
    match String_ text with
    | None => lit "Unable to process request"
    | Some t =>
        let cleanText := replace_tags false t in
        slice_to 200 (trim (collapse_spaces false cleanText))
    end.

(** The four templates of [buildActionPrompt], up to the selection. *)
Definition shorten_template : str :=
  lit "Rewrite the following text to be shorter while preserving meaning. Return only the revised text."
  ++ [LF; LF].
Definition lengthen_template : str :=
  lit "Expand the following text with clear detail and smooth flow. Return only the revised text."
  ++ [LF; LF].
Definition table_template : str :=
  lit "Convert the following into a simple Markdown table with headers when obvious. Return only the table."
  ++ [LF; LF].
Definition proofread_template : str :=
  lit "Improve clarity and grammar. Return only the revised text." ++ [LF; LF].

Definition buildActionPrompt (selection action : str) : str :=
  if str_eqb action (lit "shorten") then shorten_template ++ selection
  else if str_eqb action (lit "lengthen") then lengthen_template ++ selection
  else if str_eqb action (lit "table") then table_template ++ selection
  else proofread_template ++ selection.

(** *** POST /api/ai *)

(** [req.body] after [express.json()]; an absent field is [None]
    ([req.body || {}] makes every field absent when there is no body). *)
Record Body := {
  message : option Json;
  doc : option Json;
  selection : option Json;
  action : option Json;
  model : option Json
}.

(** The JSON body of the request sent to [OLLAMA_URL/api/generate]. *)
Record UpstreamRequest := {
  up_model : str;
  up_prompt : str;
  up_stream : bool
}.

(** The backend's answer.  [text] is what [ollamaResponse.text()]
    resolves to ([None] when it rejects); [body] is [None] for a
    response without a body, otherwise the decoded pieces that
    successive [reader.read()] calls return, and the message of the
    error thrown by a read that fails after them, if one does. *)
Record Response := {
  status : N;
  statusText : str;
  text : option str;
  body : option (list str * option str)
}.

Definition ok (r : Response) : bool :=
  (200 <=? status r) && (status r <=? 299).

(** [await fetch(upstreamUrl, ...)]: rejected with an error of the given
    message, or resolved. *)
Inductive FetchResult :=
| Rejected (error_message : str)
| Resolved (r : Response).

(** What the handler did: the payloads of its [res.write] calls, in
    order, whether it called [res.end()], and the requests it sent to
    the backend. *)
Record Outcome := {
  events : list str;
  ended : bool;
  upstream : list UpstreamRequest
}.

Definition chunk_event (t : str) : str := lit "data: " ++ t ++ [LF; LF].
Definition error_event (m : str) : str :=
  lit "data: [Error] " ++ m ++ [LF; LF].

(** The [catch (error)] arm: the message that follows [[Error]]. *)
Definition catch_message (error_message : str) : str :=
  if nonempty error_message
  then sanitizeErrorText (OfJson (JStr error_message))
  else lit "AI service unavailable".

Section Handler.

(** [JSON.parse]: [None] when it throws. *)
Variable JSON_parse : str -> option Json.
(** [process.env.OLLAMA_MODEL || 'llama3.2'] *)
Variable OLLAMA_MODEL : str.
(** The inference backend behind [fetch]. *)
Variable backend : UpstreamRequest -> FetchResult.

(** The prompt; [None] when a conversion of a field throws, which
    sends the handler to its [catch]. *)
Definition build_prompt (b : Body) : option str :=
  if truthy_opt (selection b) then
    match or_empty (selection b) with
    | None => None
    | Some selection_text =>
        match or_empty (action b) with
        | None => None
        | Some action_text =>
            Some (buildActionPrompt selection_text action_text)
        end
    end
  else
    match or_empty (message b) with
    | None => None
    | Some message_text =>
        match or_empty (doc b) with
        | None => None
        | Some doc_text =>
            Some (lit "User: " ++ message_text ++ [LF]
                  ++ lit "Document context: " ++ doc_text ++ [LF; LF]
                  ++ lit "Please provide a helpful response.")
        end
    end.

Definition modelToUse (b : Body) : str :=
  match model b with
  | Some (JStr m) => if nonempty m then m else OLLAMA_MODEL
  | _ => OLLAMA_MODEL
  end.

(** The request the handler sends, when it gets as far as sending
    one. *)
Definition upstream_request (b : Body) : option UpstreamRequest :=
  match build_prompt b with
  | None => None
  | Some prompt =>
      Some {| up_model := modelToUse b; up_prompt := prompt;
              up_stream := true |}
  end.

(** The body of [for (const line of lines)]: what one line makes the
    handler write.  A [JSON.parse] that throws, a read of [.response]
    that throws and an interpolation of the response that throws all
    end in the empty [catch]. *)
Definition line_events (line : str) : list str :=
  if nonempty (trim line) then
    match JSON_parse line with
    | None => []
    | Some chunk =>
        match get chunk (lit "response") with
        | None => []
        | Some None => []
        | Some (Some response) =>
            if truthy response then
              match toString response with
              | Some response_text => [chunk_event response_text]
              | None => []
              end
            else []
        end
    end
  else [].

(** One turn of [while (!done)] with a [value]. *)
Definition read_events (value : str) : list str :=
  flat_map line_events (split LF value).

(** The message of the error thrown for a response that is not [ok]. *)
Definition upstream_error_message (r : Response) : str :=
  let errorText := match text r with Some t => t | None => [] end in
  let cleanError := sanitizeErrorText (OfJson (JStr errorText)) in
  lit "Upstream " ++ dec (status r) ++ [SP] ++ statusText r ++ lit ": "
  ++ cleanError.

(** The message of the TypeError that [ollamaResponse.body.getReader()]
    throws in Node when the response has no body. *)
Definition null_body_message : str :=
  lit "Cannot read properties of null (reading 'getReader')".

(** The handler of [app.post('/api/ai', ...)]. *)
Definition post_api_ai (b : Body) : Outcome :=
  let failed (sent : list UpstreamRequest) (written : list str)
             (error_message : str) :=
    {| events := written ++ [error_event (catch_message error_message)];
       ended := true; upstream := sent |} in
  match upstream_request b with
  | None => failed [] [] conversion_error_message
  | Some request =>
      match backend request with
      | Rejected e => failed [request] [] e
      | Resolved r =>
          if negb (ok r) then failed [request] [] (upstream_error_message r)
          else
            match body r with
            | None => failed [request] [] null_body_message
            | Some (values, None) =>
                {| events := flat_map read_events values;
                   ended := true; upstream := [request] |}
            | Some (values, Some e) =>
                failed [request] (flat_map read_events values) e
            end
      end
  end.

End Handler.

End Server.

(* ================================================================== *)
(** ** client/utils/aiPrompts.ts *)

Module AiPrompts.
Import Js.

(** The client-side [buildActionPrompt]: the same four templates, with
    ['grammar'] falling to [default], over the trimmed selection. *)
Definition buildActionPrompt (selection action : str) : str :=
  let cleanSelection := trim selection in
  if str_eqb action (lit "shorten")
  then Server.shorten_template ++ cleanSelection
  else if str_eqb action (lit "lengthen")
  then Server.lengthen_template ++ cleanSelection
  else if str_eqb action (lit "table")
  then Server.table_template ++ cleanSelection
  else Server.proofread_template ++ cleanSelection.

Local Open Scope N_scope.

(** [!documentContext || documentContext.trim().length === 0] *)
Definition no_context (documentContext : option str) : bool :=
  match documentContext with
  | None => true
  | Some ctx => negb (nonempty ctx) || negb (nonempty (trim ctx))
  end.

Definition buildChatPrompt (message : str) (documentContext : option str)
  : str :=
  if no_context documentContext then
    lit "User: " ++ message ++ [LF; LF]
    ++ lit "Please provide a helpful response."
  else
    lit "User: " ++ message ++ [LF; LF] ++ lit "Document context:" ++ [LF]
    ++ match documentContext with Some ctx => ctx | None => [] end
    ++ [LF; LF]
    ++ lit "Please provide a helpful response that takes the document context into account.".

Definition buildSelectionPrompt (selection action : str)
    (documentContext : option str) : str :=
  let actionPrompt := buildActionPrompt selection action in
  if no_context documentContext then actionPrompt
  else
    actionPrompt ++ [LF; LF] ++ lit "Document context for reference:" ++ [LF]
    ++ match documentContext with Some ctx => ctx | None => [] end.

(** The class [[\x00-\x08\x0B\x0C\x0E-\x1F\x7F]]. *)
Definition is_control (c : char) : bool :=
  (c <=? 8) || (c =? 11) || (c =? 12) || ((14 <=? c) && (c <=? 31))
  || (c =? 127).

Definition sanitizePromptInput (input : str) : str :=
  slice_to (N.to_nat 10000)
    (filter (fun c => negb (is_control c)) (trim input)).

(** [availableModels[0] || 'llama3.2'] *)
Definition first_or_default (availableModels : list str) : str :=
  match availableModels with
  | m :: _ => if nonempty m then m else lit "llama3.2"
  | [] => lit "llama3.2"
  end.

(** [availableModels.includes(model)] *)
Definition includes (availableModels : list str) (model : str) : bool :=
  existsb (str_eqb model) availableModels.

Definition validateModel (model : str) (availableModels : list str) : str :=
  if negb (nonempty model) then first_or_default availableModels
  else if includes availableModels model then model
  else first_or_default availableModels.

(** The interface [AIRequest]; an absent field is [None]. *)
Record AIRequest := {
  message : option str;
  selection : option str;
  action : option str;
  doc : option str;
  model : str
}.

(** What [prepareAIRequest] returns. *)
Record Prepared := {
  prepared_model : str;
  prompt : str;
  stream : bool
}.

(** Truthiness of an optional string. *)
Definition given (v : option str) : bool :=
  match v with Some s => nonempty s | None => false end.

Definition or_nil (v : option str) : str :=
  match v with Some s => s | None => [] end.

(** [prepareAIRequest(params)]: the prepared request, or the message
    of the error it throws. *)
Definition prepareAIRequest (params : AIRequest) : Prepared + str :=
  let prompt :=
    if given (selection params) && given (action params) then
      Some (buildSelectionPrompt
              (sanitizePromptInput (or_nil (selection params)))
              (or_nil (action params)) (doc params))
    else if given (message params) then
      Some (buildChatPrompt
              (sanitizePromptInput (or_nil (message params))) (doc params))
    else None in
  match prompt with
  | Some p =>
      inl {| prepared_model :=
               if nonempty (model params) then model params
               else lit "llama3.2";
             prompt := p; stream := true |}
  | None =>
      inr (lit "Either message or selection with action must be provided")
  end.

End AiPrompts.

(* ================================================================== *)
(** ** src/clientCalls.tsx *)

Module ClientCalls.
Import Js.
Local Open Scope N_scope.

(** The second argument of [fetch]: [fetchAI] passes [method],
    [headers] and [body]; [signal] is the optional abort signal of the
    platform's [RequestInit], named by the controller that owns it. *)
Record RequestInit := {
  init_body : Server.Body;
  init_signal : option nat
}.

(** [fetchAI({ message, doc, selection, action, model, onStream })]:
    the arguments that reach the request. *)
Record Args := {
  message : option str;
  doc : option str;
  selection : option str;
  action : option str;
  model : str
}.

(** The [fetch('/api/ai', { method, headers, body })] call of
    [fetchAI]; [JSON.stringify] leaves an [undefined] field out. *)
Definition fetchAI_init (a : Args) : RequestInit :=
  {| init_body :=
       {| Server.message := option_map JStr (message a);
          Server.doc := option_map JStr (doc a);
          Server.selection := option_map JStr (selection a);
          Server.action := option_map JStr (action a);
          Server.model := Some (JStr (model a)) |};
     init_signal := None |}.

(** [/^<think>[\s\S]*?<\/think>$/.test(t)]: [t] opens with the one
    delimiter and, past it, ends with the other. *)
Definition is_think_block (t : str) : bool :=
  startsWith (lit "<think>") t && endsWith (lit "</think>") (slice_from 7 t).

Section ReadLoop.

(** The caller's state, which [onStream] updates. *)
Variable St : Type.
Variable onStream : str -> St -> St.

(** [isThinking], [response] and the caller's state while the
    response is read. *)
Record Progress := {
  isThinking : bool;
  response : str;
  caller : St
}.

(** The body of [chunk.split('\n').forEach(line => ...)]. *)
Definition on_line (p : Progress) (line : str) : Progress :=
  if startsWith (lit "data: ") line then
    let text := slice_from 6 line in
    if is_think_block (trim text)
    then {| isThinking := true; response := response p;
            caller := caller p |}
    else {| isThinking := isThinking p;
            response := response p ++ text;
            caller := onStream text (caller p) |}
  else p.

(** One turn of [while (!done)] with a [value]. *)
Definition on_value (p : Progress) (value : str) : Progress :=
  fold_left on_line (split LF value) p.

(** The streaming branch of [fetchAI], over the decoded values the
    reader returns.  (The relay sets [text/event-stream] on every
    response before anything else, so the other branch, which parses
    one JSON body, is not taken against it.) *)
Definition fetchAI_stream (values : list str) (s : St) : Progress :=
  fold_left on_value values
    {| isThinking := false; response := []; caller := s |}.

End ReadLoop.

Arguments isThinking {St} _.
Arguments response {St} _.
Arguments caller {St} _.
Arguments on_line {St} _ _ _.
Arguments on_value {St} _ _ _.
Arguments fetchAI_stream {St} _ _ _.

End ClientCalls.

(* ================================================================== *)
(** ** src/ui/Chat.tsx *)

Module Chat.
Import Js.
Local Open Scope N_scope.

(** *** stripThinkBlocks (the same text stands in
    client/utils/textActions.ts) *)

(** A character of the subject against a character of the pattern
    under the [i] flag: a letter of the pattern also accepts its
    upper-case form, and nothing outside ASCII folds onto ASCII. *)
Definition eq_ci (p c : char) : bool :=
  (c =? p) || ((97 <=? p) && (p <=? 122) && (c =? p - 32)).

Fixpoint starts_ci (p s : str) : bool :=
  match p, s with
  | [], _ => true
  | _ :: _, [] => false
  | a :: p', b :: s' => eq_ci a b && starts_ci p' s'
  end.

Definition OPEN : str := lit "<think>".
Definition CLOSE : str := lit "</think>".

(** Where the closing delimiter first occurs in [s]. *)
Fixpoint find_close (s : str) : option nat :=
  match s with
  | [] => None
  | _ :: r =>
      if starts_ci CLOSE s then Some 0%nat
      else option_map S (find_close r)
  end.

(** The length of the match of [/<think>[\s\S]*?<\/think>/i] that
    starts at the head of [s], if there is one: the lazy star stops at
    the first closing delimiter past the opening one. *)
Definition block_length (s : str) : option nat :=
  if starts_ci OPEN s
  then option_map (fun i => (7 + i + 8)%nat) (find_close (skipn 7 s))
  else None.

(** [text.replace(/<think>[\s\S]*?<\/think>/gi, '')]: [skip] counts the
    characters of the current match still to drop. *)
Fixpoint remove_blocks (skip : nat) (s : str) : str :=
  match s with
  | [] => []
  | c :: r =>
      match skip with
      | S k => remove_blocks k r
      | O =>
          match block_length (c :: r) with
          | Some n => remove_blocks (n - 1) r
          | None => c :: remove_blocks 0 r
          end
      end
  end.

Definition stripThinkBlocks (text : str) : str :=
  trim (remove_blocks 0 text).

(** *** The component's state *)

Inductive Role := user | assistant.
Record Message := { role : Role; content : str }.
Inductive Status := idle | streaming.

Definition is_assistant (m : Message) : bool :=
  match role m with assistant => true | user => false end.
Definition is_streaming (st : Status) : bool :=
  match st with streaming => true | idle => false end.

(** The [useState] cells: [messages], [input], [status]. *)
Record View := {
  messages : list Message;
  input : str;
  status : Status
}.

(** A request issued through [fetch]: its body, the abort signal it was
    given, and whether it has been torn down by that signal. *)
Record Connection := {
  sent : Server.Body;
  signal : option nat;
  torn_down : bool
}.

(** [shown] holds the values the closures of the last render see,
    [queued] the values after the updates queued since; the three refs
    are shared by every closure; [controllers] counts the
    [AbortController]s created, [net] lists the requests issued. *)
Record State := {
  shown : View;
  queued : View;
  statusRef : Status;
  abortRef : option nat;
  bufferRef : str;
  controllers : nat;
  net : list Connection
}.

Definition initial : State :=
  {| shown := {| messages := []; input := []; status := idle |};
     queued := {| messages := []; input := []; status := idle |};
     statusRef := idle; abortRef := None; bufferRef := [];
     controllers := 0; net := [] |}.

(** *** The platform *)

(** [fetch(url, init)] opens a connection that listens to [init.signal]. *)
Definition fetch (init : ClientCalls.RequestInit) : Connection :=
  {| sent := ClientCalls.init_body init;
     signal := ClientCalls.init_signal init;
     torn_down := false |}.

(** [controller.abort()] tears down the connections that were given
    this controller's signal. *)
Definition abort (controller : nat) (cs : list Connection)
  : list Connection :=
  map (fun c =>
         match signal c with
         | Some k =>
             if Nat.eqb k controller
             then {| sent := sent c; signal := signal c; torn_down := true |}
             else c
         | None => c
         end) cs.

(** *** State updates *)

Definition setMessages (f : list Message -> list Message) (s : State) :=
  {| shown := shown s;
     queued := {| messages := f (messages (queued s));
                  input := input (queued s);
                  status := status (queued s) |};
     statusRef := statusRef s; abortRef := abortRef s;
     bufferRef := bufferRef s; controllers := controllers s;
     net := net s |}.

Definition setInput (v : str) (s : State) :=
  {| shown := shown s;
     queued := {| messages := messages (queued s); input := v;
                  status := status (queued s) |};
     statusRef := statusRef s; abortRef := abortRef s;
     bufferRef := bufferRef s; controllers := controllers s;
     net := net s |}.

Definition setStatus (v : Status) (s : State) :=
  {| shown := shown s;
     queued := {| messages := messages (queued s);
                  input := input (queued s); status := v |};
     statusRef := statusRef s; abortRef := abortRef s;
     bufferRef := bufferRef s; controllers := controllers s;
     net := net s |}.

Definition set_abortRef (v : option nat) (s : State) :=
  {| shown := shown s; queued := queued s; statusRef := statusRef s;
     abortRef := v; bufferRef := bufferRef s;
     controllers := controllers s; net := net s |}.

Definition set_bufferRef (v : str) (s : State) :=
  {| shown := shown s; queued := queued s; statusRef := statusRef s;
     abortRef := abortRef s; bufferRef := v;
     controllers := controllers s; net := net s |}.

(** A render commits the queued values; then the effect
    [useEffect(() => { statusRef.current = status }, [status])] runs if
    [status] changed. *)
Definition render (s : State) : State :=
  {| shown := queued s; queued := queued s;
     statusRef :=
       match status (shown s), status (queued s) with
       | idle, idle | streaming, streaming => statusRef s
       | _, st => st
       end;
     abortRef := abortRef s; bufferRef := bufferRef s;
     controllers := controllers s; net := net s |}.

(** The loop of [updateLastAssistant], from the last message down. *)
Fixpoint set_first_assistant (newContent : str) (ms : list Message)
  : list Message :=
  match ms with
  | [] => []
  | m :: r =>
      if is_assistant m
      then {| role := role m; content := newContent |} :: r
      else m :: set_first_assistant newContent r
  end.

Definition updateLastAssistant (newContent : str) (s : State) : State :=
  setMessages (fun prev => rev (set_first_assistant newContent (rev prev))) s.

(** *** The handlers *)

Definition abortIfStreaming (s : State) : State :=
  if is_streaming (statusRef s) then
    let s1 :=
      match abortRef s with
      | Some ac =>
          {| shown := shown s; queued := queued s;
             statusRef := statusRef s; abortRef := abortRef s;
             bufferRef := bufferRef s; controllers := controllers s;
             net := abort ac (net s) |}
      | None => s
      end in
    setStatus idle (set_abortRef None s1)
  else s.

Definition thinking : str := lit "__thinking__".

Section Props.

(** [getDoc()] and the [model] prop. *)
Variable getDoc : str.
Variable model : str.

(** [send()] up to its [await]: the guard, the resets, the new
    controller and the call of [fetchAI], which issues the request. *)
Definition send (s : State) : State :=
  let content := trim (input (shown s)) in
  if negb (nonempty content) || is_streaming (status (shown s)) then s
  else
    let s1 := setInput [] s in
    let s2 := set_bufferRef [] s1 in
    let s3 :=
      setMessages
        (fun m => m ++ [ {| role := user; content := content |};
                         {| role := assistant; content := thinking |} ])
        s2 in
    let ac := controllers s3 in
    let s4 :=
      {| shown := shown s3; queued := queued s3;
         statusRef := statusRef s3; abortRef := Some ac;
         bufferRef := bufferRef s3; controllers := S ac;
         net := net s3 |} in
    let s5 := setStatus streaming s4 in
    {| shown := shown s5; queued := queued s5;
       statusRef := statusRef s5; abortRef := abortRef s5;
       bufferRef := bufferRef s5; controllers := controllers s5;
       net := net s5
              ++ [ fetch (ClientCalls.fetchAI_init
                            {| ClientCalls.message := Some content;
                               ClientCalls.doc := Some getDoc;
                               ClientCalls.selection := None;
                               ClientCalls.action := None;
                               ClientCalls.model := model |}) ] |}.

End Props.

(** The [onStream] callback [send] hands to [fetchAI]. *)
Definition onStream (chunk : str) (s : State) : State :=
  if negb (is_streaming (statusRef s)) then s
  else
    let s1 := set_bufferRef (bufferRef s ++ chunk) s in
    updateLastAssistant (stripThinkBlocks (bufferRef s1)) s1.

(** A value read from the response of a request of [send]. *)
Definition deliver (value : str) (s : State) : State :=
  ClientCalls.caller
    (ClientCalls.on_value onStream
       {| ClientCalls.isThinking := false; ClientCalls.response := [];
          ClientCalls.caller := s |} value).

(** The [finally] arm. *)
Definition finally_ (s : State) : State :=
  setStatus idle (set_abortRef None s).

(** [send()] past its [await] when [fetchAI] resolved. *)
Definition completed (s : State) : State :=
  finally_ (if nonempty (bufferRef s) then s
            else updateLastAssistant (lit "[No response]") s).

(** [send()] past its [await] when [fetchAI] threw [e]; [message] is
    [e?.message], empty when there is none. *)
Definition failed (message : str) (s : State) : State :=
  finally_
    (if is_streaming (statusRef s)
     then updateLastAssistant
            (lit "Error: "
             ++ (if nonempty message then message
                 else lit "request failed")) s
     else s).

End Chat.

(* ================================================================== *)
(** ** client/utils/textActions.ts *)

Module TextActions.
Import Js.
Local Open Scope N_scope.

(** [stripThinkBlocks]: the text of this function is that of its
    namesake in Chat.tsx. *)
Definition stripThinkBlocks (text : str) : str := Chat.stripThinkBlocks text.

(** Past a [<]: the pattern [[^>]+>] can match, that is, a character
    other than [>] follows and a [>] stands somewhere after it. *)
Definition starts_tag (r : str) : bool :=
  match r with
  | [] => false
  | d :: r' => negb (d =? GT) && Server.has_gt r'
  end.

(** [text.replace(/<[^>]+>/g, '')]: a match runs from its [<] to the
    first [>] after it. *)
Fixpoint remove_tags (in_tag : bool) (s : str) : str :=
  match s with
  | [] => []
  | c :: r =>
      if in_tag then
        if c =? GT then remove_tags false r else remove_tags true r
      else if (c =? LT) && starts_tag r then remove_tags true r
      else c :: remove_tags false r
  end.

Definition stripHtmlTags (text : str) : str := trim (remove_tags false text).

Definition formatStreamingText (text : str) : str := stripThinkBlocks text.

Definition sanitizeText (text : str) : str :=
  trim (stripHtmlTags (stripThinkBlocks text)).

Definition STAR : char := 42.

(** [text.replace(/\*\*/g, '')] *)
Fixpoint remove_bold (s : str) : str :=
  match s with
  | [] => []
  | c :: r =>
      match r with
      | d :: r' =>
          if (c =? STAR) && (d =? STAR) then remove_bold r'
          else c :: remove_bold r
      | [] => [c]
      end
  end.

Definition removeMarkdownFormatting (text : str) : str :=
  trim (remove_bold text).

(** [lines.join(sep)] *)
Fixpoint join (sep : str) (ls : list str) : str :=
  match ls with
  | [] => []
  | x :: r =>
      match r with
      | [] => x
      | _ :: _ => x ++ sep ++ join sep r
      end
  end.

Definition BAR : char := 124.

(** The white space at the head of [s] is followed by a bar. *)
Definition bar_ahead (s : str) : bool :=
  match trimStart s with
  | c :: _ => c =? BAR
  | [] => false
  end.

(** Where the scan of [/\s*\|\s*/g] stands: between matches, in the
    white space a match begins with, or in the white space it ends
    with. *)
Inductive BarScan := between | before_bar | after_bar.

(** [line.replace(/\s*\|\s*/g, ' | ')]: each bar, with the white space
    around it that no earlier match has taken, becomes [ | ]. *)
Fixpoint replace_bars (m : BarScan) (s : str) : str :=
  match s with
  | [] => []
  | c :: r =>
      let scan :=
        if bar_ahead (c :: r) then
          if c =? BAR then SP :: BAR :: SP :: replace_bars after_bar r
          else replace_bars before_bar r
        else c :: replace_bars between r in
      match m with
      | before_bar =>
          if c =? BAR then SP :: BAR :: SP :: replace_bars after_bar r
          else replace_bars before_bar r
      | after_bar => if is_space c then replace_bars after_bar r else scan
      | between => scan
      end
  end.

Definition formatTableText (text : str) : str :=
  join [LF]
    (filter (fun line => nonempty line)
       (map (fun line => trim (replace_bars between line))
          (split LF text))).

(** [text.replace(/\n+/g, ' ')] *)
Fixpoint replace_line_feeds (after_lf : bool) (s : str) : str :=
  match s with
  | [] => []
  | c :: r =>
      if c =? LF then
        if after_lf then replace_line_feeds true r
        else SP :: replace_line_feeds true r
      else c :: replace_line_feeds false r
  end.

Definition formatInlineText (text : str) : str :=
  trim (Server.collapse_spaces false (replace_line_feeds false text)).

Definition FENCE : str := lit "```".

(** Where the fence first occurs in [s]. *)
Fixpoint find_fence (s : str) : option nat :=
  match s with
  | [] => None
  | _ :: r =>
      if startsWith FENCE s then Some 0%nat
      else option_map S (find_fence r)
  end.

(** The replacement of a code block: its trimmed code, each line
    indented by four spaces, between two line feeds. *)
Definition indented (code : str) : str :=
  [LF] ++ join [LF] (map (fun line => lit "    " ++ line) (split LF (trim code)))
  ++ [LF].

(** [text.replace(/```([\s\S]*?)```/g, ...)]: [skip] counts the
    characters of the current match still to drop. *)
Fixpoint formatCodeBlocks_from (skip : nat) (s : str) : str :=
  match s with
  | [] => []
  | c :: r =>
      match skip with
      | S k => formatCodeBlocks_from k r
      | O =>
          if startsWith FENCE (c :: r) then
            match find_fence (skipn 3 (c :: r)) with
            | Some i =>
                indented (firstn i (skipn 3 (c :: r)))
                ++ formatCodeBlocks_from (3 + i + 3 - 1) r
            | None => c :: formatCodeBlocks_from 0 r
            end
          else c :: formatCodeBlocks_from 0 r
      end
  end.

Definition formatCodeBlocks (text : str) : str := formatCodeBlocks_from 0 text.

Definition removeDuplicateLines (newText existingText : str) : str :=
  let newLines :=
    filter (fun l => nonempty l) (map trim (split LF newText)) in
  let existingLines := map trim (split LF existingText) in
  let uniqueLines :=
    filter (fun line => negb (existsb (str_eqb line) existingLines))
      newLines in
  join [LF] uniqueLines.

Definition formatAISuggestion (text action : str) : str :=
  let formatted := removeMarkdownFormatting text in
  let formatted :=
    if str_eqb action (lit "table") then formatTableText formatted
    else formatted in
  let formatted :=
    if str_eqb action (lit "shorten") || str_eqb action (lit "lengthen")
    then formatInlineText formatted
    else formatted in
  formatCodeBlocks formatted.

End TextActions.

(* ================================================================== *)
(** ** client/utils/aiGeneration.ts *)

Module AiGeneration.
Import Js.
Local Open Scope N_scope.

(** The parameter of [validateGenerationParams]; an absent field is
    [None]. *)
Record Params := {
  text : option str;
  selection : option str;
  action : option str;
  model : option str
}.

Record Validation := {
  isValid : bool;
  error : option str
}.

Definition valid : Validation := {| isValid := true; error := None |}.
Definition invalid (why : String.string) : Validation :=
  {| isValid := false; error := Some (lit why) |}.

(** [s.trim().length === 0] *)
Definition blank (s : str) : bool := negb (nonempty (trim s)).

(** [validateGenerationParams(params)]; its [typeof] tests are false
    for the strings its parameter type admits. *)
Definition validateGenerationParams (params : Params) : Validation :=
  if negb (AiPrompts.given (model params))
     || blank (AiPrompts.or_nil (model params))
  then invalid "Valid model is required"
  else if AiPrompts.given (selection params) && AiPrompts.given (action params)
  then
    if blank (AiPrompts.or_nil (selection params))
    then invalid "Valid selection is required for text editing"
    else if blank (AiPrompts.or_nil (action params))
    then invalid "Valid action is required for text editing"
    else valid
  else if AiPrompts.given (text params) then
    if blank (AiPrompts.or_nil (text params))
    then invalid "Valid message is required for chat"
    else valid
  else invalid "Either message or selection with action is required".

(** [s.includes(sub)] *)
Fixpoint contains (sub s : str) : bool :=
  match s with
  | [] => startsWith sub []
  | _ :: r => startsWith sub s || contains sub r
  end.

(** [s.replace(/<[^>]*>/g, '')] *)
Fixpoint delete_tags (in_tag : bool) (s : str) : str :=
  match s with
  | [] => []
  | c :: r =>
      if in_tag then
        if c =? GT then delete_tags false r else delete_tags true r
      else if (c =? LT) && Server.has_gt r then delete_tags true r
      else c :: delete_tags false r
  end.

(** [handleAIError(error)], on the message of the error. *)
Definition handleAIError (message : str) : str :=
  if contains (lit "fetch failed") message then
    lit "Unable to connect to AI service. Please check your connection."
  else if contains (lit "aborted") message then
    lit "Request was cancelled."
  else if contains (lit "timeout") message then
    lit "Request timed out. Please try again."
  else if contains (lit "403") message || contains (lit "Forbidden") message
  then lit "Access denied. Please check your API configuration."
  else if contains (lit "500") message
          || contains (lit "Internal Server Error") message
  then lit "AI service is temporarily unavailable. Please try again later."
  else
    let sanitized := trim (delete_tags false message) in
    if nonempty sanitized then sanitized
    else lit "An unexpected error occurred.".

End AiGeneration.

(* ================================================================== *)
(** ** src/ui/Editor.tsx *)

Module Editor.
Import Js.
Local Open Scope N_scope.

(** The arguments [callAI] gives to [fetchAI]. *)
Definition callAI_args (selection action model : str) : ClientCalls.Args :=
  {| ClientCalls.message := None; ClientCalls.doc := None;
     ClientCalls.selection := Some selection;
     ClientCalls.action := Some action; ClientCalls.model := model |}.

(** The [onStream] of [callAI]: [fullText += chunk]. *)
Definition append_chunk (chunk fullText : str) : str := fullText ++ chunk.

(** [callAI({ selection, action, model })] past its request: the
    response is read into [fullText], which is then cleaned. *)
Definition callAI (action : str) (values : list str) : str :=
  let fullText :=
    ClientCalls.caller (ClientCalls.fetchAI_stream append_chunk values []) in
  let text := trim (TextActions.remove_bold fullText) in
  let text :=
    if str_eqb action (lit "table") then
      TextActions.join [LF]
        (filter (fun line => nonempty line)
           (map (fun line => trim (TextActions.replace_bars
                                     TextActions.between line))
              (split LF text)))
    else text in
  let text :=
    if str_eqb action (lit "shorten") || str_eqb action (lit "lengthen")
    then trim (Server.collapse_spaces false
                 (TextActions.replace_line_feeds false text))
    else text in
  TextActions.formatCodeBlocks_from 0 text.

End Editor.

(* ================================================================== *)
(** ** A parser to run examples with *)

Module Sample.
Import Js.
Local Open Scope N_scope.

(** [JSON.parse] is the platform's and enters the relay as a
    parameter.  To evaluate the relay on concrete lines, this parser
    reads the flat fragment of JSON those lines use: a string without
    escapes, [true], [false], [null], or an object of such values.  On
    a text of the fragment it returns the value [JSON.parse] returns
    (for a repeated key the last one is found first); any other text
    is refused. *)
Definition json_space (c : char) : bool :=
  (c =? 32) || (c =? 9) || (c =? 10) || (c =? 13).

Fixpoint skip_spaces (s : str) : str :=
  match s with
  | [] => []
  | c :: r => if json_space c then skip_spaces r else s
  end.

(** Past an opening quote: the characters up to the closing quote and
    the text after it. *)
Fixpoint string_tail (s : str) : option (str * str) :=
  match s with
  | [] => None
  | c :: r =>
      if c =? QUOTE then Some ([], r)
      else if (c =? 92) || (c <? 32) then None
      else match string_tail r with
           | Some (t, r') => Some (c :: t, r')
           | None => None
           end
  end.

Definition scalar (s : str) : option (Json * str) :=
  match s with
  | [] => None
  | c :: r =>
      if c =? QUOTE then
        match string_tail r with
        | Some (t, r') => Some (JStr t, r')
        | None => None
        end
      else if startsWith (lit "true") s then Some (JBool true, skipn 4 s)
      else if startsWith (lit "false") s then Some (JBool false, skipn 5 s)
      else if startsWith (lit "null") s then Some (JNull, skipn 4 s)
      else None
  end.

(** The members of an object, past its opening brace. *)
Fixpoint members (fuel : nat) (s : str) (acc : list (str * Json))
  : option (list (str * Json) * str) :=
  match fuel with
  | O => None
  | S fuel' =>
      match skip_spaces s with
      | c :: r =>
          if c =? QUOTE then
            match string_tail r with
            | Some (k, r1) =>
                match skip_spaces r1 with
                | c1 :: r2 =>
                    if c1 =? 58 then
                      match scalar (skip_spaces r2) with
                      | Some (v, r3) =>
                          match skip_spaces r3 with
                          | c3 :: r4 =>
                              if c3 =? 44
                              then members fuel' r4 ((k, v) :: acc)
                              else if c3 =? 125
                              then Some ((k, v) :: acc, r4)
                              else None
                          | [] => None
                          end
                      | None => None
                      end
                    else None
                | [] => None
                end
            | None => None
            end
          else None
      | [] => None
      end
  end.

Definition whole (r : option (Json * str)) : option Json :=
  match r with
  | Some (j, rest) => if nonempty (skip_spaces rest) then None else Some j
  | None => None
  end.

Definition JSON_parse_flat (s : str) : option Json :=
  match skip_spaces s with
  | [] => None
  | c :: r =>
      if c =? 123 then
        match skip_spaces r with
        | [] => None
        | c' :: r' =>
            if c' =? 125 then whole (Some (JObj [], r'))
            else whole (match members (List.length r) r [] with
                        | Some (fs, rest) => Some (JObj fs, rest)
                        | None => None
                        end)
        end
      else whole (scalar (c :: r))
  end.

(** The text [{"response":"t","done":false}] of a backend record. *)
Definition record (t : str) : str :=
  lit "{" ++ [QUOTE] ++ lit "response" ++ [QUOTE] ++ lit ":"
  ++ [QUOTE] ++ t ++ [QUOTE] ++ lit "," ++ [QUOTE] ++ lit "done"
  ++ [QUOTE] ++ lit ":false}".

End Sample.

(* ================================================================== *)
(** ** Vocabulary of the statements *)

Module Spec.
Import Js.
Local Open Scope N_scope.

(** No tag is left in [s]: no [<] has a [>] anywhere after it. *)
Fixpoint no_tag (s : str) : bool :=
  match s with
  | [] => true
  | c :: r => negb ((c =? LT) && Server.has_gt r) && no_tag r
  end.

(** [c] occurs in [s]. *)
Definition occurs (c : char) (s : str) : bool := existsb (N.eqb c) s.

(** [t] ends [s]. *)
Definition suffix (t s : str) : Prop := exists p, s = p ++ t.

(** A request body with no field at all. *)
Definition empty_body : Server.Body :=
  {| Server.message := None; Server.doc := None; Server.selection := None;
     Server.action := None; Server.model := None |}.

(** A backend that answers every request with the same response. *)
Definition answering (r : Server.Response) : Server.UpstreamRequest -> Server.FetchResult :=
  fun _ => Server.Resolved r.

(** A successful response whose body arrives in the given pieces. *)
Definition streaming_200 (values : list str) : Server.Response :=
  {| Server.status := 200; Server.statusText := lit "OK";
     Server.text := None; Server.body := Some (values, None) |}.

(** A failed response with the given body text. *)
Definition failing_500 (error_body : str) : Server.Response :=
  {| Server.status := 500; Server.statusText := lit "Internal Server Error";
     Server.text := Some error_body; Server.body := None |}.

End Spec.

(** The inputs of the examples below. *)
Module Inputs.
Import Js Spec.
Local Open Scope N_scope.

Definition llama : str := lit "llama3.2".

(** [{ message: "hello", doc: "" }] *)
Definition hello_body : Server.Body :=
  {| Server.message := Some (JStr (lit "hello"));
     Server.doc := Some (JStr []); Server.selection := None;
     Server.action := None; Server.model := None |}.

(** [{ selection: " hi ", action: "shorten" }] *)
Definition padded_selection_body : Server.Body :=
  {| Server.message := None; Server.doc := None;
     Server.selection := Some (JStr (lit " hi "));
     Server.action := Some (JStr (lit "shorten"));
     Server.model := None |}.

(** An error page that carries a tag pair, a lone [>] and the control
    character BEL. *)
Definition error_page : str :=
  lit "<html>load > 90%" ++ [7] ++ lit "</html>".

(** Two records with a truncated line between them, in one piece, then
    a third record in a second piece. *)
Definition backend_pieces : list str :=
  [ Sample.record (lit "Hi") ++ [LF] ++ lit "{" ++ [QUOTE] ++ lit "respo"
      ++ [LF] ++ Sample.record (lit " there") ++ [LF];
    Sample.record (lit "!") ++ [LF] ].

End Inputs.

(** Runs of the chat component used in the examples below. *)
Module Runs.
Import Js Chat.
Local Open Scope N_scope.

Definition the_doc : str := lit "Draft.".
Definition the_model : str := lit "llama3.2".

(** The user types [t] and the component renders. *)
Definition typed (t : str) (s : State) : State := render (setInput t s).

(** The user types [hello], sends it, and the component renders: a
    generation is streaming. *)
Definition streaming_session : State :=
  render (send the_doc the_model (typed (lit "hello") initial)).

(** Then the user presses Pause and the component renders. *)
Definition cancelled_session : State :=
  render (abortIfStreaming streaming_session).

(** Then the user types [again], sends it, and the component renders:
    a second generation is streaming while the request of the first is
    still being read. *)
Definition second_session : State :=
  render (send the_doc the_model (typed (lit "again") cancelled_session)).

(** The event [data: t] of the relay, as one value read by [fetchAI]. *)
Definition event (t : str) : str := Server.chunk_event t.

(** The values in which the events of the chunks arrive: each value
    holds the events of one group of chunks. *)
Definition values_of (groups : list (list str)) : list str :=
  map (fun g => List.concat (map event g)) groups.

(** A whole generation: the request is sent from [s], the component
    renders, the values arrive one after the other, the stream ends. *)
Definition generation (getDoc model : str) (values : list str) (s : State)
  : State :=
  completed
    (fold_left (fun st v => deliver v st) values
       (render (send getDoc model s))).

(** A chunk that [fetchAI] hands on to [onStream]: one that is not by
    itself, once trimmed, a whole think block. *)
Definition handed_on (chunk : str) : bool :=
  negb (ClientCalls.is_think_block (trim chunk)).

End Runs.

(** What can happen to the chat component, and the states it can be in. *)
Module Session.
Import Js Chat.

Inductive step : State -> State -> Prop :=
| step_type (t : str) (s : State) : step s (setInput t s)
| step_send (getDoc model : str) (s : State) : step s (send getDoc model s)
| step_pause (s : State) : step s (abortIfStreaming s)
| step_render (s : State) : step s (render s)
| step_deliver (value : str) (s : State) : step s (deliver value s)
| step_completed (s : State) : step s (completed s)
| step_failed (message : str) (s : State) : step s (failed message s).

Inductive reachable : State -> Prop :=
| reachable_initial : reachable initial
| reachable_step (s s' : State) : reachable s -> step s s' -> reachable s'.

(** No connection listens to an abort signal, and none is torn down. *)
Definition unabortable (cs : list Connection) : Prop :=
  Forall (fun c => signal c = None /\ torn_down c = false) cs.

End Session.

(** The vocabulary of the statements about the think-block filter. *)
Module Blocks.
Import Js Chat.

(** A complete block starts somewhere in [s]. *)
Fixpoint has_block (s : str) : bool :=
  match s with
  | [] => false
  | c :: r =>
      match block_length (c :: r) with
      | Some _ => true
      | None => has_block r
      end
  end.

(** No character of the pattern [p] accepts [<]. *)
Definition no_lt (p : str) : bool := forallb (fun a => negb (eq_ci a LT)) p.

(** [frag] is an unterminated block: it begins with the opening
    delimiter and holds no closing delimiter. *)
Definition unterminated (frag : str) : Prop :=
  starts_ci OPEN frag = true /\ find_close frag = None.

End Blocks.

(** The vocabulary of the statements about whole runs. *)
Module Shapes.
Import Js Chat.
Local Open Scope N_scope.

(** Every white-space character of [s] is a plain space that follows a
    character that is none; [after_space] tells whether the character
    before [s] was white space. *)
Fixpoint single_spaced (after_space : bool) (s : str) : bool :=
  match s with
  | [] => true
  | c :: r =>
      if is_space c
      then (c =? SP) && negb after_space && single_spaced true r
      else single_spaced false r
  end.

(** The texts of the [data: ] lines of the values read from a response. *)
Definition data_texts (values : list str) : list str :=
  flat_map
    (fun value =>
       flat_map
         (fun line =>
            if startsWith (lit "data: ") line then [slice_from 6 line]
            else [])
         (split LF value))
    values.

(** What a [data: ] line with the text [t] does to the progress of
    [fetchAI], for a caller's state [St] and callback [onStream]. *)
Definition on_text (St : Type) (onStream : str -> St -> St)
    (p : ClientCalls.Progress St) (t : str) : ClientCalls.Progress St :=
  if Runs.handed_on t
  then {| ClientCalls.isThinking := ClientCalls.isThinking p;
          ClientCalls.response := ClientCalls.response p ++ t;
          ClientCalls.caller := onStream t (ClientCalls.caller p) |}
  else {| ClientCalls.isThinking := true;
          ClientCalls.response := ClientCalls.response p;
          ClientCalls.caller := ClientCalls.caller p |}.

(** The text a line of the backend carries for the relay, if any. *)
Definition carried (JSON_parse : str -> option Json) (line : str) : list str :=
  if nonempty (trim line) then
    match JSON_parse line with
    | Some chunk =>
        match get chunk (lit "response") with
        | Some (Some response) =>
            if truthy response then
              match toString response with
              | Some response_text => [response_text]
              | None => []
              end
            else []
        | _ => []
        end
    | None => []
    end
  else [].

(** The transcript is a sequence of exchanges: a user entry, whose
    content is not empty and has no outer white space, then an
    assistant entry. *)
Fixpoint exchanges (ms : list Message) : Prop :=
  match ms with
  | [] => True
  | u :: rest =>
      match rest with
      | [] => False
      | a :: ms' =>
          role u = user /\ content u <> [] /\ trim (content u) = content u
          /\ role a = assistant /\ exchanges ms'
      end
  end.

(** The request body that [send] puts on the wire for the message
    [content], the document [getDoc] and the model [model]. *)
Definition chat_body (content getDoc model : str) : Server.Body :=
  {| Server.message := Some (JStr content);
     Server.doc := Some (JStr getDoc);
     Server.selection := None;
     Server.action := None;
     Server.model := Some (JStr model) |}.

(** The request the relay sends for a body whose fields are strings:
    the prompt [prompt], for the model [model] or, when that is empty,
    for the relay's own. *)
Definition relayed (OLLAMA_MODEL model prompt : str) : Server.UpstreamRequest :=
  {| Server.up_model := if nonempty model then model else OLLAMA_MODEL;
     Server.up_prompt := prompt;
     Server.up_stream := true |}.

(** The chat prompt of the relay around a message and a document. *)
Definition chat_prompt (content getDoc : str) : str :=
  lit "User: " ++ content ++ [LF] ++ lit "Document context: " ++ getDoc
  ++ [LF; LF] ++ lit "Please provide a helpful response.".

(** The two entries [send] appends for the message [content], the
    assistant entry holding [answer]. *)
Definition exchange (content answer : str) : list Message :=
  [ {| role := user; content := content |};
    {| role := assistant; content := answer |} ].

(** An entry and what an update may make of it: the role stays, and a
    user entry stays as it is. *)
Definition kept (a b : Message) : Prop :=
  role a = role b /\ (role a = user -> a = b).

(** The user entries of a transcript. *)
Definition users (ms : list Message) : list Message :=
  filter (fun m => negb (is_assistant m)) ms.

(** What the assistant entry of a finished generation shows for the
    accumulated text [buffer]. *)
Definition final_answer (buffer : str) : str :=
  if nonempty buffer then stripThinkBlocks buffer else lit "[No response]".

End Shapes.

(** The vocabulary of the statements about the text utilities. *)
Module TextShapes.
Import Js TextActions.
Local Open Scope N_scope.

(** No [<] of [s] begins a tag with a name: none is followed by a
    character other than [>] and, further on, by a [>]. *)
Fixpoint tag_free (s : str) : bool :=
  match s with
  | [] => true
  | c :: r => negb ((c =? LT) && starts_tag r) && tag_free r
  end.

(** No two asterisks stand side by side in [s]. *)
Fixpoint no_bold (s : str) : bool :=
  match s with
  | [] => true
  | c :: r =>
      match r with
      | d :: _ => negb ((c =? STAR) && (d =? STAR))
      | [] => true
      end && no_bold r
  end.

(** A line as the line-wise utilities leave it: not empty, without
    outer white space. *)
Definition clean_line (l : str) : Prop := l <> [] /\ trim l = l.

(** The character fences are made of. *)
Definition BACKTICK : char := 96.

End TextShapes.

(* ================================================================== *)
(** * Properties *)

(** ** Strings *)

Module JsFacts.
Import Js.
Local Open Scope N_scope.

Lemma lit_app (a b : String.string) : lit (a ++ b) = lit a ++ lit b.
Proof.
  unfold lit. induction a as [|c a IH]; simpl; [reflexivity|].
  now rewrite IH.
Qed.

Lemma nonempty_false (s : str) : nonempty s = false <-> s = [].
Proof. destruct s; simpl; split; congruence. Qed.

Lemma str_eqb_eq (a b : str) : str_eqb a b = true <-> a = b.
Proof. unfold str_eqb. destruct (list_eq_dec N.eq_dec a b); split; congruence. Qed.

Lemma str_eqb_refl (a : str) : str_eqb a a = true.
Proof. now apply str_eqb_eq. Qed.

(** [trimStart] drops a prefix of white space and nothing else. *)
Lemma trimStart_split (s : str) :
  exists p, s = p ++ trimStart s /\ forallb is_space p = true.
Proof.
  induction s as [|c r [p [E F]]]; simpl.
  - now exists [].
  - destruct (is_space c) eqn:W.
    + exists (c :: p). simpl. rewrite W, F. split; [now f_equal | reflexivity].
    + now exists [].
Qed.

Lemma trimStart_head (s : str) c r :
  trimStart s = c :: r -> is_space c = false.
Proof.
  induction s as [|a s IH]; simpl; [discriminate|].
  destruct (is_space a) eqn:W; [exact IH|].
  intros E. now inversion E; subst.
Qed.

Lemma trimStart_fixed (c : char) (r : str) :
  is_space c = false -> trimStart (c :: r) = c :: r.
Proof. intros W. simpl. now rewrite W. Qed.

Lemma trimStart_idem (s : str) : trimStart (trimStart s) = trimStart s.
Proof.
  destruct (trimStart s) as [|c r] eqn:E; [reflexivity|].
  apply trimStart_fixed. eapply trimStart_head; eassumption.
Qed.

(** [trimEnd] drops a suffix of white space and nothing else. *)
Lemma trimEnd_split (s : str) :
  exists q, s = trimEnd s ++ q /\ forallb is_space q = true.
Proof.
  unfold trimEnd. destruct (trimStart_split (rev s)) as [p [E F]].
  exists (rev p). split.
  - rewrite <- rev_app_distr, <- E. now rewrite rev_involutive.
  - rewrite forallb_forall in *. intros x Hx. apply F. now apply in_rev.
Qed.

Lemma trimEnd_idem (s : str) : trimEnd (trimEnd s) = trimEnd s.
Proof. unfold trimEnd. now rewrite rev_involutive, trimStart_idem. Qed.

(** A string that ends in a character that is no white space is its
    own [trimEnd]. *)
Lemma trimEnd_fixed (s : str) c :
  is_space c = false -> trimEnd (s ++ [c]) = s ++ [c].
Proof.
  intros W. unfold trimEnd. rewrite rev_app_distr. simpl. rewrite W.
  simpl. now rewrite rev_involutive.
Qed.

Lemma trimEnd_nil : trimEnd [] = [].
Proof. reflexivity. Qed.

(** [trimEnd] keeps the head of a string whose head is no white space. *)
Lemma trimEnd_cons (c : char) (r : str) :
  is_space c = false -> exists r', trimEnd (c :: r) = c :: r'.
Proof.
  intros W. destruct (trimEnd_split (c :: r)) as [q [E F]].
  destruct (trimEnd (c :: r)) as [|a r'] eqn:T.
  - simpl in E. subst q. simpl in F. now rewrite W in F.
  - exists r'. simpl in E. now inversion E.
Qed.

Lemma trim_idem (s : str) : trim (trim s) = trim s.
Proof.
  unfold trim.
  destruct (trimStart s) as [|c r] eqn:E; [reflexivity|].
  pose proof (trimStart_head _ _ _ E) as W.
  destruct (trimEnd_cons c r W) as [r' T]. rewrite T.
  rewrite (trimStart_fixed c r' W). rewrite <- T. apply trimEnd_idem.
Qed.

Lemma slice_to_length n (s : str) : (List.length (slice_to n s) <= n)%nat.
Proof. unfold slice_to. rewrite length_firstn. lia. Qed.

End JsFacts.

(** ** server/server.js: the sanitizer *)

Module ServerFacts.
Import Js Server Spec.
Local Open Scope N_scope.
Local Arguments N.eqb : simpl never.
Local Arguments N.leb : simpl never.

Lemma has_gt_app (a b : str) : has_gt (a ++ b) = has_gt a || has_gt b.
Proof. unfold has_gt. apply existsb_app. Qed.

Lemma is_space_not_gt (c : char) : is_space c = true -> (GT =? c) = false.
Proof.
  intros W. destruct (N.eqb_spec GT c) as [E|]; [|reflexivity].
  subst c. discriminate W.
Qed.

Lemma is_space_not_lt (c : char) : is_space c = true -> (c =? LT) = false.
Proof.
  intros W. destruct (N.eqb_spec c LT) as [E|]; [|reflexivity].
  subst c. discriminate W.
Qed.

(** Replacing tags brings no [>] in. *)
Lemma replace_tags_gt (s : str) :
  forall in_tag, has_gt (replace_tags in_tag s) = true -> has_gt s = true.
Proof.
  induction s as [|c r IH]; intros in_tag; simpl; [easy|].
  destruct in_tag.
  - destruct (N.eqb_spec c GT) as [->|N1]; [reflexivity|].
    intros H. rewrite (IH _ H). apply orb_true_r.
  - destruct ((c =? LT) && has_gt r) eqn:M.
    + intros H. rewrite (IH _ H). apply orb_true_r.
    + simpl. destruct (GT =? c); [reflexivity|]. simpl. apply IH.
Qed.

Lemma replace_tags_no_tag (s : str) :
  forall in_tag, no_tag (replace_tags in_tag s) = true.
Proof.
  induction s as [|c r IH]; intros in_tag; simpl; [reflexivity|].
  destruct in_tag.
  - destruct (c =? GT); [|apply IH]. simpl. apply IH.
  - destruct (c =? LT) eqn:L; simpl.
    + destruct (has_gt r) eqn:G; simpl; [apply IH|].
      rewrite L, IH. simpl.
      destruct (has_gt (replace_tags false r)) eqn:G'; [|reflexivity].
      apply replace_tags_gt in G'. congruence.
    + rewrite L. simpl. apply IH.
Qed.

Lemma collapse_spaces_gt (s : str) :
  forall b, has_gt (collapse_spaces b s) = has_gt s.
Proof.
  induction s as [|c r IH]; intros b; simpl; [reflexivity|].
  destruct (is_space c) eqn:W.
  - rewrite (is_space_not_gt _ W). simpl.
    destruct b; simpl; apply IH.
  - simpl. now rewrite IH.
Qed.

Lemma collapse_spaces_no_tag (s : str) :
  forall b, no_tag s = true -> no_tag (collapse_spaces b s) = true.
Proof.
  induction s as [|c r IH]; intros b; simpl; [reflexivity|].
  intros H. apply andb_true_iff in H as [H1 H2].
  destruct (is_space c) eqn:W.
  - destruct b; simpl; [now apply IH|]. now apply IH.
  - simpl. rewrite collapse_spaces_gt, H1. simpl. now apply IH.
Qed.

Lemma no_tag_suffix (p s : str) : no_tag (p ++ s) = true -> no_tag s = true.
Proof.
  induction p as [|c p IH]; simpl; [easy|].
  intros H. apply andb_true_iff in H as [_ H]. now apply IH.
Qed.

Lemma no_tag_prefix (p s : str) : no_tag (p ++ s) = true -> no_tag p = true.
Proof.
  induction p as [|c p IH]; simpl; [easy|].
  intros H. apply andb_true_iff in H as [H1 H2].
  rewrite (IH H2), andb_true_r.
  rewrite has_gt_app in H1.
  destruct (c =? LT); [|reflexivity]. simpl in *.
  destruct (has_gt p); [discriminate H1|reflexivity].
Qed.

Lemma trim_no_tag (s : str) : no_tag s = true -> no_tag (trim s) = true.
Proof.
  intros H. unfold trim.
  destruct (JsFacts.trimStart_split s) as [p [E _]].
  rewrite E in H. apply no_tag_suffix in H.
  destruct (JsFacts.trimEnd_split (trimStart s)) as [q [E' _]].
  rewrite E' in H. now apply no_tag_prefix in H.
Qed.

Lemma slice_to_no_tag n (s : str) : no_tag s = true -> no_tag (slice_to n s) = true.
Proof.
  intros H. unfold slice_to. rewrite <- (firstn_skipn n s) in H.
  now apply no_tag_prefix in H.
Qed.

(** Whatever it is given, [sanitizeErrorText] returns at most 200
    characters, among them no tag. *)
Lemma sanitizeErrorText_length (text : Value) :
  (List.length (sanitizeErrorText text) <= 200)%nat.
Proof.
  unfold sanitizeErrorText.
  destruct (truthy_value text); cbv beta iota delta [negb]; [|vm_compute; lia].
  destruct (String_ text); [apply JsFacts.slice_to_length | vm_compute; lia].
Qed.

Lemma sanitizeErrorText_no_tag (text : Value) :
  no_tag (sanitizeErrorText text) = true.
Proof.
  unfold sanitizeErrorText.
  destruct (truthy_value text); cbv beta iota delta [negb]; [|reflexivity].
  destruct (String_ text); [|reflexivity].
  apply slice_to_no_tag, trim_no_tag, collapse_spaces_no_tag, replace_tags_no_tag.
Qed.

End ServerFacts.

(** ** The sample parser *)

Module SampleFacts.
Import Js Sample.
Local Open Scope N_scope.
Local Arguments N.eqb : simpl never.
Local Arguments N.leb : simpl never.





End SampleFacts.

(** ** server/server.js: the handler of POST /api/ai *)

Module RelayFacts.
Import Js Server Spec.
Local Open Scope N_scope.

Section Handler.

Variable JSON_parse : str -> option Json.
Variable OLLAMA_MODEL : str.
Variable backend : UpstreamRequest -> FetchResult.


(** A conversion that throws: no request is sent, and the one event
    written carries the message of the TypeError. *)
Lemma post_api_ai_thrown (b : Body) :
  upstream_request OLLAMA_MODEL b = None ->
  upstream (post_api_ai JSON_parse OLLAMA_MODEL backend b) = []
  /\ events (post_api_ai JSON_parse OLLAMA_MODEL backend b)
     = [error_event conversion_error_message].
Proof. intros U. unfold post_api_ai. rewrite U. now split. Qed.

(** Otherwise the handler contacts the backend once, with the request
    built from the body. *)
Lemma post_api_ai_upstream (b : Body) (q : UpstreamRequest) :
  upstream_request OLLAMA_MODEL b = Some q ->
  upstream (post_api_ai JSON_parse OLLAMA_MODEL backend b) = [q].
Proof.
  intros U. unfold post_api_ai. rewrite U.
  destruct (backend q) as [e|r]; [reflexivity|].
  destruct (ok r); cbv beta iota delta [negb]; [|reflexivity].
  now destruct (body r) as [[values [e|]]|].
Qed.

Lemma upstream_error_message_nonempty (r : Response) :
  nonempty (upstream_error_message r) = true.
Proof. reflexivity. Qed.

(** A fetch that is rejected makes the handler write one error event. *)
Lemma post_api_ai_rejected (b : Body) (q : UpstreamRequest) (e : str) :
  upstream_request OLLAMA_MODEL b = Some q ->
  backend q = Rejected e ->
  events (post_api_ai JSON_parse OLLAMA_MODEL backend b)
  = [error_event (catch_message e)].
Proof.
  intros U B. unfold post_api_ai. rewrite U, B. reflexivity.
Qed.

(** A response outside 200..299 makes the handler write one error event. *)
Lemma post_api_ai_not_ok (b : Body) (q : UpstreamRequest) (r : Response) :
  upstream_request OLLAMA_MODEL b = Some q ->
  backend q = Resolved r ->
  ok r = false ->
  events (post_api_ai JSON_parse OLLAMA_MODEL backend b)
  = [error_event (sanitizeErrorText (OfJson (JStr (upstream_error_message r))))].
Proof.
  intros U B K. unfold post_api_ai. rewrite U, B, K. reflexivity.
Qed.

(** A response in 200..299 without a body makes the handler write one
    error event. *)
Lemma post_api_ai_no_body (b : Body) (q : UpstreamRequest) (r : Response) :
  upstream_request OLLAMA_MODEL b = Some q ->
  backend q = Resolved r ->
  ok r = true ->
  body r = None ->
  events (post_api_ai JSON_parse OLLAMA_MODEL backend b)
  = [error_event (catch_message null_body_message)].
Proof.
  intros U B K V. unfold post_api_ai. rewrite U, B, K, V. reflexivity.
Qed.

(** A response in 200..299 with a body that is read to its end makes
    the handler write the events of its lines and nothing else. *)
Lemma post_api_ai_ok (b : Body) (q : UpstreamRequest) (r : Response)
    (values : list str) :
  upstream_request OLLAMA_MODEL b = Some q ->
  backend q = Resolved r ->
  ok r = true ->
  body r = Some (values, None) ->
  events (post_api_ai JSON_parse OLLAMA_MODEL backend b)
  = flat_map (read_events JSON_parse) values.
Proof.
  intros U B K V. unfold post_api_ai. rewrite U, B, K, V. reflexivity.
Qed.

(** A read that fails makes the handler write one error event after
    the events of the pieces read before. *)
Lemma post_api_ai_read_fails (b : Body) (q : UpstreamRequest) (r : Response)
    (values : list str) (e : str) :
  upstream_request OLLAMA_MODEL b = Some q ->
  backend q = Resolved r ->
  ok r = true ->
  body r = Some (values, Some e) ->
  events (post_api_ai JSON_parse OLLAMA_MODEL backend b)
  = flat_map (read_events JSON_parse) values
    ++ [error_event (catch_message e)].
Proof.
  intros U B K V. unfold post_api_ai. rewrite U, B, K, V. reflexivity.
Qed.

(** The events of a body are those of its lines, piece after piece. *)
Lemma read_events_lines (values : list str) :
  flat_map (read_events JSON_parse) values
  = flat_map (line_events JSON_parse) (flat_map (split LF) values).
Proof.
  induction values as [|v vs IH]; simpl; [reflexivity|].
  rewrite flat_map_app, IH. reflexivity.
Qed.


(** The prompt of a body without a truthy selection. *)
Lemma upstream_request_chat (b : Body) (message_text doc_text : str) :
  truthy_opt (selection b) = false ->
  or_empty (message b) = Some message_text ->
  or_empty (doc b) = Some doc_text ->
  upstream_request OLLAMA_MODEL b
  = Some {| up_model := modelToUse OLLAMA_MODEL b;
            up_prompt := lit "User: " ++ message_text ++ [LF]
                         ++ lit "Document context: " ++ doc_text ++ [LF; LF]
                         ++ lit "Please provide a helpful response.";
            up_stream := true |}.
Proof.
  intros S M D. unfold upstream_request, build_prompt.
  now rewrite S, M, D.
Qed.

(** The prompt of a body with a truthy selection. *)
Lemma upstream_request_action (b : Body) (selection_text action_text : str) :
  truthy_opt (selection b) = true ->
  or_empty (selection b) = Some selection_text ->
  or_empty (action b) = Some action_text ->
  upstream_request OLLAMA_MODEL b
  = Some {| up_model := modelToUse OLLAMA_MODEL b;
            up_prompt := buildActionPrompt selection_text action_text;
            up_stream := true |}.
Proof.
  intros S M D. unfold upstream_request, build_prompt.
  now rewrite S, M, D.
Qed.

End Handler.

End RelayFacts.

Module RelayClaims.
Import Js Server Spec Inputs.
Local Open Scope N_scope.

(** C10.  [sanitizeErrorText] is total and never throws: it is a
    function to strings, the conversion that may throw being caught.
    Every result has at most 200 characters; [undefined], [null] and the
    empty string give the fallback 'Connection error occurred'; a value
    whose conversion throws gives 'Unable to process request'. *)
Theorem sanitizeErrorText_total_and_bounded :
  (forall text : Value, (List.length (sanitizeErrorText text) <= 200)%nat)
  /\ sanitizeErrorText Undefined = lit "Connection error occurred"
  /\ sanitizeErrorText (OfJson JNull) = lit "Connection error occurred"
  /\ sanitizeErrorText (OfJson (JStr [])) = lit "Connection error occurred"
  /\ sanitizeErrorText (Host None) = lit "Unable to process request".
Proof.
  split; [exact ServerFacts.sanitizeErrorText_length|].
  repeat split; reflexivity.
Qed.

(** A parsed object that has a [toString] key cannot be converted, and
    [sanitizeErrorText] catches that. *)
Example sanitizeErrorText_of_unconvertible_object :
  sanitizeErrorText (OfJson (JObj [(lit "toString", JNum true (lit "1"))]))
  = lit "Unable to process request".
Proof. reflexivity. Qed.




(** Scenario C of the specification: a 503 with the body
    [<html>Service Unavailable</html>]. *)
Example service_unavailable_event :
  events (post_api_ai Sample.JSON_parse_flat llama
            (answering {| status := 503; statusText := lit "Service Unavailable";
                          text := Some (lit "<html>Service Unavailable</html>");
                          body := None |}) hello_body)
  = [error_event
       (lit "Upstream 503 Service Unavailable: Service Unavailable")].
Proof. vm_compute. reflexivity. Qed.

(** C7, as the code has it.  For a request with a truthy selection
    whose selection and action convert to strings (a string converts to
    itself, an absent action to the empty string), the relay contacts
    the backend once, and the prompt it sends is the template chosen by
    the action followed by the selection as it was received, not
    trimmed; an action that is absent or none of [shorten], [lengthen],
    [table] chooses the proofread template.  When the selection or the
    action is an object whose conversion throws, the relay builds no
    prompt: it contacts no backend and writes one error event. *)
Theorem relay_transform_prompt
    (JSON_parse : str -> option Json) (OLLAMA_MODEL : str)
    (backend : UpstreamRequest -> FetchResult) (b : Body) :
  truthy_opt (selection b) = true ->
  (forall selection_text action_text : str,
     or_empty (selection b) = Some selection_text ->
     or_empty (action b) = Some action_text ->
     map up_model (upstream (post_api_ai JSON_parse OLLAMA_MODEL backend b))
     = [modelToUse OLLAMA_MODEL b]
     /\ (action_text = lit "shorten" ->
         map up_prompt
           (upstream (post_api_ai JSON_parse OLLAMA_MODEL backend b))
         = [shorten_template ++ selection_text])
     /\ (action_text = lit "lengthen" ->
         map up_prompt
           (upstream (post_api_ai JSON_parse OLLAMA_MODEL backend b))
         = [lengthen_template ++ selection_text])
     /\ (action_text = lit "table" ->
         map up_prompt
           (upstream (post_api_ai JSON_parse OLLAMA_MODEL backend b))
         = [table_template ++ selection_text])
     /\ (action_text <> lit "shorten" ->
         action_text <> lit "lengthen" ->
         action_text <> lit "table" ->
         map up_prompt
           (upstream (post_api_ai JSON_parse OLLAMA_MODEL backend b))
         = [proofread_template ++ selection_text]))
  /\ (forall s : str,
        selection b = Some (JStr s) -> or_empty (selection b) = Some s)
  /\ (forall a : str, action b = Some (JStr a) -> or_empty (action b) = Some a)
  /\ (action b = None -> or_empty (action b) = Some [])
  /\ (or_empty (selection b) = None \/ or_empty (action b) = None ->
      upstream (post_api_ai JSON_parse OLLAMA_MODEL backend b) = []
      /\ events (post_api_ai JSON_parse OLLAMA_MODEL backend b)
         = [error_event conversion_error_message]).
Proof.
  intros S. split; [|split; [|split; [|split]]].
  - intros selection_text action_text Cs Ca.
    rewrite (RelayFacts.post_api_ai_upstream JSON_parse OLLAMA_MODEL backend
               b _ (RelayFacts.upstream_request_action OLLAMA_MODEL b
                      selection_text action_text S Cs Ca)).
    cbn [map up_model up_prompt]. unfold buildActionPrompt.
    split; [reflexivity|]. repeat split.
    + intros ->. reflexivity.
    + intros ->. reflexivity.
    + intros ->. reflexivity.
    + intros N1 N2 N3.
      destruct (str_eqb action_text (lit "shorten")) eqn:E1;
        [apply JsFacts.str_eqb_eq in E1; contradiction|].
      destruct (str_eqb action_text (lit "lengthen")) eqn:E2;
        [apply JsFacts.str_eqb_eq in E2; contradiction|].
      destruct (str_eqb action_text (lit "table")) eqn:E3;
        [apply JsFacts.str_eqb_eq in E3; contradiction|].
      reflexivity.
  - intros s E. rewrite E. cbn [or_empty truthy toString].
    now destruct s.
  - intros a E. rewrite E. cbn [or_empty truthy toString].
    now destruct a.
  - intros E. now rewrite E.
  - intros T. apply RelayFacts.post_api_ai_thrown.
    unfold upstream_request, build_prompt. rewrite S.
    destruct T as [T|T]; rewrite T; [reflexivity|].
    now destruct (or_empty (selection b)).
Qed.

Lemma relay_transform_prompt_witness :
  map up_prompt
    (upstream (post_api_ai Sample.JSON_parse_flat llama
                 (answering (streaming_200 [])) padded_selection_body))
  = [shorten_template ++ lit " hi "].
Proof.
  refine (proj1 (proj2
            (proj1 (relay_transform_prompt Sample.JSON_parse_flat llama
                      (answering (streaming_200 [])) padded_selection_body _)
               (lit " hi ") (lit "shorten") _ _)) _);
    reflexivity.
Defined.

(** C7, as stated, fails: the relay embeds the selection [" hi "] with
    its blanks, where the client-side builder of aiPrompts.ts embeds
    ["hi"]. *)
Lemma relay_prompt_keeps_blanks :
  map up_prompt
    (upstream (post_api_ai Sample.JSON_parse_flat llama
                 (answering (streaming_200 [])) padded_selection_body))
  = [shorten_template ++ lit " hi "]
  /\ str_eqb (shorten_template ++ lit " hi ")
             (shorten_template ++ trim (lit " hi ")) = false
  /\ AiPrompts.buildActionPrompt (lit " hi ") (lit "shorten")
     = shorten_template ++ lit "hi".
Proof. repeat split; vm_compute; reflexivity. Qed.

(** A selection that cannot be converted: the relay builds no prompt
    and reports the TypeError. *)
Example relay_unconvertible_selection :
  upstream (post_api_ai Sample.JSON_parse_flat llama
              (answering (streaming_200 backend_pieces))
              {| message := None; doc := None;
                 selection :=
                   Some (JObj [(lit "toString", JNum true (lit "1"))]);
                 action := Some (JStr (lit "shorten")); model := None |})
  = []
  /\ events (post_api_ai Sample.JSON_parse_flat llama
               (answering (streaming_200 backend_pieces))
               {| message := None; doc := None;
                  selection :=
                    Some (JObj [(lit "toString", JNum true (lit "1"))]);
                  action := Some (JStr (lit "shorten")); model := None |})
     = [error_event (lit "Cannot convert object to primitive value")].
Proof. split; vm_compute; reflexivity. Qed.

(** C3, as the code has it.  A request without [message] and without
    [selection] is not rejected.  When its [doc] converts to a string
    (an absent one to the empty string, a string to itself), the relay
    contacts the backend once, with the chat prompt built from an empty
    message; when the backend answers successfully and its body is read
    to its end, the relay writes the chunk events of the answer's lines
    and nothing else.  It writes an error event of its own in these
    cases and no other: the fetch is rejected, the answer is outside
    200..299, the answer has no body, a read of the body fails, or,
    before any backend is contacted, the conversion of [doc] throws. *)
Theorem request_without_message_is_forwarded
    (JSON_parse : str -> option Json) (OLLAMA_MODEL : str)
    (backend : UpstreamRequest -> FetchResult) (b : Body) :
  message b = None ->
  selection b = None ->
  (forall (doc_text : str) (request : UpstreamRequest),
     or_empty (doc b) = Some doc_text ->
     request
     = {| up_model := modelToUse OLLAMA_MODEL b;
          up_prompt := lit "User: " ++ [LF] ++ lit "Document context: "
                       ++ doc_text ++ [LF; LF]
                       ++ lit "Please provide a helpful response.";
          up_stream := true |} ->
     upstream (post_api_ai JSON_parse OLLAMA_MODEL backend b) = [request]
     /\ (forall (r : Response) (values : list str),
           backend request = Resolved r ->
           ok r = true ->
           body r = Some (values, None) ->
           events (post_api_ai JSON_parse OLLAMA_MODEL backend b)
           = flat_map (line_events JSON_parse) (flat_map (split LF) values))
     /\ (forall e : str,
           backend request = Rejected e ->
           events (post_api_ai JSON_parse OLLAMA_MODEL backend b)
           = [error_event (catch_message e)])
     /\ (forall r : Response,
           backend request = Resolved r ->
           ok r = false ->
           events (post_api_ai JSON_parse OLLAMA_MODEL backend b)
           = [error_event (catch_message (upstream_error_message r))])
     /\ (forall r : Response,
           backend request = Resolved r ->
           ok r = true ->
           body r = None ->
           events (post_api_ai JSON_parse OLLAMA_MODEL backend b)
           = [error_event (catch_message null_body_message)])
     /\ (forall (r : Response) (values : list str) (e : str),
           backend request = Resolved r ->
           ok r = true ->
           body r = Some (values, Some e) ->
           events (post_api_ai JSON_parse OLLAMA_MODEL backend b)
           = flat_map (line_events JSON_parse) (flat_map (split LF) values)
             ++ [error_event (catch_message e)]))
  /\ (doc b = None -> or_empty (doc b) = Some [])
  /\ (forall d : str, doc b = Some (JStr d) -> or_empty (doc b) = Some d)
  /\ (or_empty (doc b) = None ->
      upstream (post_api_ai JSON_parse OLLAMA_MODEL backend b) = []
      /\ events (post_api_ai JSON_parse OLLAMA_MODEL backend b)
         = [error_event conversion_error_message]).
Proof.
  intros M S.
  assert (S' : truthy_opt (selection b) = false) by now rewrite S.
  assert (M' : or_empty (message b) = Some []) by now rewrite M.
  split; [|split; [|split]].
  - intros doc_text request D ->.
    pose proof (RelayFacts.upstream_request_chat OLLAMA_MODEL b [] doc_text
                  S' M' D) as U.
    change (lit "User: " ++ [] ++ [LF] ++ lit "Document context: "
            ++ doc_text ++ [LF; LF]
            ++ lit "Please provide a helpful response.")
      with (lit "User: " ++ [LF] ++ lit "Document context: "
            ++ doc_text ++ [LF; LF]
            ++ lit "Please provide a helpful response.") in U.
    split; [exact (RelayFacts.post_api_ai_upstream _ _ _ _ _ U)|].
    split; [|split; [|split; [|split]]].
    + intros r values B K V.
      rewrite (RelayFacts.post_api_ai_ok _ _ _ _ _ _ _ U B K V).
      apply RelayFacts.read_events_lines.
    + intros e B. exact (RelayFacts.post_api_ai_rejected _ _ _ _ _ _ U B).
    + intros r B K.
      exact (RelayFacts.post_api_ai_not_ok _ _ _ _ _ _ U B K).
    + intros r B K V.
      exact (RelayFacts.post_api_ai_no_body _ _ _ _ _ _ U B K V).
    + intros r values e B K V.
      rewrite (RelayFacts.post_api_ai_read_fails _ _ _ _ _ _ _ _ U B K V).
      now rewrite RelayFacts.read_events_lines.
  - intros E. now rewrite E.
  - intros d E. rewrite E. cbn [or_empty truthy toString]. now destruct d.
  - intros D. apply RelayFacts.post_api_ai_thrown.
    unfold upstream_request, build_prompt. now rewrite S', M', D.
Qed.

Lemma request_without_message_is_forwarded_witness :
  upstream (post_api_ai Sample.JSON_parse_flat llama
              (answering (streaming_200 backend_pieces)) empty_body)
  = [ {| up_model := llama;
         up_prompt := lit "User: " ++ [LF] ++ lit "Document context: "
                      ++ [LF; LF]
                      ++ lit "Please provide a helpful response.";
         up_stream := true |} ].
Proof.
  refine (proj1
            (proj1 (request_without_message_is_forwarded
                      Sample.JSON_parse_flat llama
                      (answering (streaming_200 backend_pieces)) empty_body
                      _ _)
               [] _ _ _));
    reflexivity.
Defined.

(** C3, as stated, fails: for the body without any field and a backend
    that streams three records, the relay contacts the backend and
    writes three chunk events and no error event. *)
Lemma empty_request_reaches_backend :
  upstream (post_api_ai Sample.JSON_parse_flat llama
              (answering (streaming_200 backend_pieces)) empty_body)
  = [ {| up_model := llama;
         up_prompt := lit "User: " ++ [LF] ++ lit "Document context: "
                      ++ [LF; LF]
                      ++ lit "Please provide a helpful response.";
         up_stream := true |} ]
  /\ events (post_api_ai Sample.JSON_parse_flat llama
               (answering (streaming_200 backend_pieces)) empty_body)
     = [ chunk_event (lit "Hi"); chunk_event (lit " there");
         chunk_event (lit "!") ].
Proof. split; vm_compute; reflexivity. Qed.

(** A [doc] that cannot be converted: the relay contacts no backend
    and reports the TypeError. *)
Example relay_unconvertible_doc :
  upstream (post_api_ai Sample.JSON_parse_flat llama
              (answering (streaming_200 backend_pieces))
              {| message := None;
                 doc := Some (JObj [(lit "toString", JNum true (lit "1"))]);
                 selection := None; action := None; model := None |})
  = []
  /\ events (post_api_ai Sample.JSON_parse_flat llama
               (answering (streaming_200 backend_pieces))
               {| message := None;
                  doc := Some (JObj [(lit "toString", JNum true (lit "1"))]);
                  selection := None; action := None; model := None |})
     = [error_event (lit "Cannot convert object to primitive value")].
Proof. split; vm_compute; reflexivity. Qed.



(** The same run, evaluated: the truncated line between the first two
    records leaves no trace. *)
Example relay_skips_truncated_line :
  events (post_api_ai Sample.JSON_parse_flat llama
            (answering (streaming_200 backend_pieces)) hello_body)
  = [ chunk_event (lit "Hi"); chunk_event (lit " there");
      chunk_event (lit "!") ].
Proof. vm_compute. reflexivity. Qed.

(** A record whose [response] is an object that cannot be converted:
    the interpolation throws inside the [try], and nothing is
    written. *)
Example relay_skips_unconvertible_response :
  line_events
    (fun _ => Some (JObj [(lit "response",
                           JObj [(lit "toString", JNum true (lit "1"))])]))
    (lit "{}")
  = []
  /\ line_events
       (fun _ => Some (JObj [(lit "response", JObj [])])) (lit "{}")
     = [chunk_event (lit "[object Object]")].
Proof. split; reflexivity. Qed.

End RelayClaims.

(** ** src/ui/Chat.tsx: the session *)

Module ChatFacts.
Import Js Chat Session.
Local Open Scope N_scope.

Lemma abort_unabortable (k : nat) (cs : list Connection) :
  unabortable cs -> abort k cs = cs.
Proof.
  unfold unabortable, abort. induction 1 as [|c cs [S _] _ IH]; simpl.
  - reflexivity.
  - rewrite S, IH. reflexivity.
Qed.

Lemma updateLastAssistant_net (t : str) (s : State) :
  net (updateLastAssistant t s) = net s.
Proof. reflexivity. Qed.

Lemma onStream_net (chunk : str) (s : State) :
  net (onStream chunk s) = net s.
Proof. unfold onStream. now destruct (is_streaming (statusRef s)). Qed.

(** Reading a response changes the component through [onStream] only. *)
Lemma on_line_net (p : ClientCalls.Progress State) (line : str) :
  net (ClientCalls.caller (ClientCalls.on_line onStream p line))
  = net (ClientCalls.caller p).
Proof.
  unfold ClientCalls.on_line.
  destruct (startsWith (lit "data: ") line); [|reflexivity].
  destruct (ClientCalls.is_think_block _); [reflexivity|].
  apply onStream_net.
Qed.

Lemma deliver_net (value : str) (s : State) : net (deliver value s) = net s.
Proof.
  unfold deliver, ClientCalls.on_value.
  assert (G : forall lines p,
            net (ClientCalls.caller
                   (fold_left (ClientCalls.on_line onStream) lines p))
            = net (ClientCalls.caller p)).
  { induction lines as [|l ls IH]; intros p; simpl; [reflexivity|].
    rewrite IH. apply on_line_net. }
  now rewrite G.
Qed.

Lemma send_net (getDoc model : str) (s : State) :
  net (send getDoc model s) = net s
  \/ exists c, net (send getDoc model s) = net s ++ [c]
               /\ signal c = None /\ torn_down c = false.
Proof.
  unfold send.
  destruct (negb (nonempty (trim (input (shown s))))
            || is_streaming (status (shown s))); [now left|].
  right. simpl. eexists. split; [reflexivity|]. now split.
Qed.

Lemma abortIfStreaming_net (s : State) :
  unabortable (net s) -> net (abortIfStreaming s) = net s.
Proof.
  intros U. unfold abortIfStreaming.
  destruct (is_streaming (statusRef s)); [|reflexivity].
  destruct (abortRef s) as [ac|]; simpl; [|reflexivity].
  now apply abort_unabortable.
Qed.

(** Every request the component ever issues is beyond the reach of its
    abort controllers. *)
Lemma reachable_unabortable (s : State) :
  reachable s -> unabortable (net s).
Proof.
  induction 1 as [|s s' R IH T]; [constructor|].
  destruct T.
  - exact IH.
  - destruct (send_net getDoc model s) as [E|[c [E [S D]]]]; rewrite E.
    + exact IH.
    + apply Forall_app. split; [exact IH|]. now repeat constructor.
  - now rewrite abortIfStreaming_net.
  - exact IH.
  - now rewrite deliver_net.
  - unfold completed. destruct (nonempty (bufferRef s)); exact IH.
  - unfold failed. destruct (is_streaming (statusRef s)); exact IH.
Qed.

(** Reading a response leaves the rendered values and [statusRef] as
    they are. *)
Lemma deliver_shown_statusRef (value : str) (s : State) :
  shown (deliver value s) = shown s
  /\ statusRef (deliver value s) = statusRef s.
Proof.
  unfold deliver, ClientCalls.on_value.
  assert (G : forall lines p,
            shown (ClientCalls.caller
                     (fold_left (ClientCalls.on_line onStream) lines p))
            = shown (ClientCalls.caller p)
            /\ statusRef (ClientCalls.caller
                            (fold_left (ClientCalls.on_line onStream) lines p))
               = statusRef (ClientCalls.caller p)).
  { induction lines as [|l ls IH]; intros p; simpl; [now split|].
    destruct (IH (ClientCalls.on_line onStream p l)) as [E1 E2].
    rewrite E1, E2. unfold ClientCalls.on_line.
    destruct (startsWith (lit "data: ") l); [|now split].
    destruct (ClientCalls.is_think_block _); simpl; [now split|].
    unfold onStream.
    now destruct (is_streaming (statusRef (ClientCalls.caller p))). }
  apply G.
Qed.

(** In every state the component can reach, [statusRef] holds the
    status of the last render. *)
Lemma reachable_statusRef (s : State) :
  reachable s -> statusRef s = status (shown s).
Proof.
  induction 1 as [|s s' R IH T]; [reflexivity|].
  destruct T.
  - exact IH.
  - unfold send.
    now destruct (negb (nonempty (trim (input (shown s))))
                  || is_streaming (status (shown s))).
  - unfold abortIfStreaming.
    destruct (is_streaming (statusRef s)); [|exact IH].
    now destruct (abortRef s).
  - unfold render. simpl. rewrite IH.
    now destruct (status (shown s)), (status (queued s)).
  - destruct (deliver_shown_statusRef value s) as [E1 E2].
    now rewrite E1, E2.
  - unfold completed. now destruct (nonempty (bufferRef s)).
  - unfold failed. now destruct (is_streaming (statusRef s)).
Qed.

(** Once the ref reads idle, what is read from a response is dropped. *)
Lemma onStream_idle (chunk : str) (s : State) :
  statusRef s = idle -> onStream chunk s = s.
Proof. intros I. unfold onStream. now rewrite I. Qed.

Lemma deliver_idle (value : str) (s : State) :
  statusRef s = idle -> deliver value s = s.
Proof.
  intros I. unfold deliver, ClientCalls.on_value.
  set (p := {| ClientCalls.isThinking := false; ClientCalls.response := [];
               ClientCalls.caller := s |}).
  assert (G : forall lines q, ClientCalls.caller q = s ->
            ClientCalls.caller
              (fold_left (ClientCalls.on_line onStream) lines q) = s).
  { induction lines as [|l ls IH]; intros q Q; simpl; [exact Q|].
    apply IH. unfold ClientCalls.on_line.
    destruct (startsWith (lit "data: ") l); [|exact Q].
    destruct (ClientCalls.is_think_block _); simpl; [exact Q|].
    rewrite Q. now apply onStream_idle. }
  now apply G.
Qed.

End ChatFacts.

Module ChatClaims.
Import Js Chat Session Runs.
Local Open Scope N_scope.

(** C9.  [send()] called while the status of the last render is not
    idle, or with an input that trims to the empty string, leaves the
    whole state as it was: no message is queued, the buffer, the status
    and the input keep their values, and no request is issued. *)
Theorem send_is_noop_when_busy_or_blank (getDoc model : str) (s : State) :
  status (shown s) <> idle \/ trim (input (shown s)) = [] ->
  send getDoc model s = s.
Proof.
  intros [B|E]; unfold send.
  - destruct (status (shown s)); [contradiction|].
    now rewrite orb_true_r.
  - now rewrite E.
Qed.

Lemma send_is_noop_when_busy_or_blank_witness :
  send the_doc the_model (typed (lit "again") streaming_session)
  = typed (lit "again") streaming_session.
Proof.
  apply (send_is_noop_when_busy_or_blank the_doc the_model
           (typed (lit "again") streaming_session)).
  left. discriminate.
Defined.

(** The second way in: a blank input in an idle component. *)
Example send_blank_input :
  send the_doc the_model (typed (lit "   ") initial) = typed (lit "   ") initial.
Proof. vm_compute. reflexivity. Qed.

(** C2 fails on the code.  [send] creates an [AbortController] and
    keeps it in [abortRef], but [fetchAI] is not given its signal and
    calls [fetch] without one: in every state the component can reach,
    [abortIfStreaming] leaves every request as it is, none torn down. *)
Theorem pause_tears_no_request_down (s : State) :
  reachable s ->
  net (abortIfStreaming s) = net s
  /\ Forall (fun c => torn_down c = false) (net (abortIfStreaming s)).
Proof.
  intros R. pose proof (ChatFacts.reachable_unabortable s R) as U.
  rewrite (ChatFacts.abortIfStreaming_net s U). split; [reflexivity|].
  unfold unabortable in U. rewrite Forall_forall in *.
  intros c C. now apply U.
Qed.

Lemma streaming_session_reachable : reachable streaming_session.
Proof.
  unfold streaming_session, typed.
  eapply reachable_step; [|apply step_render].
  eapply reachable_step; [|apply step_send].
  eapply reachable_step; [|apply step_render].
  eapply reachable_step; [|apply step_type].
  apply reachable_initial.
Qed.

Lemma pause_tears_no_request_down_witness :
  net (abortIfStreaming streaming_session) = net streaming_session
  /\ Forall (fun c => torn_down c = false)
       (net (abortIfStreaming streaming_session)).
Proof.
  apply (pause_tears_no_request_down streaming_session).
  exact streaming_session_reachable.
Defined.

(** The run behind it: one generation streaming, its controller in
    [abortRef], its request without a signal; after Pause and a render
    the request is still open. *)
Example paused_request_still_open :
  abortRef streaming_session = Some 0%nat
  /\ map signal (net streaming_session) = [None]
  /\ abortRef cancelled_session = None
  /\ map torn_down (net cancelled_session) = [false].
Proof. repeat split; vm_compute; reflexivity. Qed.

(** C1 fails on the code.  The status set by [abortIfStreaming] reaches
    [statusRef], which [onStream] reads, only with the effect of the
    next render; and since the request is not aborted (see C2) and the
    refs are shared by all generations, what the cancelled request
    still delivers is appended as soon as a new generation is streaming.
    Evaluated on the runs of [Runs]:
    - when [abortIfStreaming] returns, [statusRef] still reads
      streaming, and a chunk delivered before the render is appended;
    - after the render both read idle, and a chunk delivered then is
      dropped;
    - after the user has sent a second message, a chunk of the first,
      cancelled request lands in the buffer and in the assistant entry
      of the second;
    - when the stream of a request cancelled before any chunk ends, the
      placeholder of its assistant entry is overwritten with
      [[No response]]. *)
Theorem cancelled_request_still_writes :
  statusRef (abortIfStreaming streaming_session) = streaming
  /\ bufferRef (deliver (event (lit "late")) (abortIfStreaming streaming_session))
     = lit "late"
  /\ status (shown cancelled_session) = idle
  /\ statusRef cancelled_session = idle
  /\ deliver (event (lit "late")) cancelled_session = cancelled_session
  /\ bufferRef (deliver (event (lit "late")) second_session) = lit "late"
  /\ messages (queued (deliver (event (lit "late")) second_session))
     = [ {| role := user; content := lit "hello" |};
         {| role := assistant; content := thinking |};
         {| role := user; content := lit "again" |};
         {| role := assistant; content := lit "late" |} ]
  /\ messages (queued cancelled_session)
     = [ {| role := user; content := lit "hello" |};
         {| role := assistant; content := thinking |} ]
  /\ messages (queued (completed cancelled_session))
     = [ {| role := user; content := lit "hello" |};
         {| role := assistant; content := lit "[No response]" |} ].
Proof. repeat split; vm_compute; reflexivity. Qed.

(** What does hold of cancellation.  From a reachable state in which
    a generation is streaming, after [abortIfStreaming] and the next
    render both the status and [statusRef] read idle, and a value read
    from the response then changes nothing. *)
Theorem values_after_pause_and_render_are_dropped (s : State) (value : str) :
  reachable s ->
  statusRef s = streaming ->
  status (shown (render (abortIfStreaming s))) = idle
  /\ statusRef (render (abortIfStreaming s)) = idle
  /\ deliver value (render (abortIfStreaming s)) = render (abortIfStreaming s).
Proof.
  intros R S. pose proof (ChatFacts.reachable_statusRef s R) as I.
  rewrite S in I.
  assert (E : status (shown (render (abortIfStreaming s))) = idle
              /\ statusRef (render (abortIfStreaming s)) = idle).
  { unfold abortIfStreaming. rewrite S.
    destruct (abortRef s); simpl; rewrite <- I; now split. }
  destruct E as [E1 E2]. repeat split; [exact E1|exact E2|].
  now apply ChatFacts.deliver_idle.
Qed.

Lemma values_after_pause_and_render_are_dropped_witness :
  status (shown cancelled_session) = idle
  /\ statusRef cancelled_session = idle
  /\ deliver (event (lit "late")) cancelled_session = cancelled_session.
Proof.
  apply (values_after_pause_and_render_are_dropped streaming_session
           (event (lit "late")) streaming_session_reachable).
  reflexivity.
Defined.

End ChatClaims.

(** ** src/clientCalls.tsx: the read loop under the chat session *)

Module StreamFacts.
Import Js Chat Runs.
Local Open Scope N_scope.
Local Arguments N.eqb : simpl never.

Lemma startsWith_app (p s : str) : startsWith p (p ++ s) = true.
Proof.
  induction p as [|c p IH]; simpl; [reflexivity|].
  now rewrite N.eqb_refl, IH.
Qed.

Lemma slice_from_app (p s : str) : slice_from (List.length p) (p ++ s) = s.
Proof. unfold slice_from. induction p; simpl; auto. Qed.

(** A piece without the separator, then the separator: [split] cuts
    there. *)
Lemma split_first (sep : char) (l rest : str) :
  Spec.occurs sep l = false ->
  split sep (l ++ sep :: rest) = l :: split sep rest.
Proof.
  unfold Spec.occurs. induction l as [|c l IH]; simpl.
  - intros _. now rewrite N.eqb_refl.
  - intros H. apply orb_false_iff in H as [H1 H2].
    rewrite N.eqb_sym, H1, (IH H2). reflexivity.
Qed.

Lemma occurs_app (c : char) (a b : str) :
  Spec.occurs c (a ++ b) = Spec.occurs c a || Spec.occurs c b.
Proof. unfold Spec.occurs. apply existsb_app. Qed.

(** The lines of an event, for a chunk without line feed: the data
    line and an empty line. *)
Lemma split_event (chunk rest : str) :
  Spec.occurs LF chunk = false ->
  split LF (event chunk ++ rest)
  = (lit "data: " ++ chunk) :: [] :: split LF rest.
Proof.
  intros H. unfold event, Server.chunk_event.
  replace ((lit "data: " ++ chunk ++ [LF; LF]) ++ rest)
    with ((lit "data: " ++ chunk) ++ LF :: ([] ++ LF :: rest))
    by (rewrite <- !app_assoc; reflexivity).
  rewrite split_first.
  - rewrite split_first; reflexivity.
  - rewrite occurs_app, H. reflexivity.
Qed.

(** What [fetchAI] does with the data line of a chunk. *)
Lemma on_line_data (p : ClientCalls.Progress State) (chunk : str) :
  ClientCalls.caller
    (ClientCalls.on_line onStream p (lit "data: " ++ chunk))
  = if handed_on chunk then onStream chunk (ClientCalls.caller p)
    else ClientCalls.caller p.
Proof.
  unfold ClientCalls.on_line, handed_on.
  rewrite startsWith_app.
  change 6%nat with (List.length (lit "data: ")).
  rewrite slice_from_app.
  now destruct (ClientCalls.is_think_block (trim chunk)).
Qed.

Lemma on_line_empty (p : ClientCalls.Progress State) :
  ClientCalls.on_line onStream p [] = p.
Proof. reflexivity. Qed.

(** While the ref reads streaming, [onStream] appends to the buffer. *)
Lemma onStream_streaming (chunk : str) (s : State) :
  statusRef s = streaming ->
  statusRef (onStream chunk s) = streaming
  /\ bufferRef (onStream chunk s) = bufferRef s ++ chunk.
Proof. intros S. unfold onStream. rewrite S. now split. Qed.

(** A value that holds the events of a group of chunks appends the
    chunks that are handed on, in their order. *)
Lemma lines_of_group (g : list str) :
  Forall (fun c => Spec.occurs LF c = false) g ->
  forall p : ClientCalls.Progress State,
    statusRef (ClientCalls.caller p) = streaming ->
    let q := fold_left (ClientCalls.on_line onStream)
               (split LF (List.concat (map event g))) p in
    statusRef (ClientCalls.caller q) = streaming
    /\ bufferRef (ClientCalls.caller q)
       = bufferRef (ClientCalls.caller p) ++ List.concat (filter handed_on g).
Proof.
  induction 1 as [|c g C _ IH]; intros p S.
  - simpl. split; [exact S|]. now rewrite app_nil_r.
  - cbv zeta.
    change (List.concat (map event (c :: g)))
      with (event c ++ List.concat (map event g)).
    rewrite (split_event c _ C).
    cbn [fold_left filter]. rewrite on_line_empty.
    set (p1 := ClientCalls.on_line onStream p (lit "data: " ++ c)).
    assert (P1 : statusRef (ClientCalls.caller p1) = streaming
                 /\ bufferRef (ClientCalls.caller p1)
                    = bufferRef (ClientCalls.caller p)
                      ++ (if handed_on c then c else [])).
    { unfold p1. rewrite on_line_data. destruct (handed_on c).
      - now apply onStream_streaming.
      - split; [exact S|]. now rewrite app_nil_r. }
    destruct P1 as [S1 B1]. destruct (IH p1 S1) as [S2 B2].
    split; [exact S2|]. rewrite B2, B1, <- app_assoc. f_equal.
    now destruct (handed_on c).
Qed.

Lemma deliver_group (g : list str) (s : State) :
  Forall (fun c => Spec.occurs LF c = false) g ->
  statusRef s = streaming ->
  statusRef (deliver (List.concat (map event g)) s) = streaming
  /\ bufferRef (deliver (List.concat (map event g)) s)
     = bufferRef s ++ List.concat (filter handed_on g).
Proof.
  intros F S. unfold deliver, ClientCalls.on_value.
  now apply (lines_of_group g F).
Qed.

Lemma deliver_groups (groups : list (list str)) :
  Forall (fun c => Spec.occurs LF c = false) (List.concat groups) ->
  forall s : State,
    statusRef s = streaming ->
    bufferRef (fold_left (fun st v => deliver v st) (values_of groups) s)
    = bufferRef s ++ List.concat (filter handed_on (List.concat groups)).
Proof.
  induction groups as [|g groups IH]; intros F s S; simpl.
  - now rewrite app_nil_r.
  - simpl in F. apply Forall_app in F as [Fg Fr].
    destruct (deliver_group g s Fg S) as [S1 B1].
    rewrite (IH Fr _ S1), B1, filter_app, concat_app, app_assoc.
    reflexivity.
Qed.

(** A request sent from an idle render: after the next render the ref
    reads streaming and the buffer is empty. *)
Lemma send_then_render (getDoc model : str) (s : State) :
  status (shown s) = idle ->
  trim (input (shown s)) <> [] ->
  statusRef (render (send getDoc model s)) = streaming
  /\ bufferRef (render (send getDoc model s)) = [].
Proof.
  intros I T. unfold send. rewrite I.
  destruct (trim (input (shown s))) as [|c t]; [contradiction|].
  simpl. rewrite I. now split.
Qed.

(** What the read loop does to the caller depends on the caller alone. *)
Lemma on_value_caller (p : ClientCalls.Progress State) (value : str) :
  ClientCalls.caller (ClientCalls.on_value onStream p value)
  = deliver value (ClientCalls.caller p).
Proof.
  unfold deliver, ClientCalls.on_value.
  assert (G : forall lines (a b : ClientCalls.Progress State),
            ClientCalls.caller a = ClientCalls.caller b ->
            ClientCalls.caller
              (fold_left (ClientCalls.on_line onStream) lines a)
            = ClientCalls.caller
                (fold_left (ClientCalls.on_line onStream) lines b)).
  { induction lines as [|l ls IH]; intros a b E; simpl; [exact E|].
    apply IH. unfold ClientCalls.on_line.
    destruct (startsWith (lit "data: ") l); [|exact E].
    destruct (ClientCalls.is_think_block _); simpl; [exact E|].
    now rewrite E. }
  now apply G.
Qed.

(** The streaming branch of [fetchAI] treats the caller as the values
    delivered one after the other do. *)
Lemma fetchAI_stream_caller (values : list str) (s : State) :
  ClientCalls.caller (ClientCalls.fetchAI_stream onStream values s)
  = fold_left (fun st v => deliver v st) values s.
Proof.
  unfold ClientCalls.fetchAI_stream.
  assert (G : forall vs (p : ClientCalls.Progress State),
            ClientCalls.caller
              (fold_left (ClientCalls.on_value onStream) vs p)
            = fold_left (fun st v => deliver v st) vs (ClientCalls.caller p)).
  { induction vs as [|v vs IH]; intros p; simpl; [reflexivity|].
    rewrite IH, on_value_caller. reflexivity. }
  now rewrite G.
Qed.

Lemma completed_bufferRef (s : State) : bufferRef (completed s) = bufferRef s.
Proof. unfold completed. now destruct (nonempty (bufferRef s)). Qed.

Lemma filter_all {A : Type} (f : A -> bool) (l : list A) :
  (forall x, In x l -> f x = true) -> filter f l = l.
Proof.
  induction l as [|a l IH]; simpl; intros H; [reflexivity|].
  rewrite (H a (or_introl eq_refl)), IH; [reflexivity|].
  intros x X. apply H. now right.
Qed.

End StreamFacts.

Module StreamClaims.
Import Js Chat Runs.
Local Open Scope N_scope.

(** C5, as the code has it.  Take a generation sent from an idle
    render with a non-blank input, whose chunks hold no line feed and
    whose events each arrive whole within one value, read to the end
    without error.  Its final [bufferRef] is the concatenation, in
    order, of the chunks [fetchAI] hands on: all of them except those
    that are by themselves, once trimmed, a whole [<think>...</think>]
    block.  When no chunk is such a block, it is the concatenation of
    all the chunks. *)
Theorem accumulated_text_is_concatenation
    (getDoc model : str) (groups : list (list str)) (s : State) :
  status (shown s) = idle ->
  trim (input (shown s)) <> [] ->
  (forall c, In c (List.concat groups) -> Spec.occurs LF c = false) ->
  bufferRef (generation getDoc model (values_of groups) s)
  = List.concat (filter handed_on (List.concat groups))
  /\ ((forall c, In c (List.concat groups) -> handed_on c = true) ->
      bufferRef (generation getDoc model (values_of groups) s)
      = List.concat (List.concat groups)).
Proof.
  intros I T F.
  assert (E : bufferRef (generation getDoc model (values_of groups) s)
              = List.concat (filter handed_on (List.concat groups))).
  { unfold generation. rewrite StreamFacts.completed_bufferRef.
    destruct (StreamFacts.send_then_render getDoc model s I T) as [S B].
    rewrite StreamFacts.deliver_groups; [|now apply Forall_forall|exact S].
    now rewrite B. }
  split; [exact E|].
  intros H. rewrite E. now rewrite StreamFacts.filter_all.
Qed.

Lemma accumulated_text_is_concatenation_witness :
  bufferRef (generation the_doc the_model
               (values_of [[lit "Hi"; lit " there"]; [lit "!"]])
               (typed (lit "hello") initial))
  = List.concat (filter handed_on [lit "Hi"; lit " there"; lit "!"]).
Proof.
  refine (proj1 (accumulated_text_is_concatenation the_doc the_model
                   [[lit "Hi"; lit " there"]; [lit "!"]]
                   (typed (lit "hello") initial) _ _ _)).
  - reflexivity.
  - discriminate.
  - intros c [<-|[<-|[<-|[]]]]; reflexivity.
Defined.

(** C5, as stated, fails: a chunk that is a whole think block is
    dropped by [fetchAI] and never reaches the buffer. *)
Lemma think_chunk_is_not_accumulated :
  bufferRef (generation the_doc the_model
               (values_of [[lit "<think>a</think>"; lit "Hi"]])
               (typed (lit "hello") initial))
  = lit "Hi"
  /\ List.concat [lit "<think>a</think>"; lit "Hi"] = lit "<think>a</think>Hi"
  /\ str_eqb (lit "Hi") (lit "<think>a</think>Hi") = false.
Proof. repeat split; vm_compute; reflexivity. Qed.

(** Scenario A of the specification: the chunks [Hi], [ there], [!]
    end as [Hi there!] in the assistant entry, and the session is idle
    after the next render. *)
Example scenario_hi_there :
  messages (queued (generation the_doc the_model
                      (values_of [[lit "Hi"]; [lit " there"]; [lit "!"]])
                      (typed (lit "hello") initial)))
  = [ {| role := user; content := lit "hello" |};
      {| role := assistant; content := lit "Hi there!" |} ]
  /\ status (queued (generation the_doc the_model
                       (values_of [[lit "Hi"]; [lit " there"]; [lit "!"]])
                       (typed (lit "hello") initial))) = idle.
Proof. split; vm_compute; reflexivity. Qed.

(** What the framing does to a line feed: the chunk that is one line
    feed arrives as an empty text. *)
Example line_feed_chunk_arrives_empty :
  bufferRef (generation the_doc the_model
               (values_of [[lit "a"; [LF]; lit "b"]])
               (typed (lit "hello") initial))
  = lit "ab".
Proof. vm_compute. reflexivity. Qed.

End StreamClaims.

(** ** stripThinkBlocks *)

Module ThinkFacts.
Import Js Chat Blocks.
Local Open Scope N_scope.
Local Arguments N.eqb : simpl never.
Local Arguments N.leb : simpl never.

(** Past its first character, a delimiter never matches at a [<]. *)
Lemma starts_ci_before_lt (p q f : str) :
  no_lt p = true -> starts_ci p (q ++ LT :: f) = starts_ci p q.
Proof.
  revert p. induction q as [|c q IH]; intros p N; simpl.
  - destruct p as [|a p]; [reflexivity|]. simpl in *.
    apply andb_true_iff in N as [N _].
    apply negb_true_iff in N. now rewrite N.
  - destruct p as [|a p]; [reflexivity|]. simpl in *.
    apply andb_true_iff in N as [_ N]. now rewrite (IH p N).
Qed.

Lemma starts_ci_app_lt (a : char) (p q f : str) :
  q <> [] -> no_lt p = true ->
  starts_ci (a :: p) (q ++ LT :: f) = starts_ci (a :: p) q.
Proof.
  intros Q N. destruct q as [|c q]; [contradiction|]. simpl.
  now rewrite starts_ci_before_lt.
Qed.

Lemma starts_ci_length (p s : str) :
  starts_ci p s = true -> (List.length p <= List.length s)%nat.
Proof.
  revert s. induction p as [|a p IH]; intros s; simpl; [lia|].
  destruct s as [|c s]; [discriminate|]. simpl.
  intros H. apply andb_true_iff in H as [_ H]. apply IH in H. lia.
Qed.

(** A string that opens a block begins with [<]. *)
Lemma starts_open_head (frag : str) :
  starts_ci OPEN frag = true -> exists f, frag = LT :: f.
Proof.
  destruct frag as [|c f]; [discriminate|].
  intros H. exists f. f_equal.
  change OPEN with (LT :: lit "think>") in H. simpl in H.
  apply andb_true_iff in H as [H _]. unfold eq_ci in H.
  change ((97 <=? LT) && (LT <=? 122)) with false in H.
  rewrite andb_false_l, orb_false_r in H. now apply N.eqb_eq in H.
Qed.

Lemma find_close_nil_tail (c : char) (r : str) :
  find_close (c :: r) = None ->
  starts_ci CLOSE (c :: r) = false /\ find_close r = None.
Proof.
  cbn [find_close]. destruct (starts_ci CLOSE (c :: r)); [discriminate|].
  destruct (find_close r); [discriminate|]. now split.
Qed.

Lemma find_close_skipn (n : nat) (s : str) :
  find_close s = None -> find_close (skipn n s) = None.
Proof.
  revert s. induction n as [|n IH]; intros s H; [exact H|].
  destruct s as [|c r]; [reflexivity|].
  apply find_close_nil_tail in H as [_ H]. now apply IH.
Qed.

(** Where the closing delimiter is found, it stands whole. *)
Lemma find_close_bound (s : str) (i : nat) :
  find_close s = Some i -> (i + 8 <= List.length s)%nat.
Proof.
  revert i. induction s as [|c r IH]; intros i; [discriminate|].
  cbn [find_close]. destruct (starts_ci CLOSE (c :: r)) eqn:E.
  - intros H. inversion H. subst i.
    apply starts_ci_length in E. exact E.
  - destruct (find_close r) as [j|]; [|discriminate].
    intros H. inversion H. subst i. specialize (IH j eq_refl).
    simpl. lia.
Qed.

Lemma block_length_bound (s : str) (n : nat) :
  block_length s = Some n -> (1 <= n <= List.length s)%nat.
Proof.
  unfold block_length. destruct (starts_ci OPEN s) eqn:O; [|discriminate].
  destruct (find_close (skipn 7 s)) as [i|] eqn:F; [|discriminate].
  intros H. inversion H. subst n.
  apply find_close_bound in F. rewrite length_skipn in F.
  apply starts_ci_length in O. change (List.length OPEN) with 7%nat in O.
  lia.
Qed.

Section Tail.

(** An unterminated block [frag], at the end of a string. *)
Variable frag : str.
Hypothesis frag_open : starts_ci OPEN frag = true.
Hypothesis frag_unclosed : find_close frag = None.

Lemma find_close_before (q : str) : find_close (q ++ frag) = find_close q.
Proof.
  destruct (starts_open_head frag frag_open) as [f F].
  induction q as [|c q IH].
  - exact frag_unclosed.
  - change ((c :: q) ++ frag) with (c :: (q ++ frag)).
    cbn [find_close]. rewrite IH.
    change (c :: q ++ frag) with ((c :: q) ++ frag). rewrite F.
    change CLOSE with (LT :: lit "/think>").
    rewrite starts_ci_app_lt; [reflexivity|discriminate|reflexivity].
Qed.

Lemma block_length_before (q : str) :
  q <> [] -> block_length (q ++ frag) = block_length q.
Proof.
  intros Q. destruct (starts_open_head frag frag_open) as [f F].
  unfold block_length.
  replace (starts_ci OPEN (q ++ frag)) with (starts_ci OPEN q).
  - destruct (starts_ci OPEN q) eqn:O; [|reflexivity].
    apply starts_ci_length in O. change (List.length OPEN) with 7%nat in O.
    rewrite skipn_app.
    replace (7 - List.length q)%nat with 0%nat by lia.
    cbn [skipn]. now rewrite find_close_before.
  - rewrite F. change OPEN with (LT :: lit "think>").
    rewrite starts_ci_app_lt; [reflexivity|exact Q|reflexivity].
Qed.

(** Nothing of the unterminated block is removed. *)
Lemma remove_blocks_unclosed (s : str) :
  find_close s = None -> remove_blocks 0 s = s.
Proof.
  induction s as [|c r IH]; intros H; [reflexivity|].
  cbn [remove_blocks].
  assert (B : block_length (c :: r) = None).
  { unfold block_length. destruct (starts_ci OPEN (c :: r)); [|reflexivity].
    now rewrite (find_close_skipn 7 _ H). }
  rewrite B. apply find_close_nil_tail in H as [_ H]. now rewrite IH.
Qed.

Lemma remove_blocks_before (pre : str) :
  forall skip : nat,
    (skip <= List.length pre)%nat ->
    remove_blocks skip (pre ++ frag) = remove_blocks skip pre ++ frag.
Proof.
  induction pre as [|c pre IH]; intros skip L.
  - simpl in L. replace skip with 0%nat by lia.
    now apply remove_blocks_unclosed.
  - change ((c :: pre) ++ frag) with (c :: (pre ++ frag)).
    cbn [remove_blocks]. destruct skip as [|k].
    + change (c :: (pre ++ frag)) with ((c :: pre) ++ frag).
      rewrite block_length_before by discriminate.
      destruct (block_length (c :: pre)) as [n|] eqn:B.
      * apply block_length_bound in B. simpl in B.
        apply IH. lia.
      * change ((c :: remove_blocks 0 pre) ++ frag)
          with (c :: (remove_blocks 0 pre ++ frag)).
        f_equal. apply IH. lia.
    + apply IH. simpl in L. lia.
Qed.

End Tail.

(** Where no complete block is left, a pass of the replacement changes
    nothing. *)
Lemma remove_blocks_none (s : str) :
  has_block s = false -> remove_blocks 0 s = s.
Proof.
  induction s as [|c r IH]; intros H; [reflexivity|].
  cbn [has_block] in H. cbn [remove_blocks].
  destruct (block_length (c :: r)); [discriminate|].
  now rewrite (IH H).
Qed.

(** A pass of the replacement never lengthens, and it shortens a
    string that holds a complete block. *)
Lemma remove_blocks_length (s : str) :
  forall skip : nat,
    (List.length (remove_blocks skip s) <= List.length s)%nat.
Proof.
  induction s as [|c r IH]; intros skip; [simpl; lia|].
  cbn [remove_blocks]. destruct skip as [|k].
  - destruct (block_length (c :: r)) as [n|].
    + specialize (IH (n - 1)%nat). simpl. lia.
    + specialize (IH 0%nat). simpl. lia.
  - specialize (IH k). simpl. lia.
Qed.

Lemma remove_blocks_shortens (s : str) :
  has_block s = true ->
  (List.length (remove_blocks 0 s) < List.length s)%nat.
Proof.
  induction s as [|c r IH]; [discriminate|].
  cbn [has_block remove_blocks].
  destruct (block_length (c :: r)) as [n|].
  - intros _. pose proof (remove_blocks_length r (n - 1)). simpl. lia.
  - intros H. specialize (IH H). simpl. lia.
Qed.

Lemma trim_length (s : str) : (List.length (trim s) <= List.length s)%nat.
Proof.
  unfold trim.
  destruct (JsFacts.trimStart_split s) as [p [E _]].
  destruct (JsFacts.trimEnd_split (trimStart s)) as [q [E' _]].
  rewrite E at 2. rewrite E' at 2. rewrite !length_app. lia.
Qed.

(** [trimStart] stops at the latest where a character that is no white
    space stands. *)
Lemma trimStart_before (x : str) (h : char) (f : str) :
  is_space h = false ->
  exists x', trimStart (x ++ h :: f) = x' ++ h :: f.
Proof.
  intros W. induction x as [|c x [x' IH]]; simpl.
  - exists []. now rewrite W.
  - destruct (is_space c); [now exists x'|]. now exists (c :: x).
Qed.

End ThinkFacts.

Module ThinkClaims.
Import Js Chat Blocks.
Local Open Scope N_scope.

(** C8, as the code has it.  Filtering a second time changes nothing
    exactly when the filtered text holds no complete block.  And for a
    string that ends in an unterminated block [frag] (it begins with
    the opening delimiter and holds no closing one), the filter removes
    nothing of [frag] but the white space at its very end, which
    [trim] strips: the result is the trimmed concatenation of the
    filtered head and [frag], and when [frag] does not end in white
    space it stands unchanged at the end of the result. *)
Theorem stripThinkBlocks_twice_and_tail :
  (forall s : str,
     stripThinkBlocks (stripThinkBlocks s) = stripThinkBlocks s
     <-> has_block (stripThinkBlocks s) = false)
  /\ (forall pre frag : str,
        unterminated frag ->
        stripThinkBlocks (pre ++ frag) = trim (remove_blocks 0 pre ++ frag)
        /\ (forall (body : str) (c : char),
              frag = body ++ [c] -> is_space c = false ->
              Spec.suffix frag (stripThinkBlocks (pre ++ frag)))).
Proof.
  split.
  - intros s. split.
    + intros E. destruct (has_block (stripThinkBlocks s)) eqn:H;
        [|reflexivity].
      apply ThinkFacts.remove_blocks_shortens in H.
      pose proof (ThinkFacts.trim_length
                    (remove_blocks 0 (stripThinkBlocks s))) as T.
      fold (stripThinkBlocks (stripThinkBlocks s)) in T.
      rewrite E in T. lia.
    + intros H. unfold stripThinkBlocks at 1.
      rewrite (ThinkFacts.remove_blocks_none _ H).
      unfold stripThinkBlocks. apply JsFacts.trim_idem.
  - intros pre frag [O U].
    assert (E : stripThinkBlocks (pre ++ frag)
                = trim (remove_blocks 0 pre ++ frag)).
    { unfold stripThinkBlocks.
      rewrite (ThinkFacts.remove_blocks_before frag O U pre 0%nat);
        [reflexivity|lia]. }
    split; [exact E|].
    intros body c F W. rewrite E. unfold trim.
    destruct (ThinkFacts.starts_open_head frag O) as [f Hf].
    destruct (ThinkFacts.trimStart_before (remove_blocks 0 pre) LT f eq_refl)
      as [x' T].
    rewrite Hf, T, <- Hf, F, app_assoc.
    rewrite (JsFacts.trimEnd_fixed _ _ W), <- app_assoc.
    now exists x'.
Qed.

Lemma stripThinkBlocks_twice_and_tail_witness :
  stripThinkBlocks (stripThinkBlocks (lit " a<think>x</think>b "))
  = stripThinkBlocks (lit " a<think>x</think>b ")
  /\ Spec.suffix (lit "<think>so")
       (stripThinkBlocks (lit "Hello <think>x</think> <think>so")).
Proof.
  split.
  - apply (proj1 stripThinkBlocks_twice_and_tail
             (lit " a<think>x</think>b ")).
    reflexivity.
  - apply (proj2 (proj2 stripThinkBlocks_twice_and_tail
                    (lit "Hello <think>x</think> ") (lit "<think>so")
                    (conj eq_refl eq_refl))
             (lit "<think>s") 111).
    + reflexivity.
    + reflexivity.
Defined.

(** C8, as stated, fails twice over.  Removing the inner block of
    [<thi<think>x</think>nk>y</think>] joins the two halves of an
    opening delimiter, so that a second pass removes what the first
    left; and the unterminated tail [<think>so ] of a buffer loses its
    final blank. *)
Lemma stripThinkBlocks_not_idempotent :
  stripThinkBlocks (lit "<thi<think>x</think>nk>y</think>")
  = lit "<think>y</think>"
  /\ stripThinkBlocks
       (stripThinkBlocks (lit "<thi<think>x</think>nk>y</think>"))
     = []
  /\ stripThinkBlocks (lit "Hello <think>so ") = lit "Hello <think>so"
  /\ endsWith (lit "<think>so ") (stripThinkBlocks (lit "Hello <think>so "))
     = false.
Proof. repeat split; vm_compute; reflexivity. Qed.

(** The filter at work on a streaming buffer: a complete block goes,
    whatever the case of its delimiters, and an unterminated one stays. *)
Example stripThinkBlocks_streaming_buffer :
  stripThinkBlocks (lit "a <THINK>x</think> b<think>zz") = lit "a  b<think>zz".
Proof. vm_compute. reflexivity. Qed.

End ThinkClaims.

(** ** Shapes of the sanitized text *)

Module ShapeFacts.
Import Js Server Shapes.
Local Open Scope N_scope.
Local Arguments N.eqb : simpl never.
Local Arguments N.leb : simpl never.

Lemma collapse_spaces_single (s : str) :
  forall b, single_spaced b (collapse_spaces b s) = true.
Proof.
  induction s as [|c r IH]; intros b; [reflexivity|].
  cbn [collapse_spaces]. destruct (is_space c) eqn:W.
  - destruct b; [apply IH|].
    cbn [single_spaced]. change (is_space SP) with true. cbv iota.
    rewrite N.eqb_refl. cbn [negb andb]. apply IH.
  - cbn [single_spaced]. rewrite W. apply IH.
Qed.

Lemma single_spaced_weaken (s : str) :
  single_spaced true s = true -> single_spaced false s = true.
Proof.
  destruct s as [|c r]; simpl; [easy|].
  destruct (is_space c); [|easy].
  rewrite andb_false_r. discriminate.
Qed.

Lemma single_spaced_any (b : bool) (s : str) :
  single_spaced b s = true -> single_spaced false s = true.
Proof. destruct b; [apply single_spaced_weaken|easy]. Qed.

Lemma single_spaced_trimStart (s : str) :
  forall b, single_spaced b s = true -> single_spaced true (trimStart s) = true.
Proof.
  induction s as [|c r IH]; intros b; simpl; [easy|].
  destruct (is_space c) eqn:W.
  - intros H. apply andb_true_iff in H as [_ H]. now apply (IH true).
  - intros H. simpl. now rewrite W.
Qed.

Lemma single_spaced_prefix (p q : str) :
  forall b, single_spaced b (p ++ q) = true -> single_spaced b p = true.
Proof.
  induction p as [|c p IH]; intros b; simpl; [easy|].
  destruct (is_space c).
  - intros H. apply andb_true_iff in H as [H1 H2].
    rewrite H1. now apply IH.
  - apply IH.
Qed.

Lemma single_spaced_trim (s : str) (b : bool) :
  single_spaced b s = true -> single_spaced true (trim s) = true.
Proof.
  intros H. apply single_spaced_trimStart in H. unfold trim.
  destruct (JsFacts.trimEnd_split (trimStart s)) as [q [E _]].
  rewrite E in H. now apply single_spaced_prefix in H.
Qed.

Lemma single_spaced_slice_to (n : nat) (s : str) (b : bool) :
  single_spaced b s = true -> single_spaced b (slice_to n s) = true.
Proof.
  intros H. unfold slice_to. rewrite <- (firstn_skipn n s) in H.
  now apply single_spaced_prefix in H.
Qed.

(** A single-spaced text holds no line feed. *)
Lemma single_spaced_no_lf (s : str) :
  forall b, single_spaced b s = true -> Spec.occurs LF s = false.
Proof.
  unfold Spec.occurs.
  induction s as [|c r IH]; intros b; [easy|].
  cbn [single_spaced existsb].
  destruct (N.eqb_spec LF c) as [<-|N1]; cbn [orb].
  - change (is_space LF) with true. cbv iota.
    change (LF =? SP) with false. discriminate.
  - destruct (is_space c).
    + intros H. apply andb_true_iff in H as [_ H]. now apply (IH true).
    + apply IH.
Qed.

End ShapeFacts.

(** ** The read loop of fetchAI, for any caller *)

Module ReadLoopFacts.
Import Js ClientCalls Runs Shapes.
Local Open Scope N_scope.

Section Caller.

Variable St : Type.
Variable onStream : str -> St -> St.

Lemma on_line_texts (p : Progress St) (line : str) :
  on_line onStream p line
  = fold_left (Shapes.on_text St onStream)
      (if startsWith (lit "data: ") line then [slice_from 6 line] else []) p.
Proof.
  unfold on_line, Shapes.on_text, handed_on.
  destruct (startsWith (lit "data: ") line); [|reflexivity].
  cbn [fold_left].
  destruct (is_think_block (trim (slice_from 6 line))); reflexivity.
Qed.

Lemma fold_on_line_texts (lines : list str) :
  forall p : Progress St,
    fold_left (on_line onStream) lines p
    = fold_left (Shapes.on_text St onStream)
        (flat_map (fun line =>
                     if startsWith (lit "data: ") line
                     then [slice_from 6 line] else []) lines) p.
Proof.
  induction lines as [|l ls IH]; intros p; [reflexivity|].
  cbn [fold_left flat_map]. rewrite fold_left_app, IH, on_line_texts.
  reflexivity.
Qed.

Lemma fold_on_value_texts (values : list str) :
  forall p : Progress St,
    fold_left (on_value onStream) values p
    = fold_left (Shapes.on_text St onStream) (data_texts values) p.
Proof.
  unfold data_texts.
  induction values as [|v vs IH]; intros p; [reflexivity|].
  cbn [fold_left flat_map]. rewrite fold_left_app, IH.
  unfold on_value. now rewrite fold_on_line_texts.
Qed.

Lemma fold_on_text (texts : list str) :
  forall p : Progress St,
    caller (fold_left (Shapes.on_text St onStream) texts p)
    = fold_left (fun st t => onStream t st) (filter handed_on texts) (caller p)
    /\ response (fold_left (Shapes.on_text St onStream) texts p)
       = response p ++ List.concat (filter handed_on texts)
    /\ isThinking (fold_left (Shapes.on_text St onStream) texts p)
       = isThinking p || existsb (fun t => negb (handed_on t)) texts.
Proof.
  induction texts as [|t ts IH]; intros p.
  - simpl. now rewrite app_nil_r, orb_false_r.
  - cbn [fold_left filter existsb].
    destruct (IH ((Shapes.on_text St onStream) p t)) as [C [R T]]. rewrite C, R, T.
    unfold Shapes.on_text. destruct (handed_on t); simpl.
    + now rewrite <- app_assoc.
    + now rewrite orb_true_r.
Qed.

End Caller.

End ReadLoopFacts.

Module RelayProperties.
Import Js Server Shapes.
Local Open Scope N_scope.


End RelayProperties.

Module ReadLoopProperties.
Import Js ClientCalls Runs Shapes.
Local Open Scope N_scope.

(** The streaming branch of [fetchAI], whatever the callback: of the
    texts of the [data: ] lines, in the order read, those that are not
    by themselves a think block are handed to [onStream] one after the
    other; the returned [response] is their concatenation; and
    [isThinking] tells whether some text was a think block. *)
Theorem fetchAI_stream_outcome
    (St : Type) (onStream : str -> St -> St) (values : list str) (s : St) :
  caller (fetchAI_stream onStream values s)
  = fold_left (fun st t => onStream t st)
      (filter handed_on (data_texts values)) s
  /\ response (fetchAI_stream onStream values s)
     = List.concat (filter handed_on (data_texts values))
  /\ isThinking (fetchAI_stream onStream values s)
     = existsb (fun t => negb (handed_on t)) (data_texts values).
Proof.
  unfold fetchAI_stream. rewrite ReadLoopFacts.fold_on_value_texts.
  exact (ReadLoopFacts.fold_on_text St onStream (data_texts values)
           {| isThinking := false; response := []; caller := s |}).
Qed.

End ReadLoopProperties.

(** ** A generation, from send to the end of the stream *)

Module GenerationFacts.
Import Js Chat Runs Shapes.
Local Open Scope N_scope.
Local Arguments N.eqb : simpl never.

(** Values delivered one after the other call [onStream] on the texts
    that are handed on. *)
Lemma deliver_all (values : list str) (s : State) :
  fold_left (fun st v => deliver v st) values s
  = fold_left (fun st t => onStream t st)
      (filter handed_on (data_texts values)) s.
Proof.
  rewrite <- StreamFacts.fetchAI_stream_caller.
  unfold ClientCalls.fetchAI_stream.
  rewrite ReadLoopFacts.fold_on_value_texts.
  apply ReadLoopFacts.fold_on_text.
Qed.

(** [updateLastAssistant] on a transcript that ends with an exchange. *)
Lemma updateLastAssistant_exchange
    (base : list Message) (content old new : str) (s : State) :
  messages (queued s) = base ++ exchange content old ->
  messages (queued (updateLastAssistant new s)) = base ++ exchange content new.
Proof.
  intros M. unfold updateLastAssistant, setMessages. cbn [queued messages].
  rewrite M. unfold exchange. rewrite rev_app_distr. cbn [rev app].
  cbn [set_first_assistant is_assistant role].
  cbn [rev]. rewrite rev_involutive, <- !app_assoc. reflexivity.
Qed.

(** While the ref reads streaming, the texts handed on accumulate in
    the buffer and the assistant entry follows the filtered buffer. *)
Lemma onStream_all (base : list Message) (content : str) (texts : list str) :
  forall (s : State) (answer : str),
    statusRef s = streaming ->
    messages (queued s) = base ++ exchange content answer ->
    let s' := fold_left (fun st t => onStream t st) texts s in
    statusRef s' = streaming
    /\ bufferRef s' = bufferRef s ++ List.concat texts
    /\ input (queued s') = input (queued s)
    /\ exists answer',
         messages (queued s') = base ++ exchange content answer'
         /\ (texts <> [] -> answer' = stripThinkBlocks (bufferRef s')).
Proof.
  induction texts as [|t ts IH]; intros s answer S M.
  - cbn [fold_left]. repeat split; [exact S|now rewrite app_nil_r|].
    exists answer. split; [exact M|]. intros N. now contradiction N.
  - cbn [fold_left List.concat].
    set (s1 := onStream t s).
    assert (S1 : statusRef s1 = streaming) by
      (unfold s1, onStream; now rewrite S).
    assert (B1 : bufferRef s1 = bufferRef s ++ t) by
      (unfold s1, onStream; now rewrite S).
    assert (I1 : input (queued s1) = input (queued s)) by
      (unfold s1, onStream; now rewrite S).
    assert (M1 : messages (queued s1)
                 = base ++ exchange content
                             (stripThinkBlocks (bufferRef s ++ t))).
    { unfold s1, onStream. rewrite S. cbn [is_streaming negb].
      now apply (updateLastAssistant_exchange base content answer). }
    destruct (IH s1 _ S1 M1) as [S2 [B2 [I2 [answer' [M2 A2]]]]].
    repeat split; [exact S2|now rewrite B2, B1, <- app_assoc|congruence|].
    exists answer'. split; [exact M2|]. intros _.
    destruct ts as [|t' ts'].
    + cbn [fold_left] in *. inversion M1 as [M1'].
      rewrite M1 in M2. apply app_inv_head in M2.
      inversion M2. now rewrite B1.
    + apply A2. discriminate.
Qed.

(** A request sent from an idle render with a non-blank input: the
    state after the next render. *)
Lemma send_rendered (getDoc model : str) (s : State) :
  status (shown s) = idle ->
  trim (input (shown s)) <> [] ->
  statusRef (render (send getDoc model s)) = streaming
  /\ bufferRef (render (send getDoc model s)) = []
  /\ messages (queued (render (send getDoc model s)))
     = messages (queued s) ++ exchange (trim (input (shown s))) thinking
  /\ input (queued (render (send getDoc model s))) = [].
Proof.
  intros I T. unfold send. rewrite I.
  destruct (trim (input (shown s))) as [|c t] eqn:E; [contradiction|].
  simpl. rewrite I. repeat split.
Qed.

(** The outcome of a generation: buffer, transcript, input, status. *)
Lemma generation_outcome
    (getDoc model : str) (values : list str) (s : State) :
  status (shown s) = idle ->
  trim (input (shown s)) <> [] ->
  bufferRef (generation getDoc model values s)
  = List.concat (filter handed_on (data_texts values))
  /\ messages (queued (generation getDoc model values s))
     = messages (queued s)
       ++ exchange (trim (input (shown s)))
            (final_answer
               (List.concat (filter handed_on (data_texts values))))
  /\ input (queued (generation getDoc model values s)) = []
  /\ status (queued (generation getDoc model values s)) = idle.
Proof.
  intros I T. unfold generation. rewrite GenerationFacts.deliver_all.
  destruct (GenerationFacts.send_rendered getDoc model s I T)
    as [S [B [M In0]]].
  destruct (GenerationFacts.onStream_all (messages (queued s))
              (trim (input (shown s)))
              (filter handed_on (data_texts values))
              (render (send getDoc model s)) thinking S M)
    as [S' [B' [I' [answer [M' A']]]]].
  rewrite B in B'. cbn [app] in B'.
  set (s' := fold_left (fun st t => onStream t st)
               (filter handed_on (data_texts values))
               (render (send getDoc model s))) in *.
  split; [now rewrite StreamFacts.completed_bufferRef|].
  unfold completed, final_answer. rewrite <- B'.
  destruct (nonempty (bufferRef s')) eqn:N.
  - repeat split; cbn; [|congruence].
    rewrite M'. f_equal. f_equal. apply A'.
    intros E. rewrite E in B'. cbn in B'. rewrite B' in N. discriminate.
  - repeat split; cbn; [|congruence].
    now apply (GenerationFacts.updateLastAssistant_exchange _ _ answer).
Qed.

End GenerationFacts.

Module GenerationProperties.
Import Js Chat Runs Shapes.
Local Open Scope N_scope.

(** A generation sent from an idle render with a non-blank input and
    read to the end, whatever the values read: the buffer ends as the
    concatenation, in order, of the texts of the [data: ] lines that
    are not by themselves a think block; the transcript gains one
    exchange, the trimmed input and the filtered buffer, or
    [[No response]] when the buffer is empty; the input is cleared and
    the status is idle. *)
Theorem generation_transcript
    (getDoc model : str) (values : list str) (s : State) :
  status (shown s) = idle ->
  trim (input (shown s)) <> [] ->
  bufferRef (generation getDoc model values s)
  = List.concat (filter handed_on (data_texts values))
  /\ messages (queued (generation getDoc model values s))
     = messages (queued s)
       ++ exchange (trim (input (shown s)))
            (final_answer
               (List.concat (filter handed_on (data_texts values))))
  /\ input (queued (generation getDoc model values s)) = []
  /\ status (queued (generation getDoc model values s)) = idle.
Proof. exact (GenerationFacts.generation_outcome getDoc model values s). Qed.

Lemma generation_transcript_witness :
  messages (queued (generation the_doc the_model
                      (values_of [[lit "Hi"; lit " there"]; [lit "!"]])
                      (typed (lit " hello ") initial)))
  = exchange (lit "hello") (lit "Hi there!").
Proof.
  refine (proj1 (proj2 (generation_transcript the_doc the_model
                          (values_of [[lit "Hi"; lit " there"]; [lit "!"]])
                          (typed (lit " hello ") initial) _ _))).
  - reflexivity.
  - discriminate.
Defined.

End GenerationProperties.

(** ** The relay and the chat session together *)

Module RoundTripFacts.
Import Js Server Chat Runs Shapes.
Local Open Scope N_scope.
Local Arguments N.eqb : simpl never.

(** Reading back the events of chunks without line feed gives the
    chunks, however the events are grouped into values. *)
Lemma data_texts_group (g : list str) :
  Forall (fun c => Spec.occurs LF c = false) g ->
  flat_map (fun line =>
              if startsWith (lit "data: ") line then [slice_from 6 line]
              else [])
    (split LF (List.concat (map event g)))
  = g.
Proof.
  induction 1 as [|c g C _ IH]; [reflexivity|].
  change (List.concat (map event (c :: g)))
    with (event c ++ List.concat (map event g)).
  rewrite (StreamFacts.split_event c _ C).
  cbn [flat_map]. rewrite StreamFacts.startsWith_app.
  change (slice_from 6 (lit "data: " ++ c))
    with (slice_from (List.length (lit "data: ")) (lit "data: " ++ c)).
  rewrite StreamFacts.slice_from_app.
  change (startsWith (lit "data: ") []) with false. cbn [app].
  now rewrite IH.
Qed.

Lemma data_texts_values_of (groups : list (list str)) :
  Forall (fun c => Spec.occurs LF c = false) (List.concat groups) ->
  data_texts (values_of groups) = List.concat groups.
Proof.
  unfold data_texts, values_of.
  induction groups as [|g groups IH]; intros F; [reflexivity|].
  cbn [List.concat] in F. apply Forall_app in F as [Fg Fr].
  cbn [map flat_map List.concat].
  now rewrite (data_texts_group g Fg), (IH Fr).
Qed.

(** The request the relay builds for the body [send] issues. *)
Lemma upstream_request_chat_body (OLLAMA_MODEL content getDoc model : str) :
  upstream_request OLLAMA_MODEL (chat_body content getDoc model)
  = Some (relayed OLLAMA_MODEL model (chat_prompt content getDoc)).
Proof.
  unfold upstream_request, build_prompt, chat_body, relayed, chat_prompt.
  cbn [selection truthy_opt message doc or_empty truthy toString].
  destruct content, getDoc; reflexivity.
Qed.

Lemma line_events_carried (JSON_parse : str -> option Json) (line : str) :
  line_events JSON_parse line = map chunk_event (carried JSON_parse line).
Proof.
  unfold line_events, carried.
  destruct (nonempty (trim line)); [|reflexivity].
  destruct (JSON_parse line) as [chunk|]; [|reflexivity].
  destruct (get chunk (lit "response")) as [[response|]|]; try reflexivity.
  destruct (truthy response); [|reflexivity].
  now destruct (toString response).
Qed.

Lemma flat_map_map {A B C : Type} (f : A -> list B) (g : B -> C) (l : list A) :
  flat_map (fun x => map g (f x)) l = map g (flat_map f l).
Proof.
  induction l as [|a l IH]; simpl; [reflexivity|].
  now rewrite IH, map_app.
Qed.

(** A text that begins with a bracket is handed on by [fetchAI]. *)
Lemma error_text_handed_on (m : str) : handed_on (lit "[Error] " ++ m) = true.
Proof.
  unfold handed_on, ClientCalls.is_think_block, trim.
  change (lit "[Error] " ++ m) with (91 :: (lit "Error] " ++ m)).
  rewrite (JsFacts.trimStart_fixed 91 _ eq_refl).
  destruct (JsFacts.trimEnd_cons 91 (lit "Error] " ++ m) eq_refl) as [r' E].
  rewrite E. reflexivity.
Qed.

Lemma catch_message_no_lf (e : str) : Spec.occurs LF (catch_message e) = false.
Proof.
  unfold catch_message. destruct (nonempty e); [|reflexivity].
  apply (ShapeFacts.single_spaced_no_lf _ true).
  unfold sanitizeErrorText.
  destruct (truthy_value (OfJson (JStr e))); cbv beta iota delta [negb];
    [|reflexivity].
  cbn [String_].
  apply ShapeFacts.single_spaced_slice_to.
  apply (ShapeFacts.single_spaced_trim _ false).
  apply ShapeFacts.collapse_spaces_single.
Qed.

Lemma error_event_as_chunk (m : str) :
  error_event m = chunk_event (lit "[Error] " ++ m).
Proof. reflexivity. Qed.

(** The transcript after a generation whose response is one error
    event. *)
Lemma generation_of_error_event (getDoc model m : str) (s : State) :
  status (shown s) = idle ->
  trim (input (shown s)) <> [] ->
  Spec.occurs LF m = false ->
  bufferRef (generation getDoc model [error_event m] s) = lit "[Error] " ++ m
  /\ messages (queued (generation getDoc model [error_event m] s))
     = messages (queued s)
       ++ exchange (trim (input (shown s)))
            (stripThinkBlocks (lit "[Error] " ++ m)).
Proof.
  intros I T L.
  destruct (GenerationFacts.generation_outcome getDoc model
              [error_event m] s I T) as [B [M _]].
  assert (D : data_texts [error_event m] = [lit "[Error] " ++ m]).
  { change [error_event m]
      with [event (lit "[Error] " ++ m)].
    rewrite <- (app_nil_r (event (lit "[Error] " ++ m))).
    change [event (lit "[Error] " ++ m) ++ []]
      with (values_of [[lit "[Error] " ++ m]]).
    rewrite data_texts_values_of; [reflexivity|].
    repeat constructor. rewrite StreamFacts.occurs_app, L. reflexivity. }
  rewrite D in B, M. cbn [filter] in B, M.
  rewrite error_text_handed_on in B, M. cbn [List.concat] in B, M.
  rewrite app_nil_r in B, M. split; [exact B|]. exact M.
Qed.

End RoundTripFacts.

Module RoundTripProperties.
Import Js Server Chat Runs Shapes.
Local Open Scope N_scope.



(** A chat generation through the relay when the backend cannot be
    reached or answers with a status outside 200..299.  The relay
    writes one error event; its message holds no tag, no line feed and
    at most 200 characters; and the client, which reads the event as
    any other, ends with [[Error] message] in the buffer and its
    filtered form as the assistant entry. *)
Theorem chat_through_failing_relay
    (JSON_parse : str -> option Json) (OLLAMA_MODEL : str)
    (backend : UpstreamRequest -> FetchResult)
    (getDoc model : str) (s : State) :
  status (shown s) = idle ->
  trim (input (shown s)) <> [] ->
  (exists e, backend (relayed OLLAMA_MODEL model
                        (chat_prompt (trim (input (shown s))) getDoc))
             = Rejected e)
  \/ (exists r, backend (relayed OLLAMA_MODEL model
                           (chat_prompt (trim (input (shown s))) getDoc))
                = Resolved r /\ ok r = false) ->
  exists m : str,
    events (post_api_ai JSON_parse OLLAMA_MODEL backend
              (chat_body (trim (input (shown s))) getDoc model))
    = [error_event m]
    /\ Spec.no_tag m = true
    /\ Spec.occurs LF m = false
    /\ (List.length m <= 200)%nat
    /\ bufferRef (generation getDoc model [error_event m] s)
       = lit "[Error] " ++ m
    /\ messages (queued (generation getDoc model [error_event m] s))
       = messages (queued s)
         ++ exchange (trim (input (shown s)))
              (stripThinkBlocks (lit "[Error] " ++ m)).
Proof.
  intros I T H.
  assert (E : exists e,
            events (post_api_ai JSON_parse OLLAMA_MODEL backend
                      (chat_body (trim (input (shown s))) getDoc model))
            = [error_event (catch_message e)]).
  { pose proof (RoundTripFacts.upstream_request_chat_body OLLAMA_MODEL
                  (trim (input (shown s))) getDoc model) as U.
    destruct H as [[e B]|[r [B K]]].
    - exists e. exact (RelayFacts.post_api_ai_rejected _ _ _ _ _ _ U B).
    - exists (upstream_error_message r).
      exact (RelayFacts.post_api_ai_not_ok _ _ _ _ _ _ U B K). }
  destruct E as [e E]. exists (catch_message e).
  pose proof (RoundTripFacts.catch_message_no_lf e) as L.
  destruct (RoundTripFacts.generation_of_error_event getDoc model
              (catch_message e) s I T L) as [Bf M].
  repeat split; try assumption.
  - unfold catch_message. destruct (nonempty e); [|reflexivity].
    apply ServerFacts.sanitizeErrorText_no_tag.
  - unfold catch_message. destruct (nonempty e); [|vm_compute; lia].
    apply ServerFacts.sanitizeErrorText_length.
Qed.

Lemma chat_through_failing_relay_witness :
  exists m : str,
    events (post_api_ai Sample.JSON_parse_flat Inputs.llama
              (Spec.answering (Spec.failing_500 Inputs.error_page))
              (chat_body (lit "hello") the_doc the_model))
    = [error_event m]
    /\ Spec.no_tag m = true
    /\ Spec.occurs LF m = false
    /\ (List.length m <= 200)%nat
    /\ bufferRef (generation the_doc the_model [error_event m]
                    (typed (lit "hello") initial))
       = lit "[Error] " ++ m
    /\ messages (queued (generation the_doc the_model [error_event m]
                           (typed (lit "hello") initial)))
       = exchange (lit "hello") (stripThinkBlocks (lit "[Error] " ++ m)).
Proof.
  refine (chat_through_failing_relay Sample.JSON_parse_flat Inputs.llama
            (Spec.answering (Spec.failing_500 Inputs.error_page))
            the_doc the_model (typed (lit "hello") initial) _ _ _).
  - reflexivity.
  - discriminate.
  - right. exists (Spec.failing_500 Inputs.error_page). now split.
Defined.

End RoundTripProperties.

(** ** Invariants of the transcript *)

Module TranscriptFacts.
Import Js Chat Session Runs Shapes.
Local Open Scope N_scope.

Lemma pair_ind {A : Type} (P : list A -> Prop) :
  P [] -> (forall x, P [x]) -> (forall x y l, P l -> P (x :: y :: l)) ->
  forall l, P l.
Proof.
  intros P0 P1 P2.
  assert (G : forall l, P l /\ forall x, P (x :: l)).
  { induction l as [|a l [IH1 IH2]]; split; auto. }
  intros l. apply G.
Qed.

Lemma kept_refl (ms : list Message) : Forall2 kept ms ms.
Proof. induction ms; constructor; [now split|assumption]. Qed.

Lemma kept_trans (a b c : list Message) :
  Forall2 kept a b -> Forall2 kept b c -> Forall2 kept a c.
Proof.
  intros H. revert c. induction H as [|x y l l' [R U] _ IH]; intros c K.
  - inversion K. constructor.
  - inversion K as [|y' z m m' [R' U'] K']. subst. constructor.
    + split; [congruence|]. intros X. pose proof (U X) as E. subst y.
      now apply U'.
    + now apply IH.
Qed.

Lemma kept_rev (a b : list Message) :
  Forall2 kept a b -> Forall2 kept (rev a) (rev b).
Proof.
  induction 1 as [|x y l l' K _ IH]; [constructor|].
  cbn [rev]. apply Forall2_app; [exact IH|].
  constructor; [exact K|constructor].
Qed.

Lemma set_first_assistant_kept (new : str) (ms : list Message) :
  Forall2 kept ms (set_first_assistant new ms).
Proof.
  induction ms as [|m r IH]; cbn [set_first_assistant]; [constructor|].
  destruct (is_assistant m) eqn:A.
  - constructor; [|apply kept_refl]. split; [reflexivity|].
    unfold is_assistant in A. intros U. rewrite U in A. discriminate.
  - constructor; [now split|exact IH].
Qed.

Lemma updateLastAssistant_kept (new : str) (s : State) :
  Forall2 kept (messages (queued s))
    (messages (queued (updateLastAssistant new s))).
Proof.
  unfold updateLastAssistant, setMessages. cbn [queued messages].
  rewrite <- (rev_involutive (messages (queued s))) at 1.
  apply kept_rev, set_first_assistant_kept.
Qed.

Lemma onStream_kept (t : str) (s : State) :
  Forall2 kept (messages (queued s)) (messages (queued (onStream t s))).
Proof.
  unfold onStream. destruct (is_streaming (statusRef s)); cbn [negb].
  - apply (updateLastAssistant_kept _ (set_bufferRef (bufferRef s ++ t) s)).
  - apply kept_refl.
Qed.

Lemma deliver_kept (value : str) (s : State) :
  Forall2 kept (messages (queued s)) (messages (queued (deliver value s))).
Proof.
  change (deliver value s)
    with (fold_left (fun st v => deliver v st) [value] s).
  rewrite GenerationFacts.deliver_all.
  generalize (filter handed_on (data_texts [value])). intros texts.
  revert s. induction texts as [|t ts IH]; intros s; [apply kept_refl|].
  cbn [fold_left]. eapply kept_trans; [apply onStream_kept|apply IH].
Qed.

Lemma exchanges_kept (a : list Message) :
  forall b, Forall2 kept a b -> exchanges a -> exchanges b.
Proof.
  induction a as [| x | x y l IH] using pair_ind; intros b K E.
  - inversion K. exact I.
  - contradiction E.
  - inversion K as [|x0 x' l0 l1 [R U] K1]. subst.
    inversion K1 as [|y0 y' l2 l3 [R' U'] K2]. subst.
    cbn [exchanges] in *. destruct E as [E1 [E2 [E3 [E4 E5]]]].
    rewrite <- (U E1). repeat split; try assumption; [congruence|].
    now apply IH.
Qed.

Lemma exchanges_app (a b : list Message) :
  exchanges a -> exchanges b -> exchanges (a ++ b).
Proof.
  induction a as [| x | x y l IH] using pair_ind; intros A B.
  - exact B.
  - contradiction A.
  - cbn [exchanges app] in *. destruct A as [E1 [E2 [E3 [E4 E5]]]].
    repeat split; try assumption. now apply IH.
Qed.

Lemma users_kept (a b : list Message) :
  Forall2 kept a b -> users a = users b.
Proof.
  unfold users. induction 1 as [|x y l l' [R U] _ IH]; [reflexivity|].
  cbn [filter].
  assert (A : is_assistant y = is_assistant x)
    by (unfold is_assistant; now rewrite R).
  rewrite A. destruct (is_assistant x) eqn:AX; cbn [negb]; [exact IH|].
  assert (X : role x = user)
    by (unfold is_assistant in AX; destruct (role x);
        [reflexivity|discriminate]).
  rewrite <- (U X). now rewrite IH.
Qed.

(** What a step does to the queued transcript: it keeps it up to the
    assistant entries, or appends an exchange for a trimmed non-empty
    input. *)
Lemma step_transcript (s s' : State) :
  step s s' ->
  Forall2 kept (messages (queued s)) (messages (queued s'))
  \/ exists content,
       content <> [] /\ trim content = content
       /\ messages (queued s')
          = messages (queued s) ++ exchange content thinking.
Proof.
  destruct 1.
  - left. apply kept_refl.
  - unfold send.
    destruct (trim (input (shown s))) as [|c t] eqn:T;
      [left; apply kept_refl|].
    destruct (status (shown s)); [|left; apply kept_refl].
    right. exists (c :: t). split; [discriminate|].
    split; [rewrite <- T; apply JsFacts.trim_idem|reflexivity].
  - left. unfold abortIfStreaming.
    destruct (is_streaming (statusRef s)); [|apply kept_refl].
    destruct (abortRef s); apply kept_refl.
  - left. apply kept_refl.
  - left. apply deliver_kept.
  - left. unfold completed.
    destruct (nonempty (bufferRef s)); [apply kept_refl|].
    apply (updateLastAssistant_kept _ s).
  - left. unfold failed.
    destruct (is_streaming (statusRef s)); [|apply kept_refl].
    apply (updateLastAssistant_kept _ s).
Qed.

Lemma step_shown (s s' : State) :
  step s s' -> shown s' = shown s \/ shown s' = queued s.
Proof.
  destruct 1; try (now left).
  - left. unfold send.
    now destruct (negb (nonempty (trim (input (shown s))))
                  || is_streaming (status (shown s))).
  - left. unfold abortIfStreaming.
    destruct (is_streaming (statusRef s)); [|reflexivity].
    now destruct (abortRef s).
  - now right.
  - left. apply ChatFacts.deliver_shown_statusRef.
  - left. unfold completed. now destruct (nonempty (bufferRef s)).
  - left. unfold failed. now destruct (is_streaming (statusRef s)).
Qed.

Lemma reachable_exchanges (s : State) :
  reachable s ->
  exchanges (messages (queued s)) /\ exchanges (messages (shown s)).
Proof.
  induction 1 as [|s s' R [IQ IS] T]; [now split|].
  split.
  - destruct (step_transcript s s' T) as [K|[content [N [Tr M]]]].
    + now apply (exchanges_kept _ _ K).
    + rewrite M. apply exchanges_app; [exact IQ|].
      cbn. repeat split; assumption.
  - destruct (step_shown s s' T) as [E|E]; now rewrite E.
Qed.

Lemma step_users (s s' : State) :
  step s s' ->
  exists more, users (messages (queued s'))
               = users (messages (queued s)) ++ more.
Proof.
  intros T. destruct (step_transcript s s' T) as [K|[content [_ [_ M]]]].
  - exists []. now rewrite app_nil_r, (users_kept _ _ K).
  - exists [ {| role := user; content := content |} ].
    rewrite M. unfold users. now rewrite filter_app.
Qed.

End TranscriptFacts.

Module TranscriptProperties.
Import Js Chat Session Runs Shapes.

(** In every state the chat component can reach, the transcript, as
    queued and as rendered, is a sequence of exchanges: a user entry
    whose content is not empty and has no outer white space, followed
    by an assistant entry. *)
Theorem transcript_is_exchanges (s : State) :
  reachable s ->
  exchanges (messages (queued s)) /\ exchanges (messages (shown s)).
Proof. exact (TranscriptFacts.reachable_exchanges s). Qed.

Lemma transcript_is_exchanges_witness :
  exchanges (messages (queued streaming_session))
  /\ exchanges (messages (shown streaming_session)).
Proof.
  apply (transcript_is_exchanges streaming_session).
  exact ChatClaims.streaming_session_reachable.
Defined.

(** Whatever happens to the chat component, the user entries of the
    transcript are never changed, reordered or removed: a step leaves
    them as they are or appends to them. *)
Theorem user_entries_are_append_only (s s' : State) :
  step s s' ->
  exists more, users (messages (queued s'))
               = users (messages (queued s)) ++ more.
Proof. exact (TranscriptFacts.step_users s s'). Qed.

Lemma user_entries_are_append_only_witness :
  exists more,
    users (messages (queued (completed second_session)))
    = users (messages (queued second_session)) ++ more.
Proof.
  apply (user_entries_are_append_only second_session
           (completed second_session)).
  apply step_completed.
Defined.

End TranscriptProperties.

(** ** client/utils/textActions.ts *)

Module TextFacts.
Import Js TextActions TextShapes.
Local Open Scope N_scope.
Local Arguments N.eqb : simpl never.
Local Arguments N.leb : simpl never.

(** *** Tags *)

Lemma has_gt_cons (c : char) (r : str) :
  Server.has_gt (c :: r) = (GT =? c) || Server.has_gt r.
Proof. reflexivity. Qed.

Lemma no_gt_starts_tag (r : str) :
  Server.has_gt r = false -> starts_tag r = false.
Proof.
  destruct r as [|d r']; [reflexivity|].
  rewrite has_gt_cons. intros H. apply orb_false_iff in H as [_ H].
  cbn [starts_tag]. now rewrite H, andb_false_r.
Qed.

Lemma remove_tags_gt (s : str) :
  forall b, Server.has_gt (remove_tags b s) = true -> Server.has_gt s = true.
Proof.
  induction s as [|c r IH]; intros b; cbn [remove_tags]; [easy|].
  rewrite has_gt_cons. destruct b.
  - destruct (N.eqb_spec c GT) as [->|N1].
    + intros _. now rewrite N.eqb_refl.
    + intros H. rewrite (IH _ H). apply orb_true_r.
  - destruct ((c =? LT) && starts_tag r).
    + intros H. rewrite (IH _ H). apply orb_true_r.
    + rewrite has_gt_cons. destruct (GT =? c); [easy|]. apply IH.
Qed.

Lemma remove_tags_starts_tag (r : str) :
  starts_tag r = false -> starts_tag (remove_tags false r) = false.
Proof.
  destruct r as [|d r']; [reflexivity|].
  cbn [starts_tag remove_tags]. intros H.
  destruct (N.eqb_spec d GT) as [->|N1].
  - change (GT =? LT) with false. cbn [andb starts_tag].
    now rewrite N.eqb_refl.
  - cbn [negb andb] in H.
    rewrite (no_gt_starts_tag r' H), andb_false_r.
    cbn [starts_tag].
    destruct (Server.has_gt (remove_tags false r')) eqn:G;
      [|apply andb_false_r].
    apply remove_tags_gt in G. congruence.
Qed.

Lemma remove_tags_tag_free (s : str) :
  forall b, tag_free (remove_tags b s) = true.
Proof.
  induction s as [|c r IH]; intros b; cbn [remove_tags]; [reflexivity|].
  destruct b.
  - destruct (c =? GT); apply IH.
  - destruct ((c =? LT) && starts_tag r) eqn:M; [apply IH|].
    cbn [tag_free]. rewrite IH, andb_true_r.
    destruct (c =? LT); [|reflexivity]. cbn [andb] in *.
    now rewrite (remove_tags_starts_tag r M).
Qed.

Lemma tag_free_suffix (p s : str) : tag_free (p ++ s) = true -> tag_free s = true.
Proof.
  induction p as [|c p IH]; cbn [app tag_free]; [easy|].
  intros H. apply andb_true_iff in H as [_ H]. now apply IH.
Qed.

Lemma starts_tag_app (p q : str) :
  starts_tag p = true -> starts_tag (p ++ q) = true.
Proof.
  destruct p as [|d p]; [discriminate|]. cbn [app starts_tag].
  intros H. apply andb_true_iff in H as [H1 H2].
  now rewrite H1, ServerFacts.has_gt_app, H2.
Qed.

Lemma tag_free_prefix (p s : str) : tag_free (p ++ s) = true -> tag_free p = true.
Proof.
  induction p as [|c p IH]; cbn [app tag_free]; [easy|].
  intros H. apply andb_true_iff in H as [H1 H2].
  rewrite (IH H2), andb_true_r.
  destruct (c =? LT); [|reflexivity]. cbn [andb] in *.
  destruct (starts_tag p) eqn:S; [|reflexivity].
  now rewrite (starts_tag_app p s S) in H1.
Qed.

Lemma tag_free_trim (s : str) : tag_free s = true -> tag_free (trim s) = true.
Proof.
  intros H. unfold trim.
  destruct (JsFacts.trimStart_split s) as [p [E _]].
  rewrite E in H. apply tag_free_suffix in H.
  destruct (JsFacts.trimEnd_split (trimStart s)) as [q [E' _]].
  rewrite E' in H. now apply tag_free_prefix in H.
Qed.

Lemma remove_tags_fixed (s : str) :
  tag_free s = true -> remove_tags false s = s.
Proof.
  induction s as [|c r IH]; [reflexivity|]. cbn [tag_free remove_tags].
  intros H. apply andb_true_iff in H as [H1 H2].
  apply negb_true_iff in H1. now rewrite H1, (IH H2).
Qed.

(** *** Bold markers *)

Lemma remove_bold_head (d : char) (r : str) :
  (d =? STAR) = false -> exists t, remove_bold (d :: r) = d :: t.
Proof.
  intros N. cbn [remove_bold]. destruct r as [|e r']; [now exists []|].
  rewrite N. cbn [andb]. now eexists.
Qed.

Lemma remove_bold_no_bold_upto (n : nat) :
  forall s, (List.length s <= n)%nat -> no_bold (remove_bold s) = true.
Proof.
  induction n as [|n IH]; intros s L.
  - destruct s; [reflexivity|simpl in L; lia].
  - destruct s as [|c r]; [reflexivity|]. cbn [remove_bold].
    destruct r as [|d r']; [reflexivity|].
    cbn [List.length] in L.
    destruct ((c =? STAR) && (d =? STAR)) eqn:M.
    + apply IH. lia.
    + cbn [no_bold]. rewrite (IH (d :: r')) by (cbn [List.length]; lia).
      rewrite andb_true_r.
      destruct (remove_bold (d :: r')) as [|e t] eqn:R; [reflexivity|].
      destruct (c =? STAR); [|reflexivity]. cbn [andb] in *.
      destruct (remove_bold_head d r' M) as [t' R'].
      rewrite R' in R. inversion R. subst. now rewrite M.
Qed.

Lemma remove_bold_no_bold (s : str) : no_bold (remove_bold s) = true.
Proof. now apply (remove_bold_no_bold_upto (List.length s)). Qed.

Lemma no_bold_suffix (p s : str) : no_bold (p ++ s) = true -> no_bold s = true.
Proof.
  induction p as [|c p IH]; cbn [app no_bold]; [easy|].
  intros H. apply andb_true_iff in H as [_ H]. now apply IH.
Qed.

Lemma no_bold_prefix (p s : str) : no_bold (p ++ s) = true -> no_bold p = true.
Proof.
  induction p as [|c p IH]; cbn [app no_bold]; [easy|].
  intros H. apply andb_true_iff in H as [H1 H2].
  rewrite (IH H2), andb_true_r.
  destruct p as [|d p']; [reflexivity|exact H1].
Qed.

Lemma no_bold_trim (s : str) : no_bold s = true -> no_bold (trim s) = true.
Proof.
  intros H. unfold trim.
  destruct (JsFacts.trimStart_split s) as [p [E _]].
  rewrite E in H. apply no_bold_suffix in H.
  destruct (JsFacts.trimEnd_split (trimStart s)) as [q [E' _]].
  rewrite E' in H. now apply no_bold_prefix in H.
Qed.

Lemma remove_bold_fixed (s : str) : no_bold s = true -> remove_bold s = s.
Proof.
  induction s as [|c r IH]; [reflexivity|]. cbn [no_bold remove_bold].
  intros H. apply andb_true_iff in H as [H1 H2].
  destruct r as [|d r']; [reflexivity|].
  apply negb_true_iff in H1. now rewrite H1, (IH H2).
Qed.

(** *** White space *)

(** Replacing the line feeds first changes nothing for the collapse
    that follows: a line feed is white space. *)
Lemma collapse_after_line_feeds (s : str) :
  forall a b : bool,
    (a = true -> b = true) ->
    Server.collapse_spaces b (replace_line_feeds a s)
    = Server.collapse_spaces b s.
Proof.
  induction s as [|c r IH]; intros a b AB; [reflexivity|].
  cbn [replace_line_feeds]. destruct (N.eqb_spec c LF) as [->|N1].
  - cbn [Server.collapse_spaces]. change (is_space LF) with true. cbv iota.
    destruct a.
    + rewrite (AB eq_refl). now apply IH.
    + cbn [Server.collapse_spaces]. change (is_space SP) with true.
      cbv iota. destruct b; now rewrite IH.
  - cbn [Server.collapse_spaces].
    destruct (is_space c); [destruct b|]; now rewrite IH.
Qed.

Lemma collapse_spaces_fixed (s : str) :
  forall b, Shapes.single_spaced b s = true -> Server.collapse_spaces b s = s.
Proof.
  induction s as [|c r IH]; intros b; [reflexivity|].
  cbn [Shapes.single_spaced Server.collapse_spaces].
  destruct (is_space c).
  - intros H. apply andb_true_iff in H as [H1 H2].
    apply andb_true_iff in H1 as [H0 H1].
    apply negb_true_iff in H1. subst b. apply N.eqb_eq in H0. subst c.
    now rewrite (IH true H2).
  - intros H. now rewrite (IH false H).
Qed.

(** *** Lines *)

Lemma occurs_prefix (c : char) (p q : str) :
  Spec.occurs c (p ++ q) = false -> Spec.occurs c p = false.
Proof.
  rewrite StreamFacts.occurs_app. intros H.
  now apply orb_false_iff in H as [H _].
Qed.

Lemma occurs_suffix (c : char) (p q : str) :
  Spec.occurs c (p ++ q) = false -> Spec.occurs c q = false.
Proof.
  rewrite StreamFacts.occurs_app. intros H.
  now apply orb_false_iff in H as [_ H].
Qed.

Lemma occurs_trim (c : char) (s : str) :
  Spec.occurs c s = false -> Spec.occurs c (trim s) = false.
Proof.
  intros H. unfold trim.
  destruct (JsFacts.trimStart_split s) as [p [E _]].
  rewrite E in H. apply occurs_suffix in H.
  destruct (JsFacts.trimEnd_split (trimStart s)) as [q [E' _]].
  rewrite E' in H. now apply occurs_prefix in H.
Qed.

(** The pieces of a split hold no separator. *)
Lemma split_pieces (sep : char) (s : str) :
  Forall (fun l => Spec.occurs sep l = false) (split sep s).
Proof.
  induction s as [|c r IH]; cbn [split]; [now repeat constructor|].
  destruct (N.eqb_spec c sep) as [->|N1].
  - constructor; [reflexivity|exact IH].
  - assert (C : (sep =? c) = false) by (apply N.eqb_neq; congruence).
    destruct (split sep r) as [|l ls].
    + constructor; [|constructor].
      unfold Spec.occurs. cbn [existsb]. now rewrite C.
    + inversion IH as [|? ? L LS]. subst. constructor; [|exact LS].
      unfold Spec.occurs in *. cbn [existsb]. now rewrite L, C.
Qed.

Lemma split_none (sep : char) (l : str) :
  Spec.occurs sep l = false -> split sep l = [l].
Proof.
  unfold Spec.occurs. induction l as [|c l IH]; [reflexivity|].
  cbn [existsb split]. intros H. apply orb_false_iff in H as [H1 H2].
  rewrite N.eqb_sym, H1, (IH H2). reflexivity.
Qed.

(** Joining lines with line feeds and splitting again gives the lines
    back. *)
Lemma split_join (ls : list str) :
  ls <> [] ->
  Forall (fun l => Spec.occurs LF l = false) ls ->
  split LF (join [LF] ls) = ls.
Proof.
  intros N F. induction F as [|x r X F IH]; [contradiction|].
  cbn [join]. destruct r as [|y r'].
  - now apply split_none.
  - change (x ++ [LF] ++ join [LF] (y :: r'))
      with (x ++ LF :: join [LF] (y :: r')).
    rewrite (StreamFacts.split_first LF x _ X). f_equal.
    apply IH. discriminate.
Qed.

Lemma bar_is_no_space (c : char) : is_space c = true -> (c =? BAR) = false.
Proof.
  intros W. destruct (N.eqb_spec c BAR) as [->|]; [discriminate|reflexivity].
Qed.

Lemma replace_bars_no_lf (s : str) :
  Spec.occurs LF s = false ->
  forall m, Spec.occurs LF (replace_bars m s) = false.
Proof.
  unfold Spec.occurs. induction s as [|c r IH]; intros H m; [reflexivity|].
  cbn [existsb] in H. apply orb_false_iff in H as [H1 H2].
  specialize (IH H2).
  assert (Bar : existsb (N.eqb LF) (SP :: BAR :: SP :: replace_bars after_bar r)
                = false)
    by (cbn [existsb]; now rewrite (IH after_bar)).
  assert (Scan : existsb (N.eqb LF)
                   (if bar_ahead (c :: r)
                    then if c =? BAR
                         then SP :: BAR :: SP :: replace_bars after_bar r
                         else replace_bars before_bar r
                    else c :: replace_bars between r) = false).
  { destruct (bar_ahead (c :: r)).
    - destruct (c =? BAR); [exact Bar|apply IH].
    - cbn [existsb]. now rewrite H1, (IH between). }
  cbn [replace_bars]. destruct m.
  - exact Scan.
  - destruct (c =? BAR); [exact Bar|apply IH].
  - destruct (is_space c); [apply IH|exact Scan].
Qed.

(** The lines of a text joined from clean lines. *)
Lemma lines_of_join (P : str -> Prop) (ls : list str) :
  Forall (fun l => Spec.occurs LF l = false) ls ->
  Forall P ls ->
  join [LF] ls = [] \/ Forall P (split LF (join [LF] ls)).
Proof.
  intros F H. destruct ls as [|x r]; [now left|].
  right. rewrite split_join; [exact H|discriminate|exact F].
Qed.

(** *** Think blocks and tags *)

Lemma starts_ci_gt (p s : str) :
  Chat.starts_ci (p ++ [GT]) s = true -> Server.has_gt s = true.
Proof.
  revert s. induction p as [|a p IH]; intros s.
  - destruct s as [|c s']; [discriminate|]. cbn [app Chat.starts_ci].
    intros H. apply andb_true_iff in H as [H _]. unfold Chat.eq_ci in H.
    change ((97 <=? GT) && (GT <=? 122)) with false in H.
    rewrite andb_false_l, orb_false_r in H.
    rewrite has_gt_cons, N.eqb_sym, H. reflexivity.
  - destruct s as [|c s']; [discriminate|]. cbn [app Chat.starts_ci].
    intros H. apply andb_true_iff in H as [_ H].
    rewrite has_gt_cons, (IH _ H). apply orb_true_r.
Qed.

(** A text without a named tag holds no think block: the opening
    delimiter is such a tag. *)
Lemma tag_free_no_block (s : str) :
  tag_free s = true -> Blocks.has_block s = false.
Proof.
  induction s as [|c r IH]; [reflexivity|].
  cbn [tag_free Blocks.has_block]. intros H.
  apply andb_true_iff in H as [H1 H2]. apply negb_true_iff in H1.
  assert (B : Chat.block_length (c :: r) = None).
  { unfold Chat.block_length.
    destruct (Chat.starts_ci Chat.OPEN (c :: r)) eqn:O; [|reflexivity].
    exfalso.
    destruct (ThinkFacts.starts_open_head _ O) as [f F].
    inversion F. subst c f. rewrite N.eqb_refl in H1. cbn [andb] in H1.
    change Chat.OPEN with (LT :: 116 :: (lit "hink" ++ [GT])) in O.
    cbn [Chat.starts_ci] in O.
    apply andb_true_iff in O as [_ O].
    destruct r as [|d r']; [discriminate|].
    apply andb_true_iff in O as [T O].
    apply starts_ci_gt in O. cbn [starts_tag] in H1. rewrite O in H1.
    rewrite andb_true_r in H1. apply negb_false_iff in H1.
    apply N.eqb_eq in H1. subst d. discriminate T. }
  rewrite B. now apply IH.
Qed.

End TextFacts.

Module TextProperties.
Import Js TextActions TextShapes.
Local Open Scope N_scope.

(** [stripHtmlTags] leaves no tag with a name behind, and applying it
    twice is applying it once. *)
Theorem stripHtmlTags_idempotent :
  forall text : str,
    tag_free (stripHtmlTags text) = true
    /\ stripHtmlTags (stripHtmlTags text) = stripHtmlTags text.
Proof.
  intros text.
  assert (F : tag_free (stripHtmlTags text) = true)
    by apply TextFacts.tag_free_trim, TextFacts.remove_tags_tag_free.
  split; [exact F|]. unfold stripHtmlTags at 1.
  rewrite (TextFacts.remove_tags_fixed _ F).
  unfold stripHtmlTags. apply JsFacts.trim_idem.
Qed.

(** [removeMarkdownFormatting] leaves no two asterisks side by side,
    and applying it twice is applying it once. *)
Theorem removeMarkdownFormatting_idempotent :
  forall text : str,
    no_bold (removeMarkdownFormatting text) = true
    /\ removeMarkdownFormatting (removeMarkdownFormatting text)
       = removeMarkdownFormatting text.
Proof.
  intros text.
  assert (F : no_bold (removeMarkdownFormatting text) = true)
    by apply TextFacts.no_bold_trim, TextFacts.remove_bold_no_bold.
  split; [exact F|]. unfold removeMarkdownFormatting at 1.
  rewrite (TextFacts.remove_bold_fixed _ F).
  unfold removeMarkdownFormatting. apply JsFacts.trim_idem.
Qed.

(** [formatInlineText] is a collapse of white space followed by a
    trim, its replacement of line feeds changing nothing; the result is
    one line in which words are separated by single plain spaces; and
    applying it twice is applying it once. *)
Theorem formatInlineText_single_line :
  forall text : str,
    formatInlineText text = trim (Server.collapse_spaces false text)
    /\ Shapes.single_spaced true (formatInlineText text) = true
    /\ Spec.occurs LF (formatInlineText text) = false
    /\ formatInlineText (formatInlineText text) = formatInlineText text.
Proof.
  intros text.
  assert (E : forall t, formatInlineText t
                        = trim (Server.collapse_spaces false t)).
  { intros t. unfold formatInlineText.
    now rewrite TextFacts.collapse_after_line_feeds. }
  assert (S : Shapes.single_spaced true (formatInlineText text) = true).
  { rewrite E. apply (ShapeFacts.single_spaced_trim _ false).
    apply ShapeFacts.collapse_spaces_single. }
  split; [apply E|]. split; [exact S|].
  split; [exact (ShapeFacts.single_spaced_no_lf _ _ S)|].
  rewrite (E (formatInlineText text)).
  rewrite (TextFacts.collapse_spaces_fixed _ false
             (ShapeFacts.single_spaced_weaken _ S)).
  rewrite E. apply JsFacts.trim_idem.
Qed.

(** [formatTableText] returns the empty text or lines none of which is
    empty or has outer white space. *)
Theorem formatTableText_lines :
  forall text : str,
    formatTableText text = []
    \/ Forall clean_line (split LF (formatTableText text)).
Proof.
  intros text. unfold formatTableText. apply TextFacts.lines_of_join.
  - apply Forall_forall. intros l L. apply filter_In in L as [L _].
    apply in_map_iff in L as [x [<- X]].
    apply TextFacts.occurs_trim, TextFacts.replace_bars_no_lf.
    pose proof (TextFacts.split_pieces LF text) as P.
    rewrite Forall_forall in P. now apply P.
  - apply Forall_forall. intros l L. apply filter_In in L as [L N].
    apply in_map_iff in L as [x [<- X]]. split.
    + intros E. rewrite E in N. discriminate.
    + apply JsFacts.trim_idem.
Qed.

(** [removeDuplicateLines] returns the empty text or lines each of
    which is a trimmed, non-empty line of the new text and is not a
    trimmed line of the existing text. *)
Theorem removeDuplicateLines_lines :
  forall newText existingText : str,
    removeDuplicateLines newText existingText = []
    \/ Forall (fun l => clean_line l
                        /\ In l (map trim (split LF newText))
                        /\ ~ In l (map trim (split LF existingText)))
         (split LF (removeDuplicateLines newText existingText)).
Proof.
  intros newText existingText. unfold removeDuplicateLines.
  apply TextFacts.lines_of_join.
  - apply Forall_forall. intros l L. apply filter_In in L as [L _].
    apply filter_In in L as [L _]. apply in_map_iff in L as [x [<- X]].
    apply TextFacts.occurs_trim.
    pose proof (TextFacts.split_pieces LF newText) as P.
    rewrite Forall_forall in P. now apply P.
  - apply Forall_forall. intros l L. apply filter_In in L as [L U].
    apply filter_In in L as [L N]. split; [|split; [exact L|]].
    + apply in_map_iff in L as [x [<- X]]. split.
      * intros E. rewrite E in N. discriminate.
      * apply JsFacts.trim_idem.
    + intros D. apply negb_true_iff in U.
      assert (T : existsb (str_eqb l) (map trim (split LF existingText))
                  = true).
      { apply existsb_exists. exists l. split; [exact D|].
        apply JsFacts.str_eqb_refl. }
      congruence.
Qed.

(** [sanitizeText] is [stripHtmlTags] after [stripThinkBlocks], its
    last [trim] changing nothing; its result holds neither a named tag
    nor a think block; and applying it twice is applying it once. *)
Theorem sanitizeText_idempotent :
  forall text : str,
    sanitizeText text = stripHtmlTags (stripThinkBlocks text)
    /\ tag_free (sanitizeText text) = true
    /\ Blocks.has_block (sanitizeText text) = false
    /\ sanitizeText (sanitizeText text) = sanitizeText text.
Proof.
  intros text.
  assert (E : forall t, sanitizeText t = stripHtmlTags (stripThinkBlocks t))
    by (intros t; unfold sanitizeText, stripHtmlTags; apply JsFacts.trim_idem).
  assert (T : forall t, trim (stripHtmlTags t) = stripHtmlTags t)
    by (intros t; unfold stripHtmlTags; apply JsFacts.trim_idem).
  assert (F : tag_free (sanitizeText text) = true).
  { rewrite E. unfold stripHtmlTags.
    apply TextFacts.tag_free_trim, TextFacts.remove_tags_tag_free. }
  pose proof (TextFacts.tag_free_no_block _ F) as B.
  split; [apply E|]. split; [exact F|]. split; [exact B|].
  rewrite (E (sanitizeText text)).
  unfold stripThinkBlocks at 1, Chat.stripThinkBlocks.
  rewrite (ThinkFacts.remove_blocks_none _ B).
  assert (Y : trim (sanitizeText text) = sanitizeText text)
    by (unfold sanitizeText; apply JsFacts.trim_idem).
  rewrite Y. unfold stripHtmlTags at 1.
  rewrite (TextFacts.remove_tags_fixed _ F). exact Y.
Qed.

End TextProperties.

(** ** The prompt utilities *)

Module PromptFacts.
Import Js AiPrompts.
Local Open Scope N_scope.

Lemma first_or_default_nonempty (l : list str) :
  nonempty (first_or_default l) = true.
Proof.
  destruct l as [|m l]; [reflexivity|]. cbn [first_or_default].
  destruct (nonempty m) eqn:E; [exact E|reflexivity].
Qed.

Lemma includes_In (l : list str) (model : str) :
  includes l model = true <-> In model l.
Proof.
  unfold includes. rewrite existsb_exists. split.
  - intros [x [I E]]. apply JsFacts.str_eqb_eq in E. now subst.
  - intros I. exists model. split; [exact I|apply JsFacts.str_eqb_refl].
Qed.

Lemma first_or_default_cases (l : list str) :
  In (first_or_default l) l \/ first_or_default l = lit "llama3.2".
Proof.
  destruct l as [|m l]; [now right|]. cbn [first_or_default].
  destruct (nonempty m); [left; now left|now right].
Qed.

Lemma validateModel_first (l : list str) :
  validateModel (first_or_default l) l = first_or_default l.
Proof.
  unfold validateModel. rewrite first_or_default_nonempty. cbn [negb].
  now destruct (includes l (first_or_default l)).
Qed.

Lemma forallb_firstn {A : Type} (f : A -> bool) (n : nat) (l : list A) :
  forallb f l = true -> forallb f (firstn n l) = true.
Proof.
  revert l. induction n as [|n IH]; intros [|x l]; cbn; try reflexivity.
  intros H. apply andb_true_iff in H as [H1 H2]. now rewrite H1, IH.
Qed.

Lemma forallb_filter {A : Type} (f : A -> bool) (l : list A) :
  forallb f (filter f l) = true.
Proof.
  induction l as [|x l IH]; [reflexivity|]. cbn [filter].
  destruct (f x) eqn:E; [|exact IH]. cbn [forallb]. now rewrite E, IH.
Qed.

(** Both builders put the selection behind the template the action
    chooses; the client's trims it first. *)
Lemma buildActionPrompt_template (action : str) :
  exists template : str,
    (forall s, Server.buildActionPrompt s action = template ++ s)
    /\ (forall s, AiPrompts.buildActionPrompt s action = template ++ trim s).
Proof.
  unfold Server.buildActionPrompt, AiPrompts.buildActionPrompt.
  destruct (str_eqb action (lit "shorten"));
    [exists Server.shorten_template; now split|].
  destruct (str_eqb action (lit "lengthen"));
    [exists Server.lengthen_template; now split|].
  destruct (str_eqb action (lit "table"));
    [exists Server.table_template; now split|].
  exists Server.proofread_template; now split.
Qed.

End PromptFacts.

Module PromptProperties.
Import Js AiPrompts.
Local Open Scope N_scope.

(** The client-side [buildActionPrompt] depends on the selection only
    through its trimmed form: for one action, two selections give the
    same prompt exactly when they trim to the same text.  And it gives
    the prompt of the relay's [buildActionPrompt] exactly for the
    selections that have no outer white space. *)
Theorem client_prompt_depends_on_trimmed_selection :
  forall s1 s2 action : str,
    (AiPrompts.buildActionPrompt s1 action
     = AiPrompts.buildActionPrompt s2 action
     <-> trim s1 = trim s2)
    /\ (Server.buildActionPrompt s1 action
        = AiPrompts.buildActionPrompt s1 action
        <-> trim s1 = s1).
Proof.
  intros s1 s2 action.
  destruct (PromptFacts.buildActionPrompt_template action)
    as [template [R C]].
  rewrite !C, R. split; split.
  - apply app_inv_head.
  - intros ->. reflexivity.
  - intros E. apply app_inv_head in E. congruence.
  - intros ->. reflexivity.
Qed.

(** [validateModel] never returns the empty name: it returns one of the
    available models or ['llama3.2']; it returns the requested model
    when that is not empty and is available; and validating its result
    again changes nothing. *)
Theorem validateModel_available_or_default :
  forall (model : str) (availableModels : list str),
    nonempty (validateModel model availableModels) = true
    /\ (In (validateModel model availableModels) availableModels
        \/ validateModel model availableModels = lit "llama3.2")
    /\ (model <> [] -> In model availableModels ->
        validateModel model availableModels = model)
    /\ validateModel (validateModel model availableModels) availableModels
       = validateModel model availableModels.
Proof.
  intros model l.
  pose proof (PromptFacts.first_or_default_nonempty l) as D1.
  pose proof (PromptFacts.first_or_default_cases l) as D2.
  pose proof (PromptFacts.validateModel_first l) as D3.
  destruct (nonempty model) eqn:N.
  - destruct (includes l model) eqn:I.
    + assert (E : validateModel model l = model)
        by (unfold validateModel; now rewrite N, I).
      rewrite !E. split; [exact N|]. split.
      * left. now apply PromptFacts.includes_In.
      * split; reflexivity.
    + assert (E : validateModel model l = first_or_default l)
        by (unfold validateModel; now rewrite N, I).
      rewrite !E. split; [exact D1|]. split; [exact D2|].
      split; [|exact D3].
      intros _ M. apply PromptFacts.includes_In in M. congruence.
  - assert (E : validateModel model l = first_or_default l)
      by (unfold validateModel; now rewrite N).
    rewrite !E. split; [exact D1|]. split; [exact D2|].
    split; [|exact D3].
    intros M _. destruct model; [contradiction|discriminate].
Qed.

(** What [sanitizePromptInput] returns has at most 10000 characters and
    none of the control characters it removes; a trimmed input that is
    that short and free of them is returned as it is. *)
Theorem sanitizePromptInput_bounded_and_clean :
  forall input : str,
    (List.length (sanitizePromptInput input) <= N.to_nat 10000)%nat
    /\ forallb (fun c => negb (is_control c)) (sanitizePromptInput input)
       = true
    /\ ((List.length (trim input) <= N.to_nat 10000)%nat ->
        forallb (fun c => negb (is_control c)) (trim input) = true ->
        sanitizePromptInput input = trim input).
Proof.
  intros input. unfold sanitizePromptInput. split; [|split].
  - apply JsFacts.slice_to_length.
  - apply PromptFacts.forallb_firstn, PromptFacts.forallb_filter.
  - intros L C. rewrite StreamFacts.filter_all.
    + unfold slice_to. now apply firstn_all2.
    + now apply forallb_forall.
Qed.

(** The trim of [sanitizePromptInput] comes before its removal of
    control characters, so its result can begin with white space. *)
Example sanitizePromptInput_keeps_inner_blank :
  sanitizePromptInput [1; SP; 97] = [SP; 97].
Proof. vm_compute. reflexivity. Qed.

End PromptProperties.

(** ** client/utils/aiGeneration.ts *)

Module AiGenerationFacts.
Import Js AiGeneration Spec.
Local Open Scope N_scope.
Local Arguments N.eqb : simpl never.

(** Deleting tags brings no [>] in. *)
Lemma delete_tags_gt (s : str) :
  forall in_tag,
    Server.has_gt (delete_tags in_tag s) = true -> Server.has_gt s = true.
Proof.
  induction s as [|c r IH]; intros in_tag; [easy|].
  cbn [delete_tags]. rewrite TextFacts.has_gt_cons. destruct in_tag.
  - destruct (N.eqb_spec c GT) as [->|N1]; [reflexivity|].
    intros H. rewrite (IH _ H). apply orb_true_r.
  - destruct ((c =? LT) && Server.has_gt r) eqn:M.
    + intros H. rewrite (IH _ H). apply orb_true_r.
    + rewrite TextFacts.has_gt_cons. destruct (GT =? c); [reflexivity|].
      cbn [orb]. apply IH.
Qed.

Lemma delete_tags_no_tag (s : str) :
  forall in_tag, no_tag (delete_tags in_tag s) = true.
Proof.
  induction s as [|c r IH]; intros in_tag; [reflexivity|].
  cbn [delete_tags]. destruct in_tag.
  - destruct (c =? GT); apply IH.
  - destruct ((c =? LT) && Server.has_gt r) eqn:M; [apply IH|].
    cbn [no_tag]. rewrite IH, andb_true_r.
    destruct (c =? LT); [|reflexivity]. cbn [andb] in *.
    destruct (Server.has_gt (delete_tags false r)) eqn:G; [|reflexivity].
    apply delete_tags_gt in G. congruence.
Qed.

End AiGenerationFacts.

Module AiGenerationProperties.
Import Js AiGeneration Spec.
Local Open Scope N_scope.

(** Whatever the message of the error, [handleAIError] returns a text
    that is not empty, has no outer white space and holds no tag. *)
Theorem handleAIError_presentable :
  forall message : str,
    nonempty (handleAIError message) = true
    /\ trim (handleAIError message) = handleAIError message
    /\ no_tag (handleAIError message) = true.
Proof.
  intros message. unfold handleAIError.
  destruct (contains (lit "fetch failed") message);
    [repeat split; vm_compute; reflexivity|].
  destruct (contains (lit "aborted") message);
    [repeat split; vm_compute; reflexivity|].
  destruct (contains (lit "timeout") message);
    [repeat split; vm_compute; reflexivity|].
  destruct (contains (lit "403") message || contains (lit "Forbidden") message);
    [repeat split; vm_compute; reflexivity|].
  destruct (contains (lit "500") message
            || contains (lit "Internal Server Error") message);
    [repeat split; vm_compute; reflexivity|].
  cbv zeta.
  destruct (nonempty (trim (delete_tags false message))) eqn:N;
    [|repeat split; vm_compute; reflexivity].
  split; [exact N|]. split; [apply JsFacts.trim_idem|].
  apply ServerFacts.trim_no_tag, AiGenerationFacts.delete_tags_no_tag.
Qed.

(** Parameters that [validateGenerationParams] accepts make a request
    that [prepareAIRequest] accepts, whatever the document: it does not
    throw, keeps the model, asks for a stream, and builds the selection
    prompt exactly when a selection and an action are given. *)
Theorem validated_params_are_prepared
    (text selection action doc model : option str) :
  isValid (validateGenerationParams
             {| AiGeneration.text := text;
                AiGeneration.selection := selection;
                AiGeneration.action := action;
                AiGeneration.model := model |}) = true ->
  exists p,
    AiPrompts.prepareAIRequest
      {| AiPrompts.message := text; AiPrompts.selection := selection;
         AiPrompts.action := action; AiPrompts.doc := doc;
         AiPrompts.model := AiPrompts.or_nil model |} = inl p
    /\ AiPrompts.prepared_model p = AiPrompts.or_nil model
    /\ AiPrompts.stream p = true
    /\ AiPrompts.prompt p
       = if AiPrompts.given selection && AiPrompts.given action
         then AiPrompts.buildSelectionPrompt
                (AiPrompts.sanitizePromptInput (AiPrompts.or_nil selection))
                (AiPrompts.or_nil action) doc
         else AiPrompts.buildChatPrompt
                (AiPrompts.sanitizePromptInput (AiPrompts.or_nil text)) doc.
Proof.
  unfold validateGenerationParams, AiPrompts.prepareAIRequest.
  cbn [AiGeneration.text AiGeneration.selection AiGeneration.action
       AiGeneration.model AiPrompts.message AiPrompts.selection
       AiPrompts.action AiPrompts.doc AiPrompts.model].
  destruct (AiPrompts.given model) eqn:M; [|discriminate].
  cbn [negb orb].
  destruct (blank (AiPrompts.or_nil model)) eqn:B; [discriminate|].
  assert (N : nonempty (AiPrompts.or_nil model) = true)
    by (destruct model; exact M).
  rewrite N.
  destruct (AiPrompts.given selection && AiPrompts.given action).
  - intros _. eexists. repeat split.
  - destruct (AiPrompts.given text); [|discriminate].
    intros _. eexists. repeat split.
Qed.

Lemma validated_params_are_prepared_witness :
  exists p,
    AiPrompts.prepareAIRequest
      {| AiPrompts.message := None;
         AiPrompts.selection := Some (lit " hi ");
         AiPrompts.action := Some (lit "shorten");
         AiPrompts.doc := None;
         AiPrompts.model := lit "llama3.2" |} = inl p
    /\ AiPrompts.prompt p = Server.shorten_template ++ lit "hi".
Proof.
  destruct (validated_params_are_prepared None (Some (lit " hi "))
              (Some (lit "shorten")) None (Some (lit "llama3.2")) eq_refl)
    as [p [E [_ [_ P]]]].
  exists p. split; [exact E|]. rewrite P. vm_compute. reflexivity.
Defined.

(** [prepareAIRequest] accepts more than [validateGenerationParams]: a
    message of blanks is prepared into a prompt, and is refused by the
    validation. *)
Example blank_message_is_prepared :
  isValid (validateGenerationParams
             {| AiGeneration.text := Some (lit "  ");
                AiGeneration.selection := None;
                AiGeneration.action := None;
                AiGeneration.model := Some (lit "llama3.2") |}) = false
  /\ AiPrompts.prepareAIRequest
       {| AiPrompts.message := Some (lit "  ");
          AiPrompts.selection := None; AiPrompts.action := None;
          AiPrompts.doc := None; AiPrompts.model := lit "llama3.2" |}
     = inl {| AiPrompts.prepared_model := lit "llama3.2";
              AiPrompts.prompt :=
                lit "User: " ++ [LF; LF]
                ++ lit "Please provide a helpful response.";
              AiPrompts.stream := true |}.
Proof. split; vm_compute; reflexivity. Qed.

End AiGenerationProperties.

(** ** The clean-up of a suggestion *)

Module SuggestionFacts.
Import Js TextActions TextShapes.
Local Open Scope N_scope.
Local Arguments N.eqb : simpl never.

(** *** Code blocks *)

Lemma no_backtick_no_fence (s : str) :
  Spec.occurs BACKTICK s = false -> find_fence s = None.
Proof.
  unfold Spec.occurs. induction s as [|c r IH]; [reflexivity|].
  cbn [existsb]. intros H. apply orb_false_iff in H as [H1 H2].
  cbn [find_fence]. rewrite (IH H2).
  change FENCE with (BACKTICK :: [BACKTICK; BACKTICK]).
  cbn [startsWith]. rewrite H1. reflexivity.
Qed.

Lemma formatCodeBlocks_no_fence (s : str) :
  find_fence s = None -> formatCodeBlocks_from 0 s = s.
Proof.
  induction s as [|c r IH]; [reflexivity|].
  cbn [find_fence formatCodeBlocks_from].
  destruct (startsWith FENCE (c :: r)); [discriminate|].
  destruct (find_fence r); [discriminate|].
  intros _. now rewrite IH.
Qed.

(** *** What the rewritings let through *)

Lemma remove_bold_occurs_upto (x : char) (n : nat) :
  forall s, (List.length s <= n)%nat ->
            Spec.occurs x s = false -> Spec.occurs x (remove_bold s) = false.
Proof.
  unfold Spec.occurs.
  induction n as [|n IH]; intros s L.
  - destruct s; [reflexivity|simpl in L; lia].
  - destruct s as [|c r]; [reflexivity|]. cbn [remove_bold].
    destruct r as [|d r']; [easy|].
    cbn [List.length] in L. intros H.
    destruct ((c =? STAR) && (d =? STAR)).
    + apply IH; [lia|]. cbn [existsb] in H.
      apply orb_false_iff in H as [_ H].
      now apply orb_false_iff in H as [_ H].
    + change (existsb (N.eqb x) (c :: d :: r'))
        with ((x =? c) || existsb (N.eqb x) (d :: r')) in H.
      apply orb_false_iff in H as [H1 H2].
      change (existsb (N.eqb x) (c :: remove_bold (d :: r')))
        with ((x =? c) || existsb (N.eqb x) (remove_bold (d :: r'))).
      rewrite H1. apply IH; [cbn [List.length]; lia|exact H2].
Qed.

Lemma remove_bold_occurs (x : char) (s : str) :
  Spec.occurs x s = false -> Spec.occurs x (remove_bold s) = false.
Proof. now apply (remove_bold_occurs_upto x (List.length s)). Qed.

Lemma collapse_spaces_occurs (x : char) (s : str) :
  (x =? SP) = false ->
  Spec.occurs x s = false ->
  forall b, Spec.occurs x (Server.collapse_spaces b s) = false.
Proof.
  unfold Spec.occurs. intros X.
  induction s as [|c r IH]; intros H b; [reflexivity|].
  cbn [existsb] in H. apply orb_false_iff in H as [H1 H2].
  cbn [Server.collapse_spaces].
  destruct (is_space c).
  - destruct b; [now apply IH|]. cbn [existsb]. rewrite X. now apply IH.
  - cbn [existsb]. rewrite H1. now apply IH.
Qed.

Lemma replace_bars_occurs (x : char) (s : str) :
  (x =? SP) = false -> (x =? BAR) = false ->
  Spec.occurs x s = false ->
  forall m, Spec.occurs x (replace_bars m s) = false.
Proof.
  unfold Spec.occurs. intros XS XB.
  induction s as [|c r IH]; intros H m; [reflexivity|].
  cbn [existsb] in H. apply orb_false_iff in H as [H1 H2].
  specialize (IH H2).
  assert (Bar : existsb (N.eqb x) (SP :: BAR :: SP :: replace_bars after_bar r)
                = false)
    by (cbn [existsb]; now rewrite XS, XB, (IH after_bar)).
  assert (Scan : existsb (N.eqb x)
                   (if bar_ahead (c :: r)
                    then if c =? BAR
                         then SP :: BAR :: SP :: replace_bars after_bar r
                         else replace_bars before_bar r
                    else c :: replace_bars between r) = false).
  { destruct (bar_ahead (c :: r)).
    - destruct (c =? BAR); [exact Bar|apply IH].
    - cbn [existsb]. now rewrite H1, (IH between). }
  cbn [replace_bars]. destruct m.
  - exact Scan.
  - destruct (c =? BAR); [exact Bar|apply IH].
  - destruct (is_space c); [apply IH|exact Scan].
Qed.

Lemma join_occurs (x : char) (sep : str) (ls : list str) :
  Spec.occurs x sep = false ->
  Forall (fun l => Spec.occurs x l = false) ls ->
  Spec.occurs x (join sep ls) = false.
Proof.
  intros S. induction ls as [|l r IH]; intros F; [reflexivity|].
  inversion F as [|? ? L R]; subst. cbn [join].
  destruct r as [|y r']; [exact L|].
  rewrite !StreamFacts.occurs_app, L, S. now apply IH.
Qed.

Lemma split_occurs (x sep : char) (s : str) :
  Spec.occurs x s = false ->
  Forall (fun l => Spec.occurs x l = false) (split sep s).
Proof.
  unfold Spec.occurs.
  induction s as [|c r IH]; intros H; cbn [split];
    [now repeat constructor|].
  cbn [existsb] in H. apply orb_false_iff in H as [H1 H2].
  specialize (IH H2).
  destruct (c =? sep).
  - constructor; [reflexivity|exact IH].
  - destruct (split sep r) as [|l ls].
    + constructor; [|constructor]. cbn [existsb]. now rewrite H1.
    + inversion IH as [|? ? L R]; subst.
      constructor; [|exact R]. cbn [existsb]. now rewrite H1.
Qed.

Lemma formatTableText_occurs (x : char) (s : str) :
  (x =? SP) = false -> (x =? BAR) = false -> (x =? LF) = false ->
  Spec.occurs x s = false -> Spec.occurs x (formatTableText s) = false.
Proof.
  intros XS XB XL H. unfold formatTableText. apply join_occurs.
  - unfold Spec.occurs. cbn [existsb]. now rewrite XL.
  - apply Forall_forall. intros l L. apply filter_In in L as [L _].
    apply in_map_iff in L as [y [<- Y]].
    apply TextFacts.occurs_trim, replace_bars_occurs; try assumption.
    pose proof (split_occurs x LF s H) as P.
    rewrite Forall_forall in P. now apply P.
Qed.

(** *** Bold markers under the collapse *)

Lemma collapse_spaces_head (c : char) (r t : str) :
  Server.collapse_spaces false r = c :: t ->
  (c =? STAR) = true -> exists r', r = c :: r'.
Proof.
  destruct r as [|d r']; [discriminate|]. cbn [Server.collapse_spaces].
  destruct (is_space d); intros E; inversion E; subst.
  - discriminate.
  - intros _. now eexists.
Qed.

Lemma collapse_spaces_no_bold (s : str) :
  no_bold s = true ->
  forall b, no_bold (Server.collapse_spaces b s) = true.
Proof.
  induction s as [|c r IH]; intros H b; [reflexivity|].
  cbn [no_bold] in H. apply andb_true_iff in H as [H1 H2].
  specialize (IH H2). cbn [Server.collapse_spaces].
  destruct (is_space c).
  - destruct b; [apply IH|]. cbn [no_bold]. rewrite (IH true).
    rewrite andb_true_r.
    now destruct (Server.collapse_spaces true r).
  - cbn [no_bold]. rewrite (IH false), andb_true_r.
    destruct (Server.collapse_spaces false r) as [|e t] eqn:E;
      [reflexivity|].
    destruct (e =? STAR) eqn:S; [|now rewrite andb_false_r].
    destruct (collapse_spaces_head e r t E S) as [r' ->].
    now rewrite S in H1.
Qed.

(** *** Reading into one text *)

Lemma fold_append (texts : list str) :
  forall full : str,
    fold_left (fun st t => Editor.append_chunk t st) texts full
    = full ++ List.concat texts.
Proof.
  induction texts as [|t ts IH]; intros full; cbn [fold_left List.concat].
  - now rewrite app_nil_r.
  - rewrite IH. unfold Editor.append_chunk. now rewrite app_assoc.
Qed.

Lemma callAI_formats (action : str) (values : list str) :
  Editor.callAI action values
  = formatAISuggestion
      (List.concat (filter Runs.handed_on (Shapes.data_texts values)))
      action.
Proof.
  assert (F : ClientCalls.caller
                (ClientCalls.fetchAI_stream Editor.append_chunk values [])
              = List.concat
                  (filter Runs.handed_on (Shapes.data_texts values))).
  { unfold ClientCalls.fetchAI_stream.
    rewrite ReadLoopFacts.fold_on_value_texts.
    destruct (ReadLoopFacts.fold_on_text str Editor.append_chunk
                (Shapes.data_texts values)
                {| ClientCalls.isThinking := false;
                   ClientCalls.response := [];
                   ClientCalls.caller := [] |}) as [C _].
    refine (eq_trans C _). cbn [ClientCalls.caller].
    now rewrite fold_append. }
  unfold Editor.callAI. rewrite F. reflexivity.
Qed.

End SuggestionFacts.

Module CodeBlockFacts.
Import Js TextActions TextShapes.
Local Open Scope N_scope.
Local Arguments N.eqb : simpl never.

Lemma formatCodeBlocks_before (pre rest : str) :
  Spec.occurs BACKTICK pre = false ->
  formatCodeBlocks_from 0 (pre ++ rest) = pre ++ formatCodeBlocks_from 0 rest.
Proof.
  unfold Spec.occurs. induction pre as [|c r IH]; [reflexivity|].
  cbn [existsb]. intros H. apply orb_false_iff in H as [H1 H2].
  cbn [app formatCodeBlocks_from].
  change FENCE with (BACKTICK :: [BACKTICK; BACKTICK]).
  cbn [startsWith]. rewrite H1. cbn [andb]. now rewrite (IH H2).
Qed.

Lemma find_fence_after (code rest : str) :
  Spec.occurs BACKTICK code = false ->
  find_fence (code ++ FENCE ++ rest) = Some (List.length code).
Proof.
  unfold Spec.occurs. induction code as [|c r IH]; [reflexivity|].
  cbn [existsb]. intros H. apply orb_false_iff in H as [H1 H2].
  cbn [app find_fence List.length].
  change FENCE with (BACKTICK :: [BACKTICK; BACKTICK]) at 1.
  cbn [startsWith]. rewrite H1. cbn [andb]. now rewrite (IH H2).
Qed.

Lemma formatCodeBlocks_skip (a b : str) :
  formatCodeBlocks_from (List.length a) (a ++ b) = formatCodeBlocks_from 0 b.
Proof.
  induction a as [|c r IH]; [reflexivity|].
  cbn [app List.length formatCodeBlocks_from]. exact IH.
Qed.

Lemma firstn_whole (a b : str) : firstn (List.length a) (a ++ b) = a.
Proof.
  induction a as [|c r IH]; [reflexivity|].
  cbn [List.length app firstn]. now rewrite IH.
Qed.

Lemma formatCodeBlocks_fenced (code post : str) :
  Spec.occurs BACKTICK code = false ->
  formatCodeBlocks_from 0 (FENCE ++ code ++ FENCE ++ post)
  = indented code ++ formatCodeBlocks_from 0 post.
Proof.
  intros C.
  change (FENCE ++ code ++ FENCE ++ post)
    with (BACKTICK :: [BACKTICK; BACKTICK] ++ code ++ FENCE ++ post).
  cbn [formatCodeBlocks_from].
  change (startsWith FENCE
            (BACKTICK :: [BACKTICK; BACKTICK] ++ code ++ FENCE ++ post))
    with true.
  cbv iota.
  change (skipn 3 (BACKTICK :: [BACKTICK; BACKTICK] ++ code ++ FENCE ++ post))
    with (code ++ FENCE ++ post).
  rewrite (find_fence_after code post C).
  rewrite firstn_whole. f_equal.
  replace (3 + List.length code + 3 - 1)%nat
    with (List.length ([BACKTICK; BACKTICK] ++ code ++ FENCE))
    by (rewrite !length_app; cbn [List.length FENCE lit]; simpl; lia).
  replace ([BACKTICK; BACKTICK] ++ code ++ FENCE ++ post)
    with (([BACKTICK; BACKTICK] ++ code ++ FENCE) ++ post)
    by (now rewrite <- !app_assoc).
  apply formatCodeBlocks_skip.
Qed.

End CodeBlockFacts.

Module SuggestionProperties.
Import Js TextActions TextShapes.
Local Open Scope N_scope.

(** [formatCodeBlocks] on a fenced block whose code holds no backtick,
    after a text that holds none: the text before it is kept, the block
    becomes a line feed, the lines of its trimmed code each behind four
    spaces, and a line feed, and the formatting goes on behind the
    closing fence. *)
Theorem formatCodeBlocks_indents_block (pre code post : str) :
  Spec.occurs BACKTICK pre = false ->
  Spec.occurs BACKTICK code = false ->
  formatCodeBlocks (pre ++ FENCE ++ code ++ FENCE ++ post)
  = pre ++ [LF]
    ++ join [LF] (map (fun line => lit "    " ++ line) (split LF (trim code)))
    ++ [LF] ++ formatCodeBlocks post.
Proof.
  intros P C. unfold formatCodeBlocks.
  rewrite (CodeBlockFacts.formatCodeBlocks_before _ _ P).
  rewrite (CodeBlockFacts.formatCodeBlocks_fenced _ _ C).
  unfold indented. now rewrite <- !app_assoc.
Qed.

Lemma formatCodeBlocks_indents_block_witness :
  formatCodeBlocks (lit "Run:" ++ FENCE ++ lit " a" ++ [LF] ++ lit "b "
                    ++ FENCE ++ lit " ok")
  = lit "Run:" ++ [LF] ++ lit "    a" ++ [LF] ++ lit "    b" ++ [LF]
    ++ lit " ok".
Proof.
  exact (formatCodeBlocks_indents_block (lit "Run:")
           (lit " a" ++ [LF] ++ lit "b ") (lit " ok") eq_refl eq_refl).
Defined.

(** [formatAISuggestion] on a reply that holds no backtick.  For
    ['shorten'] and ['lengthen'] the result is the inline form of the
    reply without its bold markers: one line, words separated by single
    plain spaces, no two asterisks side by side.  For ['table'] it is
    the table form of that reply.  For any other action it is the reply
    without its bold markers, trimmed. *)
Theorem formatAISuggestion_without_backtick (text action : str) :
  Spec.occurs BACKTICK text = false ->
  (action = lit "shorten" \/ action = lit "lengthen" ->
   formatAISuggestion text action
   = formatInlineText (removeMarkdownFormatting text)
   /\ Shapes.single_spaced true (formatAISuggestion text action) = true
   /\ Spec.occurs LF (formatAISuggestion text action) = false
   /\ no_bold (formatAISuggestion text action) = true)
  /\ (action = lit "table" ->
      formatAISuggestion text action
      = formatTableText (removeMarkdownFormatting text))
  /\ (action <> lit "shorten" -> action <> lit "lengthen" ->
      action <> lit "table" ->
      formatAISuggestion text action = removeMarkdownFormatting text).
Proof.
  intros B.
  assert (R : Spec.occurs BACKTICK (removeMarkdownFormatting text) = false)
    by (apply TextFacts.occurs_trim, SuggestionFacts.remove_bold_occurs, B).
  assert (I : formatInlineText (removeMarkdownFormatting text)
              = trim (Server.collapse_spaces false
                        (removeMarkdownFormatting text)))
    by (unfold formatInlineText;
        now rewrite TextFacts.collapse_after_line_feeds).
  split; [|split].
  - intros A.
    assert (E : formatAISuggestion text action
                = formatInlineText (removeMarkdownFormatting text)).
    { unfold formatAISuggestion, formatCodeBlocks.
      destruct A as [-> | ->];
        (change (str_eqb (lit "shorten") (lit "table")) with false
         || change (str_eqb (lit "lengthen") (lit "table")) with false);
        (change (str_eqb (lit "shorten") (lit "shorten")) with true
         || change (str_eqb (lit "lengthen") (lit "shorten")) with false);
        try change (str_eqb (lit "lengthen") (lit "lengthen")) with true;
        cbv beta iota zeta delta [orb];
        apply SuggestionFacts.formatCodeBlocks_no_fence,
              SuggestionFacts.no_backtick_no_fence;
        rewrite I;
        apply TextFacts.occurs_trim;
        now apply SuggestionFacts.collapse_spaces_occurs. }
    rewrite E. split; [reflexivity|].
    assert (S : Shapes.single_spaced true
                  (formatInlineText (removeMarkdownFormatting text)) = true).
    { rewrite I. apply (ShapeFacts.single_spaced_trim _ false).
      apply ShapeFacts.collapse_spaces_single. }
    split; [exact S|].
    split; [exact (ShapeFacts.single_spaced_no_lf _ _ S)|].
    rewrite I. apply TextFacts.no_bold_trim.
    apply SuggestionFacts.collapse_spaces_no_bold.
    apply TextFacts.no_bold_trim, TextFacts.remove_bold_no_bold.
  - intros ->. unfold formatAISuggestion, formatCodeBlocks.
    change (str_eqb (lit "table") (lit "table")) with true.
    change (str_eqb (lit "table") (lit "shorten")) with false.
    change (str_eqb (lit "table") (lit "lengthen")) with false.
    cbv beta iota zeta delta [orb].
    apply SuggestionFacts.formatCodeBlocks_no_fence,
          SuggestionFacts.no_backtick_no_fence.
    now apply SuggestionFacts.formatTableText_occurs.
  - intros N1 N2 N3. unfold formatAISuggestion, formatCodeBlocks.
    destruct (str_eqb action (lit "table")) eqn:E3;
      [apply JsFacts.str_eqb_eq in E3; contradiction|].
    destruct (str_eqb action (lit "shorten")) eqn:E1;
      [apply JsFacts.str_eqb_eq in E1; contradiction|].
    destruct (str_eqb action (lit "lengthen")) eqn:E2;
      [apply JsFacts.str_eqb_eq in E2; contradiction|].
    cbv beta iota zeta delta [orb].
    apply SuggestionFacts.formatCodeBlocks_no_fence,
          SuggestionFacts.no_backtick_no_fence, R.
Qed.

Lemma formatAISuggestion_without_backtick_witness :
  formatAISuggestion (lit " **Short**" ++ [LF; LF] ++ lit "text. ")
    (lit "shorten")
  = lit "Short text.".
Proof.
  refine (eq_trans
            (proj1 (proj1 (formatAISuggestion_without_backtick
                             (lit " **Short**" ++ [LF; LF] ++ lit "text. ")
                             (lit "shorten") _) _)) _).
  - reflexivity.
  - now left.
  - vm_compute. reflexivity.
Defined.

End SuggestionProperties.

(** ** A transformation, from the editor through the relay and back *)

Module TransformProperties.
Import Js Server Runs Shapes.
Local Open Scope N_scope.

(** A transformation of a non-empty selection through the relay, when
    the backend answers successfully with texts that hold no line feed
    and every event reaches the client whole ([groups] tells which
    events arrive in which value).  The relay sends the action's prompt
    around the selection as the editor gave it; it writes one event per
    text the backend's lines carry; and [callAI] returns what
    [formatAISuggestion] makes of the concatenation of the texts that
    are not by themselves a think block. *)
Theorem transform_through_relay
    (JSON_parse : str -> option Json) (OLLAMA_MODEL : str)
    (backend : UpstreamRequest -> FetchResult)
    (selection action model : str)
    (r : Response) (values : list str) (groups : list (list str)) :
  selection <> [] ->
  backend (relayed OLLAMA_MODEL model (buildActionPrompt selection action))
  = Resolved r ->
  ok r = true ->
  body r = Some (values, None) ->
  (forall t, In t (flat_map (carried JSON_parse) (flat_map (split LF) values))
             -> Spec.occurs LF t = false) ->
  List.concat groups
  = flat_map (carried JSON_parse) (flat_map (split LF) values) ->
  upstream (post_api_ai JSON_parse OLLAMA_MODEL backend
              (ClientCalls.init_body
                 (ClientCalls.fetchAI_init
                    (Editor.callAI_args selection action model))))
  = [relayed OLLAMA_MODEL model (buildActionPrompt selection action)]
  /\ events (post_api_ai JSON_parse OLLAMA_MODEL backend
               (ClientCalls.init_body
                  (ClientCalls.fetchAI_init
                     (Editor.callAI_args selection action model))))
     = map chunk_event (List.concat groups)
  /\ Editor.callAI action (values_of groups)
     = TextActions.formatAISuggestion
         (List.concat (filter handed_on (List.concat groups))) action.
Proof.
  intros S B K V F G.
  assert (U : upstream_request OLLAMA_MODEL
                (ClientCalls.init_body
                   (ClientCalls.fetchAI_init
                      (Editor.callAI_args selection action model)))
              = Some (relayed OLLAMA_MODEL model
                        (buildActionPrompt selection action))).
  { unfold upstream_request, build_prompt, relayed. cbn.
    destruct selection as [|c t]; [contradiction|]. cbn [nonempty].
    now destruct action. }
  split; [|split].
  - exact (RelayFacts.post_api_ai_upstream _ _ _ _ _ U).
  - rewrite (RelayFacts.post_api_ai_ok _ _ _ _ _ _ _ U B K V).
    rewrite RelayFacts.read_events_lines, G.
    rewrite <- RoundTripFacts.flat_map_map.
    apply flat_map_ext. intros line.
    apply RoundTripFacts.line_events_carried.
  - rewrite SuggestionFacts.callAI_formats.
    rewrite RoundTripFacts.data_texts_values_of; [reflexivity|].
    apply Forall_forall. rewrite G. exact F.
Qed.

Lemma transform_through_relay_witness :
  Editor.callAI (lit "shorten")
    (values_of [[lit "Hi"; lit " there"]; [lit "!"]])
  = lit "Hi there!".
Proof.
  refine (proj2 (proj2
            (transform_through_relay Sample.JSON_parse_flat Inputs.llama
               (Spec.answering (Spec.streaming_200 Inputs.backend_pieces))
               (lit "Hello there, how are you") (lit "shorten") the_model
               (Spec.streaming_200 Inputs.backend_pieces)
               Inputs.backend_pieces
               [[lit "Hi"; lit " there"]; [lit "!"]] _ _ _ _ _ _))).
  - discriminate.
  - reflexivity.
  - reflexivity.
  - reflexivity.
  - intros t [<-|[<-|[<-|[]]]]; reflexivity.
  - reflexivity.
Defined.

End TransformProperties.
